(** * Volleyball roster and statistics service

    A shallow embedding of the two revisions of the service
    ([server.js], the earlier schema, and the later revision with a
    standalone [sessions] table) together with the part of the relational
    store their SQL statements rely on: tables as lists of rows in
    insertion order, SERIAL sequences, the column types and constraints
    of the DDL issued by [initializeDatabase], transactions on one
    connection, and errors identified by their SQLSTATE code.  The
    script of the landing page ([public/app.js], in its two revisions)
    follows the service.

    Conventions.
    - A request body is a record of optional, typed fields: [None] is an
      absent (or [null]) JSON member.  JSON values of another type than
      the column they are bound to are outside the embedding.
    - INTEGER is [Z] with the range check of the store written out; the
      store raises an error on overflow, it never wraps.
    - A character string is a [string]; one [ascii] stands for one
      character.
    - A number bound to a statement, from a body or from the path, reaches
      the store as its text, in decimal, and the store reads the text as
      the type of its column ([int4in]).  A path parameter [:id] is the
      number its segment denotes; a segment that denotes no number is
      outside the embedding.
    - Timestamps are [Z]; each handler receives the value of
      CURRENT_TIMESTAMP for its statements as the argument [now]. *)

From Stdlib Require Import ZArith List String Ascii Bool Lia Permutation.
From Stdlib Require Import DecimalString.
Import ListNotations.
Local Open Scope string_scope.
Local Open Scope list_scope.
Local Open Scope Z_scope.

Set Implicit Arguments.

(** ** Errors raised by the store

    An error is its SQLSTATE code and its message, which the handlers
    pass on as [err.message]; the messages are worded as PostgreSQL
    words them from version 13 on. *)

Record pg_error := { code : string; message : string }.

Definition dquote : string := String (ascii_of_nat 34) EmptyString.
Definition quoted (s : string) : string := (dquote ++ s ++ dquote)%string.

(** The text of an integer, as String(n) and a template literal give it. *)
Definition decimal (z : Z) : string := NilZero.string_of_int (Z.to_int z).

Definition unique_violation (constraint : string) : pg_error :=
  {| code := "23505";
     message := ("duplicate key value violates unique constraint "
                 ++ quoted constraint)%string |}.

Definition not_null_violation (relation column : string) : pg_error :=
  {| code := "23502";
     message := ("null value in column " ++ quoted column
                 ++ " of relation " ++ quoted relation
                 ++ " violates not-null constraint")%string |}.

Definition foreign_key_violation (table constraint : string) : pg_error :=
  {| code := "23503";
     message := ("insert or update on table " ++ quoted table
                 ++ " violates foreign key constraint "
                 ++ quoted constraint)%string |}.

Definition check_violation (relation constraint : string) : pg_error :=
  {| code := "23514";
     message := ("new row for relation " ++ quoted relation
                 ++ " violates check constraint "
                 ++ quoted constraint)%string |}.

(** The result of an expression does not fit an INTEGER. *)
Definition numeric_value_out_of_range : pg_error :=
  {| code := "22003"; message := "integer out of range" |}.

(** The text of a parameter denotes a number that does not fit one. *)
Definition out_of_range_for_integer (text : string) : pg_error :=
  {| code := "22003";
     message := ("value " ++ quoted text
                 ++ " is out of range for type integer")%string |}.

Definition string_data_right_truncation (n : nat) : pg_error :=
  {| code := "22001";
     message := ("value too long for type character varying("
                 ++ decimal (Z.of_nat n) ++ ")")%string |}.

Definition invalid_datetime_format (s : string) : pg_error :=
  {| code := "22007";
     message := ("invalid input syntax for type date: " ++ quoted s)%string |}.

(** ** Results of statements *)

Inductive result (A : Type) : Type :=
| Ok (a : A)
| Err (e : pg_error).

Arguments Ok {A} a.
Arguments Err {A} e.

Definition rbind {A B : Type} (r : result A) (k : A -> result B) : result B :=
  match r with
  | Ok a => k a
  | Err e => Err e
  end.

Declare Scope result_scope.
Delimit Scope result_scope with result.
Notation "x <- c ;; k" := (rbind c (fun x => k))
  (at level 100, c at next level, right associativity) : result_scope.
Notation "c ;;; k" := (rbind c (fun _ => k))
  (at level 100, right associativity) : result_scope.

(** ** Column types *)

Definition int4_min : Z := -2147483648.
Definition int4_max : Z := 2147483647.

Definition in_int4 (z : Z) : bool := (int4_min <=? z) && (z <=? int4_max).

(** The value of an expression assigned to an INTEGER column. *)
Definition int4 (z : Z) : result Z :=
  if in_int4 z then Ok z else Err numeric_value_out_of_range.

(** A parameter bound to an INTEGER column or compared with one: the
    store reads the number from its text when the parameter is bound,
    before the statement runs. *)
Definition int4in (z : Z) : result Z :=
  if in_int4 z then Ok z else Err (out_of_range_for_integer (decimal z)).

Definition int4in_opt (o : option Z) : result (option Z) :=
  match o with
  | None => Ok None
  | Some z => rbind (int4in z) (fun z' => Ok (Some z'))
  end.

Fixpoint all_spaces (s : string) : bool :=
  match s with
  | EmptyString => true
  | String c r => Ascii.eqb c " "%char && all_spaces r
  end.

(** Assignment to a VARCHAR(n) column: a longer value is an error unless
    the excess is blank, in which case it is cut to [n] characters. *)
Definition varchar (n : nat) (s : string) : result string :=
  if Nat.leb (String.length s) n then Ok s
  else if all_spaces (substring n (String.length s - n) s)
       then Ok (substring 0 n s)
       else Err (string_data_right_truncation n).

Definition varchar_opt (n : nat) (o : option string) : result (option string) :=
  match o with
  | None => Ok None
  | Some s => rbind (varchar n s) (fun s' => Ok (Some s'))
  end.

Definition not_null {A : Type} (relation column : string) (o : option A)
  : result A :=
  match o with
  | Some a => Ok a
  | None => Err (not_null_violation relation column)
  end.

(** ** Sequences

    A table is the list of its rows, in insertion order.  The sequence
    behind a SERIAL key is kept apart from the rows: rows are
    transactional, a sequence is not, and a value handed out by [nextval]
    is never handed out again, whatever becomes of the statement that
    asked for it.  A sequence is the next value it hands out; the end of
    a sequence, two thousand million insertions away, is not modelled. *)

Definition nextval (next : Z) : Z * Z := (next, next + 1).

(** JavaScript truthiness of the values a body field can hold. *)
Definition truthy_string (o : option string) : bool :=
  match o with
  | Some s => negb (String.eqb s "")
  | None => false
  end.

Definition truthy_number (o : option Z) : bool :=
  match o with
  | Some z => negb (z =? 0)
  | None => false
  end.

Definition truthy_bool (o : option bool) : bool :=
  match o with
  | Some b => b
  | None => false
  end.

(** The text a template literal gives for a body field. *)
Definition template (o : option string) : string :=
  match o with
  | Some s => s
  | None => "undefined"
  end.

(** ** The [players] table (the same DDL in both revisions) *)

Module PlayerBody.
(** The body of POST /api/players and PUT /api/players/:id. *)
Record t := {
  player_id : option string;
  full_name : option string;
  phone_number : option string;
  instagram_username : option string;
  age : option Z;
  skill_level : option string
}.
End PlayerBody.

Module Player.
Record row := {
  id : Z;                                   (* SERIAL PRIMARY KEY *)
  player_id : string;                       (* VARCHAR(20) UNIQUE NOT NULL *)
  full_name : string;                       (* VARCHAR(100) NOT NULL *)
  phone_number : option string;             (* VARCHAR(20) *)
  instagram_username : option string;       (* VARCHAR(50) *)
  age : option Z;                           (* INTEGER *)
  skill_level : option string;              (* VARCHAR(20) CHECK (...) *)
  form_submissions_count : option Z;        (* INTEGER DEFAULT 0 *)
  sessions_attended_count : option Z;       (* INTEGER DEFAULT 0 *)
  mvp_awards_count : option Z;              (* INTEGER DEFAULT 0 *)
  total_points_scored : option Z;           (* INTEGER DEFAULT 0 *)
  total_saves : option Z;                   (* INTEGER DEFAULT 0 *)
  created_at : Z;
  updated_at : Z
}.

(** The four running counters of a row. *)
Record counters := {
  c_total_points_scored : option Z;
  c_total_saves : option Z;
  c_mvp_awards_count : option Z;
  c_sessions_attended_count : option Z
}.

Definition counters_of (p : row) : counters :=
  {| c_total_points_scored := total_points_scored p;
     c_total_saves := total_saves p;
     c_mvp_awards_count := mvp_awards_count p;
     c_sessions_attended_count := sessions_attended_count p |}.

(** SET total_points_scored = .., total_saves = .., mvp_awards_count = ..,
    sessions_attended_count = .., updated_at = CURRENT_TIMESTAMP *)
Definition set_counters (now : Z) (c : counters) (p : row) : row :=
  {| id := id p; player_id := player_id p; full_name := full_name p;
     phone_number := phone_number p;
     instagram_username := instagram_username p;
     age := age p; skill_level := skill_level p;
     form_submissions_count := form_submissions_count p;
     sessions_attended_count := c_sessions_attended_count c;
     mvp_awards_count := c_mvp_awards_count c;
     total_points_scored := c_total_points_scored c;
     total_saves := c_total_saves c;
     created_at := created_at p; updated_at := now |}.
End Player.

(** The counters of a row as INSERT INTO players leaves them (DEFAULT 0). *)
Definition zero_counters : Player.counters :=
  {| Player.c_total_points_scored := Some 0; Player.c_total_saves := Some 0;
     Player.c_mvp_awards_count := Some 0;
     Player.c_sessions_attended_count := Some 0 |}.

Definition skill_levels : list string := ["Beginner"; "Intermediate"; "Advanced"].

(** CHECK (skill_level IN (...)): a NULL passes. *)
Definition check_skill_level (o : option string) : result unit :=
  match o with
  | None => Ok tt
  | Some s => if existsb (String.eqb s) skill_levels then Ok tt
              else Err (check_violation "players" "players_skill_level_check")
  end.

(** The five texts [$1 .. $4] and [$6] fitted to the lengths of their
    columns, once the parameters are bound and before any row is
    touched; [ag] is the age as it was read. *)
Definition fit_profile (b : PlayerBody.t) (ag : option Z) : result PlayerBody.t :=
  (pid <- varchar_opt 20 (PlayerBody.player_id b);;
   fn <- varchar_opt 100 (PlayerBody.full_name b);;
   ph <- varchar_opt 20 (PlayerBody.phone_number b);;
   ig <- varchar_opt 50 (PlayerBody.instagram_username b);;
   sk <- varchar_opt 20 (PlayerBody.skill_level b);;
   Ok {| PlayerBody.player_id := pid; PlayerBody.full_name := fn;
         PlayerBody.phone_number := ph; PlayerBody.instagram_username := ig;
         PlayerBody.age := ag; PlayerBody.skill_level := sk |})%result.

(** The six parameters [$1 .. $6] coerced to the types of their columns,
    before the statement runs: the age [$5] is read as an INTEGER when it
    is bound, then the texts are fitted. *)
Definition coerce_profile (b : PlayerBody.t) : result PlayerBody.t :=
  (ag <- int4in_opt (PlayerBody.age b);; fit_profile b ag)%result.

Definition player_id_taken (pid : string) (l : list Player.row) : bool :=
  existsb (fun p => String.eqb (Player.player_id p) pid) l.

Definition player_exists (key : Z) (l : list Player.row) : bool :=
  existsb (fun p => Player.id p =? key) l.

(** The row an INSERT builds and the constraints it passes, in the order
    the store checks them: NOT NULL, CHECK, then the two unique indexes. *)
Definition new_player (now new_id : Z) (c : PlayerBody.t) (l : list Player.row)
  : result Player.row :=
  (pid <- not_null "players" "player_id" (PlayerBody.player_id c);;
   fn <- not_null "players" "full_name" (PlayerBody.full_name c);;
   check_skill_level (PlayerBody.skill_level c);;;
   if player_exists new_id l then Err (unique_violation "players_pkey")
   else if player_id_taken pid l
   then Err (unique_violation "players_player_id_key")
   else Ok {| Player.id := new_id; Player.player_id := pid;
              Player.full_name := fn;
              Player.phone_number := PlayerBody.phone_number c;
              Player.instagram_username := PlayerBody.instagram_username c;
              Player.age := PlayerBody.age c;
              Player.skill_level := PlayerBody.skill_level c;
              Player.form_submissions_count := Some 0;
              Player.sessions_attended_count := Some 0;
              Player.mvp_awards_count := Some 0;
              Player.total_points_scored := Some 0;
              Player.total_saves := Some 0;
              Player.created_at := now; Player.updated_at := now |})%result.

(** INSERT INTO players (player_id, full_name, phone_number,
    instagram_username, age, skill_level) VALUES ($1 .. $6) RETURNING id *)
Definition insert_into_players (now : Z) (b : PlayerBody.t)
  (l : list Player.row) (seq : Z) : result Z * list Player.row * Z :=
  match coerce_profile b with
  | Err e => (Err e, l, seq)
  | Ok c =>
      let (new_id, seq1) := nextval seq in
      match new_player now new_id c l with
      | Err e => (Err e, l, seq1)
      | Ok r => (Ok new_id, l ++ [r], seq1)
      end
  end.

(** SET player_id = $1, full_name = $2, phone_number = $3,
    instagram_username = $4, age = $5, skill_level = $6,
    updated_at = CURRENT_TIMESTAMP *)
Definition set_profile (now : Z) (pid fn : string) (c : PlayerBody.t)
  (p : Player.row) : Player.row :=
  {| Player.id := Player.id p; Player.player_id := pid; Player.full_name := fn;
     Player.phone_number := PlayerBody.phone_number c;
     Player.instagram_username := PlayerBody.instagram_username c;
     Player.age := PlayerBody.age c;
     Player.skill_level := PlayerBody.skill_level c;
     Player.form_submissions_count := Player.form_submissions_count p;
     Player.sessions_attended_count := Player.sessions_attended_count p;
     Player.mvp_awards_count := Player.mvp_awards_count p;
     Player.total_points_scored := Player.total_points_scored p;
     Player.total_saves := Player.total_saves p;
     Player.created_at := Player.created_at p; Player.updated_at := now |}.

(** The constraints a rewritten row passes: NOT NULL, CHECK, and the
    unique index on player_id against the rows that stay as they are. *)
Definition updated_profile (c : PlayerBody.t) (k : Z) (l : list Player.row)
  : result (string * string) :=
  (pid <- not_null "players" "player_id" (PlayerBody.player_id c);;
   fn <- not_null "players" "full_name" (PlayerBody.full_name c);;
   check_skill_level (PlayerBody.skill_level c);;;
   if player_id_taken pid (filter (fun p => negb (Player.id p =? k)) l)
   then Err (unique_violation "players_player_id_key")
   else Ok (pid, fn))%result.

(** The seven parameters of the UPDATE: the age [$5] and the key [$7],
    the path parameter, are read as INTEGERs when they are bound, then
    the texts are fitted. *)
Definition coerce_update (b : PlayerBody.t) (key : Z)
  : result (PlayerBody.t * Z) :=
  (ag <- int4in_opt (PlayerBody.age b);;
   k <- int4in key;;
   c <- fit_profile b ag;;
   Ok (c, k))%result.

(** UPDATE players SET ... WHERE id = $7, giving [rowCount].  The
    parameters are coerced first; the constraints are checked on the rows
    the statement rewrites, so with no row to rewrite none is checked. *)
Definition update_players (now : Z) (b : PlayerBody.t) (key : Z)
  (l : list Player.row) : result Z * list Player.row :=
  match coerce_update b key with
  | Err e => (Err e, l)
  | Ok (c, k) =>
      if negb (player_exists k l) then (Ok 0, l)
      else
        match updated_profile c k l with
        | Err e => (Err e, l)
        | Ok (pid, fn) =>
            (Ok (Z.of_nat (List.length (filter (fun p => Player.id p =? k) l))),
             map (fun p => if Player.id p =? k
                           then set_profile now pid fn c p else p) l)
        end
  end.

(** SELECT * FROM players WHERE id = $1, the key read as an INTEGER *)
Definition select_player (key : Z) (l : list Player.row)
  : result (list Player.row) :=
  (k <- int4in key;; Ok (filter (fun p => Player.id p =? k) l))%result.

(** ** NUMERIC values

    A NUMERIC is a decimal fraction: [unscaled / 10 ^ scale].  Both the
    division and ROUND round half away from zero. *)

Record numeric := { unscaled : Z; scale : nat }.

Definition numeric_of_int (z : Z) : numeric := {| unscaled := z; scale := 0 |}.

(** The literal [1.0] *)
Definition one_point_zero : numeric := {| unscaled := 10; scale := 1 |}.

Definition pow10 (n : nat) : Z := 10 ^ Z.of_nat n.

(** [a / b] rounded to the nearest integer, ties away from zero ([0 < b]). *)
Definition round_half_away (a b : Z) : Z :=
  Z.sgn a * ((2 * Z.abs a + b) / (2 * b)).

Definition numeric_mul (x y : numeric) : numeric :=
  {| unscaled := unscaled x * unscaled y; scale := (scale x + scale y)%nat |}.

Definition division_by_zero : pg_error :=
  {| code := "22012"; message := "division by zero" |}.

(** [x / y] computed to [rscale] fractional digits. *)
Definition numeric_div (rscale : nat) (x y : numeric) : result numeric :=
  if unscaled y =? 0 then Err division_by_zero
  else
    Ok {| unscaled :=
            round_half_away
              (Z.sgn (unscaled y) * unscaled x * pow10 (scale y) * pow10 rscale)
              (Z.abs (unscaled y) * pow10 (scale x));
          scale := rscale |}.

(** ROUND(x, n) *)
Definition numeric_round (x : numeric) (n : nat) : numeric :=
  if Nat.leb (scale x) n
  then {| unscaled := unscaled x * pow10 (n - scale x); scale := n |}
  else {| unscaled := round_half_away (unscaled x) (pow10 (scale x - n));
          scale := n |}.

Module PlayerStats.
(** A row of the roster with statistics: the columns of the player (the
    two timestamps are not selected) and the two averages. *)
Record row := {
  player : Player.row;
  avg_points_per_session : option numeric;
  avg_saves_per_session : option numeric
}.
End PlayerStats.

(** ** Routes and HTTP replies *)

Inductive verb : Type := GET | POST | PUT | DELETE.

(** A route as the application registers it: app.get(path, ..) and so on. *)
Definition route : Type := (verb * string)%type.


Inductive payload : Type :=
| error_ (msg : string)                                  (* {error} *)
| message_ (msg : string)                                (* {message} *)
| player_added (msg : string) (player_id : string) (id : Z)
| session_added (msg : string) (session_id : Z)
| player_ (p : Player.row)                               (* {player} *)
| players_ (l : list PlayerStats.row).                   (* {players} *)

Inductive reply : Type :=
| Json (status : Z) (p : payload)      (* res.status(status).json(p) *)
| NoReply.                             (* the handler's promise rejected *)

Definition status_of (r : reply) : option Z :=
  match r with
  | Json s _ => Some s
  | NoReply => None
  end.

(** ** Player Directory handlers (the same code in both revisions) *)

Module Directory.

(** app.get('/api/players/:id') *)
Definition get_api_players_id (key : Z) (l : list Player.row) : reply :=
  match select_player key l with
  | Ok [] => Json 404 (error_ "Player not found")
  | Ok (p :: _) => Json 200 (player_ p)
  | Err err => Json 500 (error_ (message err))
  end.

(** app.post('/api/players') *)
Definition post_api_players (now : Z) (b : PlayerBody.t)
  (l : list Player.row) (seq : Z) : reply * list Player.row * Z :=
  if negb (truthy_string (PlayerBody.player_id b))
     || negb (truthy_string (PlayerBody.full_name b))
  then (Json 400 (error_ "Player ID and Full Name are required"), l, seq)
  else
    match insert_into_players now b l seq with
    | (Ok new_id, l', seq') =>
        (Json 200 (player_added "Player added successfully"
                     (template (PlayerBody.player_id b)) new_id), l', seq')
    | (Err err, l', seq') =>
        if String.eqb (code err) "23505"
        then (Json 400 (error_ ("Player ID "
                                ++ quoted (template (PlayerBody.player_id b))
                                ++ " already exists")%string), l', seq')
        else (Json 500 (error_ (message err)), l', seq')
    end.

(** app.put('/api/players/:id') *)
Definition put_api_players_id (now : Z) (key : Z) (b : PlayerBody.t)
  (l : list Player.row) : reply * list Player.row :=
  match update_players now b key l with
  | (Ok rowCount, l') =>
      if rowCount =? 0 then (Json 404 (error_ "Player not found"), l')
      else (Json 200 (message_ "Player updated successfully"), l')
  | (Err err, l') => (Json 500 (error_ (message err)), l')
  end.

Section Roster.

(** The order of the database collation on names, and the number of
    fractional digits the store computes a quotient to. *)
Variable collate_le : string -> string -> bool.
Variable select_div_scale : numeric -> numeric -> nat.

Fixpoint insert_by_name (p : Player.row) (l : list Player.row)
  : list Player.row :=
  match l with
  | [] => [p]
  | q :: l' =>
      if collate_le (Player.full_name p) (Player.full_name q)
      then p :: q :: l'
      else q :: insert_by_name p l'
  end.

(** ORDER BY full_name *)
Definition order_by_full_name (l : list Player.row) : list Player.row :=
  fold_right insert_by_name [] l.

(** CASE WHEN count > 0 THEN ROUND((total * 1.0 / count), 2) ELSE 0 END.
    A NULL count does not satisfy the WHEN; a NULL total under a
    positive count gives NULL. *)
Definition avg_per_session (total count : option Z) : result (option numeric) :=
  match count with
  | Some n =>
      if 0 <? n then
        match total with
        | Some t =>
            let x := numeric_mul (numeric_of_int t) one_point_zero in
            let y := numeric_of_int n in
            (q <- numeric_div (select_div_scale x y) x y;;
             Ok (Some (numeric_round q 2)))%result
        | None => Ok None
        end
      else Ok (Some (numeric_of_int 0))
  | None => Ok (Some (numeric_of_int 0))
  end.

Definition with_stats (p : Player.row) : result PlayerStats.row :=
  (ap <- avg_per_session (Player.total_points_scored p)
                         (Player.sessions_attended_count p);;
   asv <- avg_per_session (Player.total_saves p)
                          (Player.sessions_attended_count p);;
   Ok {| PlayerStats.player := p;
         PlayerStats.avg_points_per_session := ap;
         PlayerStats.avg_saves_per_session := asv |})%result.

Fixpoint select_with_stats (l : list Player.row)
  : result (list PlayerStats.row) :=
  match l with
  | [] => Ok []
  | p :: l' =>
      (r <- with_stats p;; rs <- select_with_stats l';; Ok (r :: rs))%result
  end.

(** app.get('/api/players') *)
Definition get_api_players (l : list Player.row) : reply :=
  match select_with_stats (order_by_full_name l) with
  | Ok rs => Json 200 (players_ rs)
  | Err _ => Json 500 (error_ "Failed to fetch players with stats")
  end.

End Roster.

End Directory.

(** ** One connection of the pool

    [T] is the rows of all tables and [S] the sequences.  Statements of
    other connections read [committed].  Inside a transaction the
    connection works on its own copy of the rows, which COMMIT publishes
    and ROLLBACK drops; an error inside a transaction aborts it, and an
    aborted transaction refuses every statement until it is ended.

    [faults] scripts the failures of the store itself (a lost
    connection, a timeout): each call of the driver takes the head of
    the list, and fails without running when it holds an error.  [seen]
    records [committed] after each call: what a statement of another
    connection issued at that moment reads. *)

Section Connection.

Variables T S : Type.

Inductive txn_state : Type :=
| Idle
| Active (work : T)
| Aborted.

Record client := {
  committed : T;
  serial : S;
  txn : txn_state;
  leased : bool;
  faults : list (option pg_error);
  seen : list T
}.

Definition statement (A : Type) : Type := T -> S -> result A * T * S.
Definition action (A : Type) : Type := client -> result A * client.

Definition in_failed_sql_transaction : pg_error :=
  {| code := "25P02";
     message := "current transaction is aborted, commands ignored until end of transaction block" |}.

Definition set_txn (x : txn_state) (c : client) : client :=
  {| committed := committed c; serial := serial c; txn := x;
     leased := leased c; faults := faults c; seen := seen c |}.

Definition set_leased (b : bool) (c : client) : client :=
  {| committed := committed c; serial := serial c; txn := txn c;
     leased := b; faults := faults c; seen := seen c |}.

Definition take_fault (c : client) : option pg_error * client :=
  match faults c with
  | [] => (None, c)
  | f :: fs =>
      (f, {| committed := committed c; serial := serial c; txn := txn c;
             leased := leased c; faults := fs; seen := seen c |})
  end.

Definition observed (c : client) : client :=
  {| committed := committed c; serial := serial c; txn := txn c;
     leased := leased c; faults := faults c;
     seen := seen c ++ [committed c] |}.

(** A failure of the store while a transaction is open aborts it. *)
Definition abort (c : client) : client :=
  match txn c with
  | Active _ => set_txn Aborted c
  | _ => c
  end.

(** A data statement: on its own it commits at once, or leaves the rows
    as they were when it fails; in a transaction it works on the copy. *)
Definition execute {A : Type} (st : statement A) (c : client)
  : result A * client :=
  match txn c with
  | Idle =>
      let '(r, t', s') := st (committed c) (serial c) in
      match r with
      | Ok a => (Ok a, {| committed := t'; serial := s'; txn := Idle;
                          leased := leased c; faults := faults c;
                          seen := seen c |})
      | Err e => (Err e, {| committed := committed c; serial := s'; txn := Idle;
                            leased := leased c; faults := faults c;
                            seen := seen c |})
      end
  | Active w =>
      let '(r, w', s') := st w (serial c) in
      match r with
      | Ok a => (Ok a, {| committed := committed c; serial := s';
                          txn := Active w'; leased := leased c;
                          faults := faults c; seen := seen c |})
      | Err e => (Err e, {| committed := committed c; serial := s';
                            txn := Aborted; leased := leased c;
                            faults := faults c; seen := seen c |})
      end
  | Aborted => (Err in_failed_sql_transaction, c)
  end.

Definition BEGIN (c : client) : result unit * client :=
  match txn c with
  | Idle => (Ok tt, set_txn (Active (committed c)) c)
  | Active _ => (Ok tt, c)
  | Aborted => (Err in_failed_sql_transaction, c)
  end.

Definition COMMIT (c : client) : result unit * client :=
  match txn c with
  | Idle => (Ok tt, c)
  | Active w =>
      (Ok tt, {| committed := w; serial := serial c; txn := Idle;
                 leased := leased c; faults := faults c; seen := seen c |})
  | Aborted => (Ok tt, set_txn Idle c)
  end.

Definition ROLLBACK (c : client) : result unit * client :=
  (Ok tt, set_txn Idle c).

(** client.query(..): the call fails when the store does, and otherwise
    does what the statement does. *)
Definition query {A : Type} (run : client -> result A * client) : action A :=
  fun c =>
    let (f, c1) := take_fault c in
    match f with
    | Some e => (Err e, observed (abort c1))
    | None => let (r, c2) := run c1 in (r, observed c2)
    end.

(** pool.connect() and client.release() *)
Definition connect : action unit :=
  fun c =>
    let (f, c1) := take_fault c in
    match f with
    | Some e => (Err e, c1)
    | None => (Ok tt, set_leased true c1)
    end.

Definition release (c : client) : client := set_leased false c.

Definition aret {A : Type} (a : A) : action A := fun c => (Ok a, c).

Definition abind {A B : Type} (m : action A) (k : A -> action B) : action B :=
  fun c =>
    match m c with
    | (Ok a, c') => k a c'
    | (Err e, c') => (Err e, c')
    end.

(** try { body } catch (err) { handler err } *)
Definition try_catch {A : Type} (body : action A) (handler : pg_error -> action A)
  : action A :=
  fun c =>
    match body c with
    | (Ok a, c') => (Ok a, c')
    | (Err e, c') => handler e c'
    end.

(** .. finally { cleanup } *)
Definition finally {A : Type} (body : action A) (cleanup : client -> client)
  : action A :=
  fun c => let (r, c') := body c in (r, cleanup c').

(** What the caller receives: the reply sent, or none when the promise
    of the handler rejected. *)
Definition settle (r : result reply * client) : reply * client :=
  match r with
  | (Ok rep, c) => (rep, c)
  | (Err _, c) => (NoReply, c)
  end.

(** A connection fresh from the pool. *)
Definition fresh (t : T) (s : S) (fs : list (option pg_error)) : client :=
  {| committed := t; serial := s; txn := Idle; leased := false;
     faults := fs; seen := [] |}.

End Connection.

Arguments Idle {T}.
Arguments Aborted {T}.

Declare Scope action_scope.
Delimit Scope action_scope with action.
Notation "c1 >> c2" := (abind c1 (fun _ => c2))
  (at level 61, right associativity) : action_scope.

(** ** SQL aggregates *)

(** SUM over a column: NULLs are skipped, and the sum of no value is NULL. *)
Fixpoint sql_sum (l : list (option Z)) : option Z :=
  match l with
  | [] => None
  | None :: l' => sql_sum l'
  | Some v :: l' =>
      match sql_sum l' with
      | Some a => Some (v + a)
      | None => Some v
      end
  end.

Definition coalesce {A : Type} (o : option A) (d : A) : A :=
  match o with
  | Some a => a
  | None => d
  end.

(** COUNT over the selected rows *)
Definition sql_count {A : Type} (l : list A) : Z := Z.of_nat (List.length l).

(** [column = true] in a WHERE clause: a NULL does not satisfy it. *)
Definition is_true (o : option bool) : bool :=
  match o with
  | Some true => true
  | _ => false
  end.

(** Addition of two INTEGER values: NULL if either is, an error on overflow. *)
Definition int4pl (a b : option Z) : result (option Z) :=
  match a, b with
  | Some x, Some y => rbind (int4 (x + y)) (fun z => Ok (Some z))
  | _, _ => Ok None
  end.

(** ** Statements sent to the pool

    pool.query(..) runs one statement on a connection of its own.  A
    [call] is what one such call meets: the store failing, or the
    committed rows [t] it reads.  A handler that awaits several calls
    may read different rows in each; requests of other clients are
    served in between. *)

Inductive call (T : Type) : Type :=
| Fails (e : pg_error)
| Reads (t : T).

Arguments Fails {T} e.
Arguments Reads {T} t.

Definition pool_query {T A : Type} (c : call T) (q : T -> result A) : result A :=
  match c with
  | Fails e => Err e
  | Reads t => q t
  end.

(** What a reading handler sends: res.json(body), or
    res.status(status).json({ error }). *)
Inductive answer (A : Type) : Type :=
| Sent (body : A)
| Refused (status : Z) (error : string).

Arguments Sent {A} body.
Arguments Refused {A} status error.

(** ORDER BY: [before a b] holds when the row [a] may come before the
    row [b].  Rows the order does not tell apart come out as the store
    pleases; here, in the order of the table. *)
Section OrderBy.

Variable A : Type.
Variable before : A -> A -> bool.

Fixpoint insert_by (a : A) (l : list A) : list A :=
  match l with
  | [] => [a]
  | b :: l' => if before a b then a :: b :: l' else b :: insert_by a l'
  end.

Definition order_by (l : list A) : list A := fold_right insert_by [] l.

End OrderBy.

(** ORDER BY column DESC on a nullable INTEGER: NULLs come first. *)
Definition desc_nulls_first (a b : option Z) : bool :=
  match a, b with
  | None, _ => true
  | Some _, None => false
  | Some x, Some y => y <=? x
  end.

(** LIMIT n *)
Definition limit {A : Type} (n : nat) (l : list A) : list A := firstn n l.

(** [column > 0] in a WHERE clause: a NULL does not satisfy it. *)
Definition is_positive (o : option Z) : bool :=
  match o with
  | Some n => 0 <? n
  | None => false
  end.

(** ** Reading handlers on the [players] table (the same code in both
    revisions) *)

Module PlayersList.
(** The eight columns GET /api/players-list selects. *)
Record row := {
  id : Z;
  player_id : string;
  full_name : string;
  phone_number : option string;
  instagram_username : option string;
  age : option Z;
  skill_level : option string;
  created_at : Z
}.

(** { players, count } *)
Record body := { players : list row; count : Z }.
End PlayersList.

Module TopMvp.
Record row := { full_name : string; mvp_awards_count : option Z }.
End TopMvp.

Module RecentPlayer.
Record row := { full_name : string; player_id : string; created_at : Z }.
End RecentPlayer.

Module PlayerQueries.

Definition list_columns (p : Player.row) : PlayersList.row :=
  {| PlayersList.id := Player.id p;
     PlayersList.player_id := Player.player_id p;
     PlayersList.full_name := Player.full_name p;
     PlayersList.phone_number := Player.phone_number p;
     PlayersList.instagram_username := Player.instagram_username p;
     PlayersList.age := Player.age p;
     PlayersList.skill_level := Player.skill_level p;
     PlayersList.created_at := Player.created_at p |}.

Section Listing.

Variable collate_le : string -> string -> bool.

(** app.get('/api/players-list'): [count] is the rowCount of the SELECT. *)
Definition get_api_players_list (c : call (list Player.row))
  : answer PlayersList.body :=
  match pool_query c
          (fun l => Ok (map list_columns
                          (Directory.order_by_full_name collate_le l))) with
  | Ok rows => Sent {| PlayersList.players := rows;
                       PlayersList.count := sql_count rows |}
  | Err _ => Refused 500 "Failed to fetch players"
  end.

End Listing.

(** SELECT COUNT( * ) as count FROM players WHERE player_id = $1 *)
Definition count_player_id (player_id : string) (l : list Player.row) : Z :=
  sql_count (filter (fun p => String.eqb (Player.player_id p) player_id) l).

(** app.get('/api/check-player-id/:player_id'), answering { exists } *)
Definition get_api_check_player_id (player_id : string)
  (c : call (list Player.row)) : answer bool :=
  match pool_query c (fun l => Ok (count_player_id player_id l)) with
  | Ok count => Sent (0 <? count)
  | Err err => Refused 500 (message err)
  end.

(** SELECT full_name, mvp_awards_count FROM players
    WHERE mvp_awards_count > 0 ORDER BY mvp_awards_count DESC LIMIT 5 *)
Definition top_mvps (l : list Player.row) : list TopMvp.row :=
  map (fun p => {| TopMvp.full_name := Player.full_name p;
                   TopMvp.mvp_awards_count := Player.mvp_awards_count p |})
      (limit 5
         (order_by (fun p q => desc_nulls_first (Player.mvp_awards_count p)
                                                (Player.mvp_awards_count q))
            (filter (fun p => is_positive (Player.mvp_awards_count p)) l))).

(** SELECT full_name, player_id, created_at FROM players
    ORDER BY created_at DESC LIMIT 5 *)
Definition recent_players (l : list Player.row) : list RecentPlayer.row :=
  map (fun p => {| RecentPlayer.full_name := Player.full_name p;
                   RecentPlayer.player_id := Player.player_id p;
                   RecentPlayer.created_at := Player.created_at p |})
      (limit 5
         (order_by (fun p q => Player.created_at q <=? Player.created_at p) l)).

End PlayerQueries.

(** * The later revision: a standalone [sessions] table *)

Module Later.

Module Session.
Record row := {
  id : Z;                    (* SERIAL PRIMARY KEY *)
  session_date : Z;          (* DATE UNIQUE NOT NULL, as a day number *)
  created_at : Z
}.
End Session.

Module PlayerSession.
Record row := {
  id : Z;                              (* SERIAL PRIMARY KEY *)
  player_id : Z;                       (* INTEGER NOT NULL REFERENCES players(id) ON DELETE CASCADE *)
  session_id : Z;                      (* INTEGER NOT NULL REFERENCES sessions(id) ON DELETE CASCADE *)
  points_scored : option Z;            (* INTEGER DEFAULT 0 *)
  saves : option Z;                    (* INTEGER DEFAULT 0 *)
  mvp_award : option bool;             (* BOOLEAN DEFAULT FALSE *)
  attendance_status : option string;   (* VARCHAR(20) DEFAULT 'Present' *)
  created_at : Z
}.
End PlayerSession.

Module StatsBody.
(** The body of POST /api/player-sessions. *)
Record t := {
  player_id : option Z;
  session_id : option Z;
  points_scored : option Z;
  saves : option Z;
  mvp_award : option bool
}.
End StatsBody.

(** The rows of the tables the handlers read and write.  The
    [form_submissions] table is created and never touched. *)
Record data := {
  players : list Player.row;
  sessions : list Session.row;
  player_sessions : list PlayerSession.row
}.

Record seqs := {
  players_id_seq : Z;
  sessions_id_seq : Z;
  player_sessions_id_seq : Z
}.

Record db := { tables : data; serials : seqs }.

Definition with_players (l : list Player.row) (t : data) : data :=
  {| players := l; sessions := sessions t; player_sessions := player_sessions t |}.

Definition with_sessions (l : list Session.row) (t : data) : data :=
  {| players := players t; sessions := l; player_sessions := player_sessions t |}.

Definition with_player_sessions (l : list PlayerSession.row) (t : data) : data :=
  {| players := players t; sessions := sessions t; player_sessions := l |}.

Definition with_players_id_seq (n : Z) (s : seqs) : seqs :=
  {| players_id_seq := n; sessions_id_seq := sessions_id_seq s;
     player_sessions_id_seq := player_sessions_id_seq s |}.

Definition with_sessions_id_seq (n : Z) (s : seqs) : seqs :=
  {| players_id_seq := players_id_seq s; sessions_id_seq := n;
     player_sessions_id_seq := player_sessions_id_seq s |}.

Definition with_player_sessions_id_seq (n : Z) (s : seqs) : seqs :=
  {| players_id_seq := players_id_seq s; sessions_id_seq := sessions_id_seq s;
     player_sessions_id_seq := n |}.

Definition empty_data : data :=
  {| players := []; sessions := []; player_sessions := [] |}.

Definition initial_seqs : seqs :=
  {| players_id_seq := 1; sessions_id_seq := 1; player_sessions_id_seq := 1 |}.

(** initializeDatabase: the tables are created if absent ([None] is a
    database with no table yet), and [player_sessions] is dropped and
    created again, with its sequence, whatever it held. *)
Definition initializeDatabase (o : option db) : db :=
  match o with
  | None => {| tables := empty_data; serials := initial_seqs |}
  | Some d =>
      {| tables := with_player_sessions [] (tables d);
         serials := with_player_sessions_id_seq 1 (serials d) |}
  end.

(** *** Session Ledger statements *)

Definition session_exists (key : Z) (l : list Session.row) : bool :=
  existsb (fun r => Session.id r =? key) l.

Definition same_pair (p se : Z) (r : PlayerSession.row) : bool :=
  (PlayerSession.player_id r =? p) && (PlayerSession.session_id r =? se).

(** DO UPDATE SET points_scored = EXCLUDED.points_scored,
    saves = EXCLUDED.saves, mvp_award = EXCLUDED.mvp_award *)
Definition do_update (pt sv : Z) (mvp : bool) (r : PlayerSession.row)
  : PlayerSession.row :=
  {| PlayerSession.id := PlayerSession.id r;
     PlayerSession.player_id := PlayerSession.player_id r;
     PlayerSession.session_id := PlayerSession.session_id r;
     PlayerSession.points_scored := Some pt;
     PlayerSession.saves := Some sv;
     PlayerSession.mvp_award := Some mvp;
     PlayerSession.attendance_status := PlayerSession.attendance_status r;
     PlayerSession.created_at := PlayerSession.created_at r |}.

Definition new_player_session (now new_id p se pt sv : Z) (mvp : bool)
  : PlayerSession.row :=
  {| PlayerSession.id := new_id;
     PlayerSession.player_id := p;
     PlayerSession.session_id := se;
     PlayerSession.points_scored := Some pt;
     PlayerSession.saves := Some sv;
     PlayerSession.mvp_award := Some mvp;
     PlayerSession.attendance_status := Some "Present";
     PlayerSession.created_at := now |}.

(** INSERT INTO player_sessions (player_id, session_id, points_scored,
    saves, mvp_award) VALUES ($1 .. $5)
    ON CONFLICT (player_id, session_id) DO UPDATE SET ...

    The key is drawn from the sequence before the conflict is looked
    for.  On a conflict the row in place is rewritten and nothing else
    is checked; otherwise the new row must have a fresh key and
    reference a player and a session. *)
Definition upsert_player_session (now : Z) (player_id session_id : option Z)
  (points saves : Z) (mvp : bool) : statement data seqs unit :=
  fun t s =>
    match (p <- int4in_opt player_id;; se <- int4in_opt session_id;;
           pt <- int4in points;; sv <- int4in saves;;
           Ok (p, se, pt, sv))%result with
    | Err e => (Err e, t, s)
    | Ok (p, se, pt, sv) =>
        let (new_id, n) := nextval (player_sessions_id_seq s) in
        let s' := with_player_sessions_id_seq n s in
        match (p' <- not_null "player_sessions" "player_id" p;;
               se' <- not_null "player_sessions" "session_id" se;;
               Ok (p', se'))%result with
        | Err e => (Err e, t, s')
        | Ok (p', se') =>
            if existsb (same_pair p' se') (player_sessions t)
            then (Ok tt,
                  with_player_sessions
                    (map (fun r => if same_pair p' se' r
                                   then do_update pt sv mvp r else r)
                         (player_sessions t)) t,
                  s')
            else if existsb (fun r => PlayerSession.id r =? new_id)
                            (player_sessions t)
            then (Err (unique_violation "player_sessions_pkey"), t, s')
            else if negb (player_exists p' (players t))
            then (Err (foreign_key_violation "player_sessions"
                         "player_sessions_player_id_fkey"), t, s')
            else if negb (session_exists se' (sessions t))
            then (Err (foreign_key_violation "player_sessions"
                         "player_sessions_session_id_fkey"), t, s')
            else (Ok tt,
                  with_player_sessions
                    (player_sessions t
                     ++ [new_player_session now new_id p' se' pt sv mvp]) t,
                  s')
        end
    end.

(** FROM player_sessions WHERE player_id = $1 *)
Definition sessions_of (p : Z) (l : list PlayerSession.row)
  : list PlayerSession.row :=
  filter (fun r => PlayerSession.player_id r =? p) l.

(** The four sub-selects of the UPDATE, each assigned to its INTEGER
    column. *)
Definition recomputed_counters (p : Z) (l : list PlayerSession.row)
  : result Player.counters :=
  (tp <- int4 (coalesce (sql_sum (map PlayerSession.points_scored
                                      (sessions_of p l))) 0);;
   ts <- int4 (coalesce (sql_sum (map PlayerSession.saves
                                      (sessions_of p l))) 0);;
   mv <- int4 (coalesce (Some (sql_count
                  (filter (fun r => is_true (PlayerSession.mvp_award r))
                          (sessions_of p l)))) 0);;
   sa <- int4 (coalesce (Some (sql_count (sessions_of p l))) 0);;
   Ok {| Player.c_total_points_scored := Some tp;
         Player.c_total_saves := Some ts;
         Player.c_mvp_awards_count := Some mv;
         Player.c_sessions_attended_count := Some sa |})%result.

(** UPDATE players SET total_points_scored = COALESCE((SELECT SUM ..), 0),
    total_saves = .., mvp_awards_count = .., sessions_attended_count = ..,
    updated_at = CURRENT_TIMESTAMP WHERE id = $1 *)
Definition update_player_stats (now : Z) (player_id : option Z)
  : statement data seqs Z :=
  fun t s =>
    match int4in_opt player_id with
    | Err e => (Err e, t, s)
    | Ok None => (Ok 0, t, s)
    | Ok (Some p) =>
        if negb (player_exists p (players t)) then (Ok 0, t, s)
        else
          match recomputed_counters p (player_sessions t) with
          | Err e => (Err e, t, s)
          | Ok c =>
              (Ok (sql_count (filter (fun q => Player.id q =? p) (players t))),
               with_players
                 (map (fun q => if Player.id q =? p
                                then Player.set_counters now c q else q)
                      (players t)) t,
               s)
          end
    end.

(** [points_scored || 0] *)
Definition or_zero (o : option Z) : Z :=
  if truthy_number o then coalesce o 0 else 0.

(** [mvp_award || false] *)
Definition or_false (o : option bool) : bool :=
  if truthy_bool o then coalesce o false else false.

(** app.post('/api/player-sessions'), on the connection it acquires *)
Definition player_sessions_handler (now : Z) (b : StatsBody.t)
  : client data seqs -> reply * client data seqs :=
  fun c =>
    if negb (truthy_number (StatsBody.player_id b))
       || negb (truthy_number (StatsBody.session_id b))
    then (Json 400 (error_ "Player ID and Session ID are required"), c)
    else
      settle
        ((connect (T:=data) (S:=seqs) >>
          finally
            (try_catch
               (query (@BEGIN data seqs) >>
                query (execute
                         (upsert_player_session now
                            (StatsBody.player_id b) (StatsBody.session_id b)
                            (or_zero (StatsBody.points_scored b))
                            (or_zero (StatsBody.saves b))
                            (or_false (StatsBody.mvp_award b)))) >>
                query (execute
                         (update_player_stats now (StatsBody.player_id b))) >>
                query (@COMMIT data seqs) >>
                aret (Json 200
                        (message_ "Player session statistics added successfully")))
               (fun err =>
                  query (@ROLLBACK data seqs) >>
                  aret (Json 500 (error_ (message err)))))
            (@release data seqs))%action c).

(** The handler as the service runs it: on a connection fresh from the
    pool, against the store [d]; [fs] scripts the failures of the store
    during the call. *)
Definition post_api_player_sessions (now : Z) (b : StatsBody.t)
  (fs : list (option pg_error)) (d : db) : reply * db :=
  let (rep, c) :=
    player_sessions_handler now b (fresh (tables d) (serials d) fs) in
  (rep, {| tables := committed c; serials := serial c |}).

(** *** Player Directory on the later store *)

Definition post_api_players (now : Z) (b : PlayerBody.t) (d : db) : reply * db :=
  let '(rep, l, n) :=
    Directory.post_api_players now b (players (tables d)) (players_id_seq (serials d)) in
  (rep, {| tables := with_players l (tables d);
           serials := with_players_id_seq n (serials d) |}).

Definition put_api_players_id (now : Z) (key : Z) (b : PlayerBody.t) (d : db)
  : reply * db :=
  let (rep, l) := Directory.put_api_players_id now key b (players (tables d)) in
  (rep, {| tables := with_players l (tables d); serials := serials d |}).

Definition get_api_players_id (key : Z) (d : db) : reply :=
  Directory.get_api_players_id key (players (tables d)).

(** DELETE FROM players WHERE id = $1, giving [rowCount]; the key is
    read as an INTEGER first.  The rows of [player_sessions] that
    reference a deleted player go with it (ON DELETE CASCADE). *)
Definition delete_from_players (key : Z) : statement data seqs Z :=
  fun t s =>
    match int4in key with
    | Err e => (Err e, t, s)
    | Ok k =>
        if negb (player_exists k (players t)) then (Ok 0, t, s)
        else
          (Ok (sql_count (filter (fun p => Player.id p =? k) (players t))),
           {| players := filter (fun p => negb (Player.id p =? k)) (players t);
              sessions := sessions t;
              player_sessions :=
                filter (fun r => negb (PlayerSession.player_id r =? k))
                       (player_sessions t) |},
           s)
    end.

(** app.delete('/api/players/:id') *)
Definition delete_api_players_id (key : Z) (d : db) : reply * db :=
  match delete_from_players key (tables d) (serials d) with
  | (Ok rowCount, t, s) =>
      if rowCount =? 0
      then (Json 404 (error_ "Player not found"), {| tables := t; serials := s |})
      else (Json 200 (message_ "Player deleted successfully"),
            {| tables := t; serials := s |})
  | (Err err, _, s) =>
      (Json 500 (error_ (message err)), {| tables := tables d; serials := s |})
  end.

(** app.post('/api/repair-database'): DROP TABLE IF EXISTS player_sessions
    CASCADE, then CREATE TABLE player_sessions (...). *)
Definition post_api_repair_database (d : db) : reply * db :=
  (Json 200 (message_ "Database repaired successfully"),
   {| tables := with_player_sessions [] (tables d);
      serials := with_player_sessions_id_seq 1 (serials d) |}).

(** The routes the later revision registers, in its order. *)
Definition routes : list route :=
  [ (GET, "/api/health"); (GET, "/api/players-list"); (GET, "/api/players");
    (GET, "/api/players/:id"); (POST, "/api/players");
    (PUT, "/api/players/:id"); (DELETE, "/api/players/:id");
    (GET, "/api/sessions"); (POST, "/api/sessions");
    (POST, "/api/player-sessions"); (GET, "/api/players/:id/sessions");
    (GET, "/api/sessions/:id/players"); (GET, "/api/dashboard");
    (GET, "/api/check-player-id/:player_id"); (POST, "/api/repair-database");
    (GET, "/"); (GET, "/players-list"); (GET, "/add-player");
    (GET, "/edit-player"); (GET, "/add-session"); (GET, "/add-player-stats") ].

(** *** Statistics Aggregator: the dashboard counts *)

(** SELECT COUNT( * ) as total_players FROM players *)
Definition total_players (d : db) : Z := sql_count (players (tables d)).

(** SELECT COUNT( * ) as total_sessions FROM sessions *)
Definition total_sessions (d : db) : Z := sql_count (sessions (tables d)).

(** SELECT COUNT( * ) as total_mvps FROM player_sessions WHERE mvp_award = true *)
Definition total_mvps (d : db) : Z :=
  sql_count (filter (fun r => is_true (PlayerSession.mvp_award r))
                    (player_sessions (tables d))).

Section Dates.

(** The store's reading of a text as a DATE (a day number), [None] when
    the text denotes no date. *)
Variable date_in : string -> option Z.

Definition date_opt (o : option string) : result (option Z) :=
  match o with
  | None => Ok None
  | Some s =>
      match date_in s with
      | Some day => Ok (Some day)
      | None => Err (invalid_datetime_format s)
      end
  end.

(** INSERT INTO sessions (session_date) VALUES ($1) RETURNING id *)
Definition insert_into_sessions (now : Z) (session_date : option string)
  : statement data seqs Z :=
  fun t s =>
    match date_opt session_date with
    | Err e => (Err e, t, s)
    | Ok day =>
        let (new_id, n) := nextval (sessions_id_seq s) in
        let s' := with_sessions_id_seq n s in
        match not_null "sessions" "session_date" day with
        | Err e => (Err e, t, s')
        | Ok day' =>
            if session_exists new_id (sessions t)
            then (Err (unique_violation "sessions_pkey"), t, s')
            else if existsb (fun r => Session.session_date r =? day')
                            (sessions t)
            then (Err (unique_violation "sessions_session_date_key"), t, s')
            else (Ok new_id,
                  with_sessions
                    (sessions t
                     ++ [{| Session.id := new_id;
                            Session.session_date := day';
                            Session.created_at := now |}]) t,
                  s')
        end
    end.

(** app.post('/api/sessions') *)
Definition post_api_sessions (now : Z) (session_date : option string) (d : db)
  : reply * db :=
  if negb (truthy_string session_date)
  then (Json 400 (error_ "Session date is required"), d)
  else
    match insert_into_sessions now session_date (tables d) (serials d) with
    | (Ok new_id, t, s) =>
        (Json 200 (session_added "Session added successfully" new_id),
         {| tables := t; serials := s |})
    | (Err err, _, s) =>
        if String.eqb (code err) "23505"
        then (Json 400 (error_ ("Session for date "
                                ++ quoted (template session_date)
                                ++ " already exists")%string),
              {| tables := tables d; serials := s |})
        else (Json 500 (error_ (message err)),
              {| tables := tables d; serials := s |})
    end.

(** *** The writing requests of the interface *)

Inductive request : Type :=
| POST_players (b : PlayerBody.t)
| PUT_players (key : Z) (b : PlayerBody.t)
| DELETE_players (key : Z)
| POST_sessions (session_date : option string)
| POST_player_sessions (b : StatsBody.t) (fs : list (option pg_error))
| POST_repair_database.

Definition serve (now : Z) (r : request) (d : db) : reply * db :=
  match r with
  | POST_players b => post_api_players now b d
  | PUT_players key b => put_api_players_id now key b d
  | DELETE_players key => delete_api_players_id key d
  | POST_sessions date => post_api_sessions now date d
  | POST_player_sessions b fs => post_api_player_sessions now b fs d
  | POST_repair_database => post_api_repair_database d
  end.

(** A run of requests, each at its own time. *)
Fixpoint serve_all (rs : list (Z * request)) (d : db) : list reply * db :=
  match rs with
  | [] => ([], d)
  | (now, r) :: rs' =>
      let (rep, d1) := serve now r d in
      let (reps, d2) := serve_all rs' d1 in
      (rep :: reps, d2)
  end.

End Dates.

(** *** Reading handlers *)

(** ORDER BY session_date DESC *)
Definition later_date (a b : Session.row) : bool :=
  Session.session_date b <=? Session.session_date a.

(** app.get('/api/sessions'), answering { sessions } *)
Definition get_api_sessions (c : call db) : answer (list Session.row) :=
  match pool_query c (fun d => Ok (order_by later_date (sessions (tables d)))) with
  | Ok rows => Sent rows
  | Err _ => Refused 500 "Failed to fetch sessions"
  end.

Module History.
(** ps.*, s.session_date *)
Record row := { fact : PlayerSession.row; session_date : Z }.
End History.

(** FROM player_sessions ps JOIN sessions s ON ps.session_id = s.id *)
Definition join_sessions (ps : list PlayerSession.row) (ss : list Session.row)
  : list History.row :=
  flat_map
    (fun r =>
       map (fun s => {| History.fact := r;
                        History.session_date := Session.session_date s |})
           (filter (fun s => PlayerSession.session_id r =? Session.id s) ss))
    ps.

(** SELECT ps.*, s.session_date FROM player_sessions ps
    JOIN sessions s ON ps.session_id = s.id
    WHERE ps.player_id = $1 ORDER BY s.session_date DESC,
    the key read as an INTEGER *)
Definition select_player_sessions (key : Z) (t : data)
  : result (list History.row) :=
  (k <- int4in key;;
   Ok (order_by (fun a b => History.session_date b <=? History.session_date a)
         (filter (fun h => PlayerSession.player_id (History.fact h) =? k)
                 (join_sessions (player_sessions t) (sessions t)))))%result.

(** app.get('/api/players/:id/sessions'), answering { sessions } *)
Definition get_api_players_id_sessions (key : Z) (c : call db)
  : answer (list History.row) :=
  match pool_query c (fun d => select_player_sessions key (tables d)) with
  | Ok rows => Sent rows
  | Err err => Refused 500 (message err)
  end.

Module Lineup.
(** p.id, p.full_name, p.player_id, ps.points_scored, ps.saves, ps.mvp_award *)
Record row := {
  id : Z;
  full_name : string;
  player_id : string;
  points_scored : option Z;
  saves : option Z;
  mvp_award : option bool
}.
End Lineup.

Definition lineup_columns (p : Player.row) (r : PlayerSession.row) : Lineup.row :=
  {| Lineup.id := Player.id p;
     Lineup.full_name := Player.full_name p;
     Lineup.player_id := Player.player_id p;
     Lineup.points_scored := PlayerSession.points_scored r;
     Lineup.saves := PlayerSession.saves r;
     Lineup.mvp_award := PlayerSession.mvp_award r |}.

Section Lineups.

Variable collate_le : string -> string -> bool.

(** SELECT p.id, p.full_name, p.player_id, ps.points_scored, ps.saves,
    ps.mvp_award FROM players p
    JOIN player_sessions ps ON p.id = ps.player_id
    WHERE ps.session_id = $1 ORDER BY p.full_name,
    the key read as an INTEGER *)
Definition select_session_players (key : Z) (t : data)
  : result (list Lineup.row) :=
  (k <- int4in key;;
   Ok (order_by (fun a b => collate_le (Lineup.full_name a) (Lineup.full_name b))
         (flat_map
            (fun p =>
               map (lineup_columns p)
                   (filter (fun r => (Player.id p =? PlayerSession.player_id r)
                                     && (PlayerSession.session_id r =? k))
                           (player_sessions t)))
            (players t))))%result.

(** app.get('/api/sessions/:id/players'), answering { players } *)
Definition get_api_sessions_id_players (key : Z) (c : call db)
  : answer (list Lineup.row) :=
  match pool_query c (fun d => select_session_players key (tables d)) with
  | Ok rows => Sent rows
  | Err err => Refused 500 (message err)
  end.

End Lineups.

Module RecentSession.
Record row := { session_date : Z; created_at : Z }.
End RecentSession.

(** SELECT session_date, created_at FROM sessions
    ORDER BY session_date DESC LIMIT 5 *)
Definition recent_sessions (l : list Session.row) : list RecentSession.row :=
  map (fun s => {| RecentSession.session_date := Session.session_date s;
                   RecentSession.created_at := Session.created_at s |})
      (limit 5 (order_by later_date l)).

Module Stats.
(** The object GET /api/dashboard answers with.  A COUNT arrives as text
    and is read back with parseInt. *)
Record t := {
  total_players : Z;
  total_sessions : Z;
  total_mvps : Z;
  top_mvps : list TopMvp.row;
  recent_players : list RecentPlayer.row;
  recent_sessions : list RecentSession.row
}.
End Stats.

(** app.get('/api/dashboard'): six statements, one after the other; [w k]
    is what the call number [k] meets. *)
Definition get_api_dashboard (w : nat -> call db) : answer Stats.t :=
  match (tp <- pool_query (w 0%nat) (fun d => Ok (total_players d));;
         ts <- pool_query (w 1%nat) (fun d => Ok (total_sessions d));;
         tm <- pool_query (w 2%nat) (fun d => Ok (total_mvps d));;
         top <- pool_query (w 3%nat)
                  (fun d => Ok (PlayerQueries.top_mvps (players (tables d))));;
         rp <- pool_query (w 4%nat)
                 (fun d => Ok (PlayerQueries.recent_players (players (tables d))));;
         rs <- pool_query (w 5%nat)
                 (fun d => Ok (recent_sessions (sessions (tables d))));;
         Ok {| Stats.total_players := tp; Stats.total_sessions := ts;
               Stats.total_mvps := tm; Stats.top_mvps := top;
               Stats.recent_players := rp; Stats.recent_sessions := rs |})%result
  with
  | Ok stats => Sent stats
  | Err _ => Refused 500 "Failed to fetch dashboard stats"
  end.

End Later.

(** * The earlier revision ([server.js]): the date inline in each fact *)

Module Earlier.

Module PlayerSession.
Record row := {
  id : Z;                              (* SERIAL PRIMARY KEY *)
  player_id : Z;                       (* INTEGER NOT NULL REFERENCES players(id) ON DELETE CASCADE *)
  session_date : Z;                    (* DATE NOT NULL, as a day number *)
  points_scored : option Z;            (* INTEGER DEFAULT 0 *)
  saves : option Z;                    (* INTEGER DEFAULT 0 *)
  mvp_award : option bool;             (* BOOLEAN DEFAULT FALSE *)
  attendance_status : option string;   (* VARCHAR(20) DEFAULT 'Present' *)
  created_at : Z
}.
End PlayerSession.

Module SessionBody.
(** The body of POST /api/sessions. *)
Record t := {
  player_id : option Z;
  session_date : option string;
  points_scored : option Z;
  saves : option Z;
  mvp_award : option bool
}.
End SessionBody.

Record data := {
  players : list Player.row;
  player_sessions : list PlayerSession.row
}.

Record seqs := {
  players_id_seq : Z;
  player_sessions_id_seq : Z
}.

Record db := { tables : data; serials : seqs }.

Definition with_players (l : list Player.row) (t : data) : data :=
  {| players := l; player_sessions := player_sessions t |}.

Definition with_player_sessions (l : list PlayerSession.row) (t : data) : data :=
  {| players := players t; player_sessions := l |}.

Definition with_player_sessions_id_seq (n : Z) (s : seqs) : seqs :=
  {| players_id_seq := players_id_seq s; player_sessions_id_seq := n |}.

(** initializeDatabase: every table is created if absent, none dropped. *)
Definition initializeDatabase (o : option db) : db :=
  match o with
  | None => {| tables := {| players := []; player_sessions := [] |};
               serials := {| players_id_seq := 1; player_sessions_id_seq := 1 |} |}
  | Some d => d
  end.

(** FROM player_sessions WHERE player_id = $1 *)
Definition sessions_of (p : Z) (l : list PlayerSession.row)
  : list PlayerSession.row :=
  filter (fun r => PlayerSession.player_id r =? p) l.

(** SET total_points_scored = total_points_scored + $1,
    total_saves = total_saves + $2, mvp_awards_count = mvp_awards_count + $3,
    sessions_attended_count = sessions_attended_count + 1,
    updated_at = CURRENT_TIMESTAMP *)
Definition incremented (now : Z) (pt sv : option Z) (mv : Z) (q : Player.row)
  : result Player.row :=
  (tp <- int4pl (Player.total_points_scored q) pt;;
   ts <- int4pl (Player.total_saves q) sv;;
   ma <- int4pl (Player.mvp_awards_count q) (Some mv);;
   sa <- int4pl (Player.sessions_attended_count q) (Some 1);;
   Ok (Player.set_counters now
         {| Player.c_total_points_scored := tp;
            Player.c_total_saves := ts;
            Player.c_mvp_awards_count := ma;
            Player.c_sessions_attended_count := sa |} q))%result.

Fixpoint increment_where (now : Z) (pt sv : option Z) (mv p : Z)
  (l : list Player.row) : result (list Player.row) :=
  match l with
  | [] => Ok []
  | q :: l' =>
      (q' <- (if Player.id q =? p then incremented now pt sv mv q else Ok q);;
       r <- increment_where now pt sv mv p l';;
       Ok (q' :: r))%result
  end.

(** UPDATE players SET ... WHERE id = $4, with the parameters
    [points_scored, saves, mvp_award ? 1 : 0, player_id] *)
Definition update_player_stats (now : Z) (points saves : option Z) (mv : Z)
  (player_id : option Z) : statement data seqs Z :=
  fun t s =>
    match (pt <- int4in_opt points;; sv <- int4in_opt saves;; m <- int4in mv;;
           p <- int4in_opt player_id;; Ok (pt, sv, m, p))%result with
    | Err e => (Err e, t, s)
    | Ok (_, _, _, None) => (Ok 0, t, s)
    | Ok (pt, sv, m, Some p) =>
        match increment_where now pt sv m p (players t) with
        | Err e => (Err e, t, s)
        | Ok l =>
            (Ok (sql_count (filter (fun q => Player.id q =? p) (players t))),
             with_players l t, s)
        end
    end.

(** The routes the earlier revision registers, in its order. *)
Definition routes : list route :=
  [ (GET, "/api/health"); (GET, "/api/players-list"); (GET, "/api/players");
    (GET, "/api/players/:id"); (POST, "/api/players");
    (PUT, "/api/players/:id"); (DELETE, "/api/players/:id");
    (POST, "/api/sessions"); (GET, "/api/dashboard");
    (GET, "/api/players/:id/sessions");
    (GET, "/api/check-player-id/:player_id"); (POST, "/api/repair-database");
    (GET, "/"); (GET, "/players-list"); (GET, "/add-player");
    (GET, "/edit-player"); (GET, "/add-session") ].

(** app.post('/api/players') on the earlier store *)
Definition post_api_players (now : Z) (b : PlayerBody.t) (d : db) : reply * db :=
  let '(rep, l, n) :=
    Directory.post_api_players now b (players (tables d))
      (players_id_seq (serials d)) in
  (rep, {| tables := with_players l (tables d);
           serials := {| players_id_seq := n;
                         player_sessions_id_seq :=
                           player_sessions_id_seq (serials d) |} |}).

(** app.post('/api/repair-database'): ALTER TABLE players ADD COLUMN IF
    NOT EXISTS age INTEGER, on a table that has the column. *)
Definition post_api_repair_database (d : db) : reply * db :=
  (Json 200 (message_ "Database repaired successfully"), d).

Section Dates.

Variable date_in : string -> option Z.

(** INSERT INTO player_sessions (player_id, session_date, points_scored,
    saves, mvp_award) VALUES ($1 .. $5), with the parameters as the body
    has them: an absent member is bound as NULL, and no default applies to
    a column the statement names. *)
Definition insert_into_player_sessions (now : Z) (player_id : option Z)
  (session_date : option string) (points saves : option Z)
  (mvp : option bool) : statement data seqs unit :=
  fun t s =>
    match (p <- int4in_opt player_id;; day <- Later.date_opt date_in session_date;;
           pt <- int4in_opt points;; sv <- int4in_opt saves;;
           Ok (p, day, pt, sv))%result with
    | Err e => (Err e, t, s)
    | Ok (p, day, pt, sv) =>
        let (new_id, n) := nextval (player_sessions_id_seq s) in
        let s' := with_player_sessions_id_seq n s in
        match (p' <- not_null "player_sessions" "player_id" p;;
               day' <- not_null "player_sessions" "session_date" day;;
               Ok (p', day'))%result with
        | Err e => (Err e, t, s')
        | Ok (p', day') =>
            if existsb (fun r => PlayerSession.id r =? new_id)
                       (player_sessions t)
            then (Err (unique_violation "player_sessions_pkey"), t, s')
            else if negb (player_exists p' (players t))
            then (Err (foreign_key_violation "player_sessions"
                         "player_sessions_player_id_fkey"), t, s')
            else (Ok tt,
                  with_player_sessions
                    (player_sessions t
                     ++ [{| PlayerSession.id := new_id;
                            PlayerSession.player_id := p';
                            PlayerSession.session_date := day';
                            PlayerSession.points_scored := pt;
                            PlayerSession.saves := sv;
                            PlayerSession.mvp_award := mvp;
                            PlayerSession.attendance_status := Some "Present";
                            PlayerSession.created_at := now |}]) t,
                  s')
        end
    end.

(** app.post('/api/sessions'), on the connection it acquires *)
Definition sessions_handler (now : Z) (b : SessionBody.t)
  : client data seqs -> reply * client data seqs :=
  fun c =>
    if negb (truthy_number (SessionBody.player_id b))
       || negb (truthy_string (SessionBody.session_date b))
    then (Json 400 (error_ "Player ID and Session Date are required"), c)
    else
      settle
        ((connect (T:=data) (S:=seqs) >>
          finally
            (try_catch
               (query (@BEGIN data seqs) >>
                query (execute
                         (insert_into_player_sessions now
                            (SessionBody.player_id b)
                            (SessionBody.session_date b)
                            (SessionBody.points_scored b)
                            (SessionBody.saves b)
                            (SessionBody.mvp_award b))) >>
                query (execute
                         (update_player_stats now
                            (SessionBody.points_scored b)
                            (SessionBody.saves b)
                            (if truthy_bool (SessionBody.mvp_award b)
                             then 1 else 0)
                            (SessionBody.player_id b))) >>
                query (@COMMIT data seqs) >>
                aret (Json 200
                        (message_ "Session statistics added successfully")))
               (fun err =>
                  query (@ROLLBACK data seqs) >>
                  aret (Json 500 (error_ (message err)))))
            (@release data seqs))%action c).

Definition post_api_sessions (now : Z) (b : SessionBody.t)
  (fs : list (option pg_error)) (d : db) : reply * db :=
  let (rep, c) := sessions_handler now b (fresh (tables d) (serials d) fs) in
  (rep, {| tables := committed c; serials := serial c |}).

End Dates.

(** *** Reading handlers *)

(** SELECT * FROM player_sessions WHERE player_id = $1
    ORDER BY session_date DESC, the key read as an INTEGER *)
Definition select_player_sessions (key : Z) (t : data)
  : result (list PlayerSession.row) :=
  (k <- int4in key;;
   Ok (order_by (fun a b => PlayerSession.session_date b
                            <=? PlayerSession.session_date a)
                (sessions_of k (player_sessions t))))%result.

(** app.get('/api/players/:id/sessions'), answering { sessions } *)
Definition get_api_players_id_sessions (key : Z) (c : call db)
  : answer (list PlayerSession.row) :=
  match pool_query c (fun d => select_player_sessions key (tables d)) with
  | Ok rows => Sent rows
  | Err err => Refused 500 (message err)
  end.

(** SELECT COUNT( * ) as total_players FROM players *)
Definition total_players (d : db) : Z := sql_count (players (tables d)).

(** SELECT COUNT( * ) as total_sessions FROM player_sessions *)
Definition total_sessions (d : db) : Z := sql_count (player_sessions (tables d)).

(** SELECT COALESCE(SUM(total_points_scored), 0) as total_points FROM players *)
Definition total_points (d : db) : Z :=
  coalesce (sql_sum (map Player.total_points_scored (players (tables d)))) 0.

Module Stats.
(** The object GET /api/dashboard answers with.  A COUNT or SUM arrives
    as text and is read back with parseInt. *)
Record t := {
  total_players : Z;
  total_sessions : Z;
  total_points : Z;
  top_mvps : list TopMvp.row;
  recent_players : list RecentPlayer.row
}.
End Stats.

(** app.get('/api/dashboard'): five statements, one after the other; [w k]
    is what the call number [k] meets. *)
Definition get_api_dashboard (w : nat -> call db) : answer Stats.t :=
  match (tp <- pool_query (w 0%nat) (fun d => Ok (total_players d));;
         ts <- pool_query (w 1%nat) (fun d => Ok (total_sessions d));;
         pts <- pool_query (w 2%nat) (fun d => Ok (total_points d));;
         top <- pool_query (w 3%nat)
                  (fun d => Ok (PlayerQueries.top_mvps (players (tables d))));;
         rp <- pool_query (w 4%nat)
                 (fun d => Ok (PlayerQueries.recent_players (players (tables d))));;
         Ok {| Stats.total_players := tp; Stats.total_sessions := ts;
               Stats.total_points := pts; Stats.top_mvps := top;
               Stats.recent_players := rp |})%result
  with
  | Ok stats => Sent stats
  | Err _ => Refused 500 "Failed to fetch dashboard stats"
  end.

End Earlier.

(** * The dashboard page

    The script the browser runs on the landing page, in its two
    revisions: [public/app.js], and the later one that also shows the
    recent players and sessions.  Both read the dashboard and the roster
    from the service and write them into the elements of the page.

    A body is of the shape the service sends it; a JSON number is an
    integer.  console.log is left out. *)

(** ** The dashboard object, member by member

    res.json(stats) sends the object [stats] with the members the
    handler has assigned to it, each under its name, and a page reads a
    member by its name.  The values are those of the members the two
    dashboards have and of the one more the first page asks for. *)

Inductive member : Type :=
| count_ (n : Z)
| mvps_ (l : list TopMvp.row)
| recent_players_ (l : list RecentPlayer.row)
| recent_sessions_ (l : list Later.RecentSession.row)
| attendance_ (total_sessions avg_attendance : option Z).

Definition dashboard_object : Type := list (string * member).

(** [stats.name]: the member of that name, if the object has one *)
Definition get_member (name : string) (o : dashboard_object) : option member :=
  option_map snd (find (fun m => String.eqb (fst m) name) o).

(** The object of the later revision: [stats.total_players = ..], and so
    on, in the order of the assignments. *)
Definition later_dashboard (s : Later.Stats.t) : dashboard_object :=
  [ ("total_players", count_ (Later.Stats.total_players s));
    ("total_sessions", count_ (Later.Stats.total_sessions s));
    ("total_mvps", count_ (Later.Stats.total_mvps s));
    ("top_mvps", mvps_ (Later.Stats.top_mvps s));
    ("recent_players", recent_players_ (Later.Stats.recent_players s));
    ("recent_sessions", recent_sessions_ (Later.Stats.recent_sessions s)) ].

(** The object of the earlier revision. *)
Definition earlier_dashboard (s : Earlier.Stats.t) : dashboard_object :=
  [ ("total_players", count_ (Earlier.Stats.total_players s));
    ("total_sessions", count_ (Earlier.Stats.total_sessions s));
    ("total_points", count_ (Earlier.Stats.total_points s));
    ("top_mvps", mvps_ (Earlier.Stats.top_mvps s));
    ("recent_players", recent_players_ (Earlier.Stats.recent_players s)) ].

Definition nl : string := String (ascii_of_nat 10) EmptyString.

(** [${n || 0}], [n] a number or undefined *)
Definition number_or_zero (n : option Z) : string := decimal (Later.or_zero n).

(** [${x}] for a column that is an INTEGER or NULL *)
Definition nullable_number (o : option Z) : string :=
  match o with
  | Some z => decimal z
  | None => "null"
  end.

(** [x === 1] *)
Definition is_one (o : option Z) : bool :=
  match o with
  | Some z => z =? 1
  | None => false
  end.

(** String.prototype.toLowerCase, on the letters A to Z. *)
Definition lower (c : ascii) : ascii :=
  let n := nat_of_ascii c in
  if Nat.leb 65 n && Nat.leb n 90 then ascii_of_nat (n + 32) else c.

Fixpoint toLowerCase (s : string) : string :=
  match s with
  | EmptyString => EmptyString
  | String c r => String (lower c) (toLowerCase r)
  end.

(** array.join('') *)
Definition join (l : list string) : string := String.concat "" l.

(** array.map(f), [f] throwing where it gives [None]: the exception of
    the first element that throws ends the map. *)
Fixpoint map_or_throw {A B : Type} (f : A -> option B) (l : list A)
  : option (list B) :=
  match l with
  | [] => Some []
  | a :: l' =>
      match f a with
      | None => None
      | Some b => option_map (cons b) (map_or_throw f l')
      end
  end.

(** What fetch(url) settles to: a rejection, or a response with its
    status and, in [body], what response.json() resolves to ([None]
    when it rejects, the body not being JSON). *)
Inductive fetched (A : Type) : Type :=
| NetworkError
| Response (status : Z) (body : option A).

Arguments NetworkError {A}.
Arguments Response {A} status body.

(** response.ok *)
Definition ok (status : Z) : bool := (200 <=? status) && (status <=? 299).

(** fetchData(endpoint): null on a rejection, on a status that is not
    ok, and on a body that is not JSON. *)
Definition fetchData {A : Type} (r : fetched A) : option A :=
  match r with
  | NetworkError => None
  | Response status body => if ok status then body else None
  end.


(** The elements of the page that have an id, each with its innerHTML;
    [None] where getElementById gives null. *)
Definition document : Type := string -> option string.

(** const el = document.getElementById(id); if (el) { el.innerHTML = html } *)
Definition set_innerHTML (id html : string) (doc : document) : document :=
  fun i =>
    if String.eqb i id
    then match doc i with
         | Some _ => Some html
         | None => None
         end
    else doc i.

(** How a call of loadDashboard ends: the page it leaves, the endpoints
    it asked for, and whether it returned ([false]: it threw). *)
Record loaded := {
  page : document;
  requests : list string;
  returned : bool
}.

Definition cannot_connect : string :=
  "Cannot connect to server. Please make sure the server is running.".

Module Page.

Definition error_box (message : string) : string :=
  (nl
    ++ "            <div class=" ++ quoted "error-message" ++ ">" ++ nl
    ++ "                <h2>⚠️ Connection Error</h2>" ++ nl
    ++ "                <p>" ++ message ++ "</p>" ++ nl
    ++ "                <button onclick=" ++ quoted "location.reload()" ++ " class=" ++ quoted "btn btn-primary" ++ ">Try Again</button>" ++ nl
    ++ "            </div>" ++ nl
    ++ "        ")%string.

(** showError(message) *)
Definition showError (message : string) (doc : document) : document :=
  set_innerHTML "app" (error_box message) doc.

Definition stat_cards (stats : Later.Stats.t) : string :=
  (nl
    ++ "            <div class=" ++ quoted "stat-card" ++ ">" ++ nl
    ++ "                <div class=" ++ quoted "stat-icon" ++ ">👥</div>" ++ nl
    ++ "                <h3>Total Players</h3>" ++ nl
    ++ "                <p class=" ++ quoted "stat-number" ++ ">" ++ number_or_zero (Some (Later.Stats.total_players stats)) ++ "</p>" ++ nl
    ++ "                <p class=" ++ quoted "stat-description" ++ ">Registered in system</p>" ++ nl
    ++ "            </div>" ++ nl
    ++ "            <div class=" ++ quoted "stat-card" ++ ">" ++ nl
    ++ "                <div class=" ++ quoted "stat-icon" ++ ">🏐</div>" ++ nl
    ++ "                <h3>Total Sessions</h3>" ++ nl
    ++ "                <p class=" ++ quoted "stat-number" ++ ">" ++ number_or_zero (Some (Later.Stats.total_sessions stats)) ++ "</p>" ++ nl
    ++ "                <p class=" ++ quoted "stat-description" ++ ">Games recorded</p>" ++ nl
    ++ "            </div>" ++ nl
    ++ "            <div class=" ++ quoted "stat-card" ++ ">" ++ nl
    ++ "                <div class=" ++ quoted "stat-icon" ++ ">⭐</div>" ++ nl
    ++ "                <h3>MVP Awards</h3>" ++ nl
    ++ "                <p class=" ++ quoted "stat-number" ++ ">" ++ number_or_zero (Some (Later.Stats.total_mvps stats)) ++ "</p>" ++ nl
    ++ "                <p class=" ++ quoted "stat-description" ++ ">Total awards given</p>" ++ nl
    ++ "            </div>" ++ nl
    ++ "        ")%string.

Definition mvp_item (player : TopMvp.row) : string :=
  (nl
    ++ "                <div class=" ++ quoted "mvp-item" ++ ">" ++ nl
    ++ "                    <span class=" ++ quoted "player-name" ++ ">" ++ TopMvp.full_name player ++ "</span>" ++ nl
    ++ "                    <span class=" ++ quoted "mvp-count" ++ ">" ++ nullable_number (TopMvp.mvp_awards_count player) ++ " MVP" ++ (if is_one (TopMvp.mvp_awards_count player) then "" else "s") ++ "</span>" ++ nl
    ++ "                </div>" ++ nl
    ++ "            ")%string.

Definition top_mvps (stats : Later.Stats.t) : string :=
  match Later.Stats.top_mvps stats with
  | [] => ("<div class=" ++ quoted "no-data" ++ ">No MVP awards yet</div>")%string
  | l => join (map mvp_item l)
  end.

(** The player card; it throws on a player whose [skill_level] is null,
    which has no toLowerCase. *)
Definition player_card (row : PlayerStats.row) : option string :=
  let player := PlayerStats.player row in
  match Player.skill_level player with
  | None => None
  | Some skill_level =>
      Some
        (nl
        ++ "                <div class=" ++ quoted "player-card" ++ ">" ++ nl
        ++ "                    <div class=" ++ quoted "player-header" ++ ">" ++ nl
        ++ "                        <h3>" ++ Player.full_name player ++ "</h3>" ++ nl
        ++ "                        <span class=" ++ dquote ++ "skill-badge " ++ toLowerCase skill_level ++ dquote ++ ">" ++ nl
        ++ "                            " ++ skill_level ++ nl
        ++ "                        </span>" ++ nl
        ++ "                    </div>" ++ nl
        ++ "                    <div class=" ++ quoted "player-stats" ++ ">" ++ nl
        ++ "                        <div class=" ++ quoted "stat" ++ ">" ++ nl
        ++ "                            <span>MVP Awards:</span>" ++ nl
        ++ "                            <strong>" ++ nullable_number (Player.mvp_awards_count player) ++ "</strong>" ++ nl
        ++ "                        </div>" ++ nl
        ++ "                        <div class=" ++ quoted "stat" ++ ">" ++ nl
        ++ "                            <span>Sessions:</span>" ++ nl
        ++ "                            <strong>" ++ nullable_number (Player.sessions_attended_count player) ++ "</strong>" ++ nl
        ++ "                        </div>" ++ nl
        ++ "                        <div class=" ++ quoted "stat" ++ ">" ++ nl
        ++ "                            <span>Points:</span>" ++ nl
        ++ "                            <strong>" ++ nullable_number (Player.total_points_scored player) ++ "</strong>" ++ nl
        ++ "                        </div>" ++ nl
        ++ "                        <div class=" ++ quoted "stat" ++ ">" ++ nl
        ++ "                            <span>Saves:</span>" ++ nl
        ++ "                            <strong>" ++ nullable_number (Player.total_saves player) ++ "</strong>" ++ nl
        ++ "                        </div>" ++ nl
        ++ "                    </div>" ++ nl
        ++ "                    <div class=" ++ quoted "player-actions" ++ ">" ++ nl
        ++ "                        <button onclick=" ++ dquote ++ "viewPlayer(" ++ decimal (Player.id player) ++ ")" ++ dquote ++ " class=" ++ quoted "btn btn-primary" ++ ">" ++ nl
        ++ "                            View Profile" ++ nl
        ++ "                        </button>" ++ nl
        ++ "                    </div>" ++ nl
        ++ "                </div>" ++ nl
        ++ "            ")%string
  end.

Definition no_players : string :=
  (nl
    ++ "                <div class=" ++ quoted "no-players-message" ++ ">" ++ nl
    ++ "                    <p>No players found in the system.</p>" ++ nl
    ++ "                    <a href=" ++ quoted "/add-player" ++ " class=" ++ quoted "btn btn-primary" ++ ">Add Your First Player</a>" ++ nl
    ++ "                </div>" ++ nl
    ++ "            ")%string.

Section Dates.

(** toLocaleDateString of the Date made from a timestamp, and from a
    date, as the browser's locale and time zone have it. *)
Variable time_text : Z -> string.
Variable date_text : Z -> string.

Definition recent_player_item (player : RecentPlayer.row) : string :=
  (nl
    ++ "                <div class=" ++ quoted "recent-player-item" ++ ">" ++ nl
    ++ "                    <span class=" ++ quoted "player-name" ++ ">" ++ RecentPlayer.full_name player ++ "</span>" ++ nl
    ++ "                    <span class=" ++ quoted "player-id" ++ ">" ++ RecentPlayer.player_id player ++ "</span>" ++ nl
    ++ "                    <span class=" ++ quoted "join-date" ++ ">" ++ time_text (RecentPlayer.created_at player) ++ "</span>" ++ nl
    ++ "                </div>" ++ nl
    ++ "            ")%string.

Definition recent_players (stats : Later.Stats.t) : string :=
  match Later.Stats.recent_players stats with
  | [] => ("<div class=" ++ quoted "no-data" ++ ">No players yet</div>")%string
  | l => join (map recent_player_item l)
  end.

Definition recent_session_item (session : Later.RecentSession.row) : string :=
  (nl
    ++ "                <div class=" ++ quoted "recent-session-item" ++ ">" ++ nl
    ++ "                    <span class=" ++ quoted "session-date" ++ ">" ++ date_text (Later.RecentSession.session_date session) ++ "</span>" ++ nl
    ++ "                    <span class=" ++ quoted "session-added" ++ ">Added: " ++ time_text (Later.RecentSession.created_at session) ++ "</span>" ++ nl
    ++ "                </div>" ++ nl
    ++ "            ")%string.

Definition recent_sessions (stats : Later.Stats.t) : string :=
  match Later.Stats.recent_sessions stats with
  | [] => ("<div class=" ++ quoted "no-data" ++ ">No sessions yet</div>")%string
  | l => join (map recent_session_item l)
  end.

(** loadDashboard(), given what the two requests settle to. *)
Definition loadDashboard (dashboard : fetched Later.Stats.t)
  (players : fetched (list PlayerStats.row)) (doc : document) : loaded :=
  match fetchData dashboard with
  | None =>
      {| page := showError cannot_connect doc;
         requests := ["/api/dashboard"]; returned := true |}
  | Some stats =>
      let doc1 :=
        set_innerHTML "recent-sessions" (recent_sessions stats)
          (set_innerHTML "recent-players" (recent_players stats)
             (set_innerHTML "top-mvps" (top_mvps stats)
                (set_innerHTML "dashboard-stats" (stat_cards stats) doc))) in
      let asked := ["/api/dashboard"; "/api/players"] in
      match fetchData players, doc1 "players-list" with
      | Some [], Some _ =>
          {| page := set_innerHTML "players-list" no_players doc1;
             requests := asked; returned := true |}
      | Some rows, Some _ =>
          match map_or_throw player_card (firstn 6 rows) with
          | Some cards =>
              {| page := set_innerHTML "players-list" (join cards) doc1;
                 requests := asked; returned := true |}
          | None => {| page := doc1; requests := asked; returned := false |}
          end
      | _, _ => {| page := doc1; requests := asked; returned := true |}
      end
  end.

End Dates.

End Page.

Module EarlierPage.

(** The dashboard as [public/app.js] reads it: the members
    [total_players], [attendance_stats] (with its own two members) and
    [top_mvps]. *)
Record attendance := {
  total_sessions : option Z;
  avg_attendance : option Z
}.

Record stats := {
  total_players : Z;
  attendance_stats : option attendance;
  top_mvps : list TopMvp.row
}.

(** The members this page reads of the object it has fetched:
    [stats.total_players], [stats.attendance_stats] and [stats.top_mvps].
    A member the object lacks reads as undefined. *)
Definition read (o : dashboard_object) : stats :=
  {| total_players :=
       match get_member "total_players" o with
       | Some (count_ n) => n
       | _ => 0
       end;
     attendance_stats :=
       match get_member "attendance_stats" o with
       | Some (attendance_ t a) =>
           Some {| total_sessions := t; avg_attendance := a |}
       | _ => None
       end;
     top_mvps :=
       match get_member "top_mvps" o with
       | Some (mvps_ l) => l
       | _ => []
       end |}.

(** The dashboard of either revision of the service, as this page reads
    it. *)
Definition of_earlier (s : Earlier.Stats.t) : stats :=
  {| total_players := Earlier.Stats.total_players s;
     attendance_stats := None;
     top_mvps := Earlier.Stats.top_mvps s |}.

Definition of_later (s : Later.Stats.t) : stats :=
  {| total_players := Later.Stats.total_players s;
     attendance_stats := None;
     top_mvps := Later.Stats.top_mvps s |}.

(** [stats.attendance_stats?.total_sessions] *)
Definition total_sessions_of (a : option attendance) : option Z :=
  match a with
  | Some x => total_sessions x
  | None => None
  end.

(** [n.toFixed(1)], [n] an integer *)
Definition toFixed1 (n : Z) : string := (decimal n ++ ".0")%string.

(** [stats.attendance_stats?.avg_attendance?.toFixed(1)] *)
Definition avg_attendance_text (a : option attendance) : option string :=
  match a with
  | Some x => option_map toFixed1 (avg_attendance x)
  | None => None
  end.

(** [${s || 0}], [s] a text or undefined *)
Definition text_or_zero (s : option string) : string :=
  if truthy_string s then template s else decimal 0.

Definition error_box (message : string) : string :=
  (nl
    ++ "            <div class=" ++ quoted "error-message" ++ ">" ++ nl
    ++ "                <h2>⚠️ Connection Error</h2>" ++ nl
    ++ "                <p>" ++ message ++ "</p>" ++ nl
    ++ "                <button onclick=" ++ quoted "location.reload()" ++ " class=" ++ quoted "btn btn-primary" ++ ">Try Again</button>" ++ nl
    ++ "            </div>" ++ nl
    ++ "        ")%string.

(** showError(message) *)
Definition showError (message : string) (doc : document) : document :=
  set_innerHTML "app" (error_box message) doc.

(** The three cards, given the texts of their numbers. *)
Definition cards (players sessions attendance : string) : string :=
  (nl
    ++ "            <div class=" ++ quoted "stat-card" ++ ">" ++ nl
    ++ "                <h3>Total Players</h3>" ++ nl
    ++ "                <p class=" ++ quoted "stat-number" ++ ">" ++ players ++ "</p>" ++ nl
    ++ "            </div>" ++ nl
    ++ "            <div class=" ++ quoted "stat-card" ++ ">" ++ nl
    ++ "                <h3>Total Sessions</h3>" ++ nl
    ++ "                <p class=" ++ quoted "stat-number" ++ ">" ++ sessions ++ "</p>" ++ nl
    ++ "            </div>" ++ nl
    ++ "            <div class=" ++ quoted "stat-card" ++ ">" ++ nl
    ++ "                <h3>Avg Attendance</h3>" ++ nl
    ++ "                <p class=" ++ quoted "stat-number" ++ ">" ++ attendance ++ "</p>" ++ nl
    ++ "            </div>" ++ nl
    ++ "        ")%string.

Definition stat_cards (stats : stats) : string :=
  cards (number_or_zero (Some (total_players stats)))
        (number_or_zero (total_sessions_of (attendance_stats stats)))
        (text_or_zero (avg_attendance_text (attendance_stats stats))).

Definition mvp_item (player : TopMvp.row) : string :=
  (nl
    ++ "                <div class=" ++ quoted "mvp-item" ++ ">" ++ nl
    ++ "                    <span>" ++ TopMvp.full_name player ++ "</span>" ++ nl
    ++ "                    <span class=" ++ quoted "mvp-count" ++ ">" ++ nullable_number (TopMvp.mvp_awards_count player) ++ " MVPs</span>" ++ nl
    ++ "                </div>" ++ nl
    ++ "            ")%string.

Definition top_mvps_html (stats : stats) : string :=
  match top_mvps stats with
  | [] => ("<p>No MVP data available yet</p>")%string
  | l => join (map mvp_item l)
  end.

(** The player card; it throws on a player whose [skill_level] is null. *)
Definition player_card (row : PlayerStats.row) : option string :=
  let player := PlayerStats.player row in
  match Player.skill_level player with
  | None => None
  | Some skill_level =>
      Some
        (nl
        ++ "                <div class=" ++ quoted "player-card" ++ ">" ++ nl
        ++ "                    <div class=" ++ quoted "player-header" ++ ">" ++ nl
        ++ "                        <h3>" ++ Player.full_name player ++ "</h3>" ++ nl
        ++ "                        <span class=" ++ dquote ++ "skill-badge " ++ toLowerCase skill_level ++ dquote ++ ">" ++ nl
        ++ "                            " ++ skill_level ++ nl
        ++ "                        </span>" ++ nl
        ++ "                    </div>" ++ nl
        ++ "                    <div class=" ++ quoted "player-stats" ++ ">" ++ nl
        ++ "                        <div class=" ++ quoted "stat" ++ ">" ++ nl
        ++ "                            <span>MVP Awards:</span>" ++ nl
        ++ "                            <strong>" ++ nullable_number (Player.mvp_awards_count player) ++ "</strong>" ++ nl
        ++ "                        </div>" ++ nl
        ++ "                        <div class=" ++ quoted "stat" ++ ">" ++ nl
        ++ "                            <span>Sessions:</span>" ++ nl
        ++ "                            <strong>" ++ nullable_number (Player.sessions_attended_count player) ++ "</strong>" ++ nl
        ++ "                        </div>" ++ nl
        ++ "                        <div class=" ++ quoted "stat" ++ ">" ++ nl
        ++ "                            <span>Points:</span>" ++ nl
        ++ "                            <strong>" ++ nullable_number (Player.total_points_scored player) ++ "</strong>" ++ nl
        ++ "                        </div>" ++ nl
        ++ "                    </div>" ++ nl
        ++ "                    <div class=" ++ quoted "player-actions" ++ ">" ++ nl
        ++ "                        <button onclick=" ++ dquote ++ "viewPlayer(" ++ decimal (Player.id player) ++ ")" ++ dquote ++ " class=" ++ quoted "btn btn-primary" ++ ">" ++ nl
        ++ "                            View Profile" ++ nl
        ++ "                        </button>" ++ nl
        ++ "                    </div>" ++ nl
        ++ "                </div>" ++ nl
        ++ "            ")%string
  end.

Definition no_players : string :=
  ("<p>No players found. <a href=" ++ quoted "/add-player" ++ ">Add your first player!</a></p>")%string.

(** loadDashboard(), given what the two requests settle to. *)
Definition loadDashboard (dashboard : fetched stats)
  (players : fetched (list PlayerStats.row)) (doc : document) : loaded :=
  match fetchData dashboard with
  | None =>
      {| page := showError cannot_connect doc;
         requests := ["/api/dashboard"]; returned := true |}
  | Some stats =>
      let doc1 :=
        set_innerHTML "top-mvps" (top_mvps_html stats)
          (set_innerHTML "dashboard-stats" (stat_cards stats) doc) in
      let asked := ["/api/dashboard"; "/api/players"] in
      match fetchData players, doc1 "players-list" with
      | Some [], Some _ =>
          {| page := set_innerHTML "players-list" no_players doc1;
             requests := asked; returned := true |}
      | Some rows, Some _ =>
          match map_or_throw player_card (firstn 6 rows) with
          | Some cards =>
              {| page := set_innerHTML "players-list" (join cards) doc1;
                 requests := asked; returned := true |}
          | None => {| page := doc1; requests := asked; returned := false |}
          end
      | _, _ => {| page := doc1; requests := asked; returned := true |}
      end
  end.

End EarlierPage.

(** * The properties of the specification, in its own terms *)

(** The interface as the specification lists it (its section 6). *)
Definition specified_interface : list route :=
  [ (GET, "/api/health"); (GET, "/api/players-list"); (GET, "/api/players");
    (GET, "/api/players/:id"); (POST, "/api/players");
    (PUT, "/api/players/:id"); (DELETE, "/api/players/:id");
    (GET, "/api/sessions"); (POST, "/api/sessions");
    (POST, "/api/player-sessions"); (GET, "/api/players/:id/sessions");
    (GET, "/api/sessions/:id/players"); (GET, "/api/dashboard");
    (GET, "/api/check-player-id/:id") ].


Definition sum_Z (l : list Z) : Z := fold_right Z.add 0 l.

(** A NULL statistic counts for nothing. *)
Definition stat (o : option Z) : Z := coalesce o 0.

Module Ledger.

(** The aggregates over the facts of player [p]: sum of points, sum of
    saves, number of facts with the MVP flag, number of facts. *)
Definition aggregates (p : Z) (l : list Later.PlayerSession.row) : Player.counters :=
  {| Player.c_total_points_scored :=
       Some (sum_Z (map (fun r => stat (Later.PlayerSession.points_scored r))
                        (Later.sessions_of p l)));
     Player.c_total_saves :=
       Some (sum_Z (map (fun r => stat (Later.PlayerSession.saves r))
                        (Later.sessions_of p l)));
     Player.c_mvp_awards_count :=
       Some (Z.of_nat (List.length
               (filter (fun r => is_true (Later.PlayerSession.mvp_award r))
                       (Later.sessions_of p l))));
     Player.c_sessions_attended_count :=
       Some (Z.of_nat (List.length (Later.sessions_of p l))) |}.

(** The stored counters of player [p] are the aggregates over its facts. *)
Definition counters_agree (p : Z) (t : Later.data) : Prop :=
  forall q, In q (Later.players t) -> Player.id q = p ->
    Player.counters_of q = aggregates p (Later.player_sessions t).

(** Player [p] is stored with counters that are not the aggregates. *)
Definition counters_drift (p : Z) (t : Later.data) : Prop :=
  exists q, In q (Later.players t) /\ Player.id q = p /\
    Player.counters_of q <> aggregates p (Later.player_sessions t).

(** What the two sides of that equality read of a store: the counters
    stored under the key [p], and the facts of [p]. *)
Definition counters_at (p : Z) (t : Later.data) : list Player.counters :=
  map Player.counters_of (filter (fun q => Player.id q =? p) (Later.players t)).

Definition facts_at (p : Z) (t : Later.data) : list Later.PlayerSession.row :=
  Later.sessions_of p (Later.player_sessions t).

(** The constraints of the schema on the rows: keys of players are
    distinct, a fact references a stored player, and no pair (player,
    session) has two facts. *)
Definition keys_distinct (t : Later.data) : Prop :=
  NoDup (map Player.id (Later.players t)).

Definition facts_reference_players (t : Later.data) : Prop :=
  forall r, In r (Later.player_sessions t) ->
    player_exists (Later.PlayerSession.player_id r) (Later.players t) = true.

Definition pairs_distinct (l : list Later.PlayerSession.row) : Prop :=
  forall p se, (List.length (filter (Later.same_pair p se) l) <= 1)%nat.

(** The Session Ledger invariant: the constraints hold and every player's
    counters are the aggregates over its facts. *)
Definition invariant (t : Later.data) : Prop :=
  keys_distinct t /\ facts_reference_players t /\
  forall p, counters_agree p t.

(** SUM(mvp_awards_count) over the players, a NULL counting for nothing *)
Definition sum_mvp_counters (d : Later.db) : Z :=
  sum_Z (map (fun q => stat (Player.mvp_awards_count q))
             (Later.players (Later.tables d))).

Definition is_stats_for (p : Z) (r : Later.request) : Prop :=
  match r with
  | Later.POST_player_sessions b _ => Later.StatsBody.player_id b = Some p
  | _ => False
  end.

Definition is_repair (r : Later.request) : Prop :=
  match r with
  | Later.POST_repair_database => True
  | _ => False
  end.

Definition succeeded (rep : reply) : Prop := status_of rep = Some 200.

(** A request that is neither a recording for player [p] nor the
    deletion of [p]. *)
Definition not_about (p : Z) (r : Later.request) : Prop :=
  match r with
  | Later.POST_player_sessions b _ => Later.StatsBody.player_id b <> Some p
  | Later.DELETE_players key => key <> p
  | _ => True
  end.

(** A request that is neither a recording for player [p], nor the
    deletion of [p], nor a repair. *)
Definition leaves_alone (p : Z) (r : Later.request) : Prop :=
  match r with
  | Later.POST_player_sessions b _ => Later.StatsBody.player_id b <> Some p
  | Later.DELETE_players key => key <> p
  | Later.POST_repair_database => False
  | _ => True
  end.

End Ledger.

Module Schema.

(** UNIQUE(player_id, session_id) is a constraint on this pair. *)
Definition pair_of (r : Later.PlayerSession.row) : Z * Z :=
  (Later.PlayerSession.player_id r, Later.PlayerSession.session_id r).

(** The constraints the DDL of the later revision declares, each under
    the name the store gives it. *)
Record sound (t : Later.data) : Prop := {
  players_pkey : NoDup (map Player.id (Later.players t));
  players_player_id_key : NoDup (map Player.player_id (Later.players t));
  sessions_pkey : NoDup (map Later.Session.id (Later.sessions t));
  sessions_session_date_key :
    NoDup (map Later.Session.session_date (Later.sessions t));
  player_sessions_pkey :
    NoDup (map Later.PlayerSession.id (Later.player_sessions t));
  player_sessions_player_id_session_id_key :
    NoDup (map pair_of (Later.player_sessions t));
  player_sessions_player_id_fkey :
    forall r, In r (Later.player_sessions t) ->
      player_exists (Later.PlayerSession.player_id r) (Later.players t) = true;
  player_sessions_session_id_fkey :
    forall r, In r (Later.player_sessions t) ->
      Later.session_exists (Later.PlayerSession.session_id r) (Later.sessions t)
      = true
}.

(** A list in the order ORDER BY asks for: every row may come before
    every row listed after it. *)
Definition ordered {A : Type} (before : A -> A -> bool) (l : list A) : Prop :=
  forall i j a b, (i < j)%nat -> nth_error l i = Some a ->
    nth_error l j = Some b -> before a b = true.

(** An order ORDER BY can sort by: any two values compare, and the
    comparison is transitive. *)
Definition is_order {K : Type} (le : K -> K -> bool) : Prop :=
  (forall a b, le a b = true \/ le b a = true) /\
  (forall a b c, le a b = true -> le b c = true -> le a c = true).

End Schema.

Module EarlierLedger.

(** The aggregates over the facts of player [p] in the earlier store. *)
Definition aggregates (p : Z) (l : list Earlier.PlayerSession.row)
  : Player.counters :=
  {| Player.c_total_points_scored :=
       Some (sum_Z (map (fun r => stat (Earlier.PlayerSession.points_scored r))
                        (Earlier.sessions_of p l)));
     Player.c_total_saves :=
       Some (sum_Z (map (fun r => stat (Earlier.PlayerSession.saves r))
                        (Earlier.sessions_of p l)));
     Player.c_mvp_awards_count :=
       Some (Z.of_nat (List.length
               (filter (fun r => is_true (Earlier.PlayerSession.mvp_award r))
                       (Earlier.sessions_of p l))));
     Player.c_sessions_attended_count :=
       Some (Z.of_nat (List.length (Earlier.sessions_of p l))) |}.

Definition counters_agree (p : Z) (t : Earlier.data) : Prop :=
  forall q, In q (Earlier.players t) -> Player.id q = p ->
    Player.counters_of q = aggregates p (Earlier.player_sessions t).

End EarlierLedger.

(** [r] hundredths is the quotient [t / n] rounded to two decimal
    places: within half a hundredth of it, and away from zero when the
    quotient lies halfway between two hundredths. *)
Definition nearest_hundredth (t n r : Z) : Prop :=
  2 * Z.abs (100 * t - n * r) <= n /\
  (2 * Z.abs (100 * t - n * r) = n -> Z.abs (100 * t) < n * Z.abs r).

(** The average the roster shows for a counter [total] over [count]
    sessions: the rounded quotient, with two decimals, under a positive
    count, and exactly 0 under a count of 0. *)
Definition average_as_specified (total count : option Z) (avg : option numeric)
  : Prop :=
  (forall t n, total = Some t -> count = Some n -> 0 < n ->
     exists r, avg = Some {| unscaled := r; scale := 2 |} /\
               nearest_hundredth t n r) /\
  (count = Some 0 -> avg = Some (numeric_of_int 0)).

(** * The scenario of the specification, as data *)

Module Scenario.

(** A reading of dates that knows one date: 2024-03-01 is day 19783 of
    the epoch. *)
Definition march_first (s : string) : option Z :=
  if String.eqb s "2024-03-01" then Some 19783 else None.

Definition ann : PlayerBody.t :=
  {| PlayerBody.player_id := Some "P1"; PlayerBody.full_name := Some "Ann";
     PlayerBody.phone_number := None; PlayerBody.instagram_username := None;
     PlayerBody.age := None; PlayerBody.skill_level := None |}.

(** {player: 1, session: [se], points: 10, saves: 2, mvp: true} *)
Definition stats (se : Z) : Later.StatsBody.t :=
  {| Later.StatsBody.player_id := Some 1;
     Later.StatsBody.session_id := Some se;
     Later.StatsBody.points_scored := Some 10;
     Later.StatsBody.saves := Some 2;
     Later.StatsBody.mvp_award := Some true |}.

(** Create the session of 2024-03-01, create Ann, record her statistics. *)
Definition opening : list (Z * Later.request) :=
  [ (1, Later.POST_sessions (Some "2024-03-01"));
    (2, Later.POST_players ann);
    (3, Later.POST_player_sessions (stats 1) []) ].

Definition after_opening : Later.db :=
  Eval vm_compute in
    snd (Later.serve_all march_first opening (Later.initializeDatabase None)).

(** The same statistics recorded once more. *)
Definition once_more : list (Z * Later.request) :=
  [ (4, Later.POST_player_sessions (stats 1) []) ].

Definition replies_once_more : list reply :=
  Eval vm_compute in fst (Later.serve_all march_first once_more after_opening).

Definition after_once_more : Later.db :=
  Eval vm_compute in snd (Later.serve_all march_first once_more after_opening).

(** Ann and the session of 2024-03-01, with no statistics yet. *)
Definition before_statistics : Later.db :=
  Eval vm_compute in
    snd (Later.serve_all march_first
           [ (1, Later.POST_sessions (Some "2024-03-01"));
             (2, Later.POST_players ann) ]
           (Later.initializeDatabase None)).

(** {player: 1, session: 1, points: 7, mvp: false}, the saves left out *)
Definition correction : Later.StatsBody.t :=
  {| Later.StatsBody.player_id := Some 1;
     Later.StatsBody.session_id := Some 1;
     Later.StatsBody.points_scored := Some 7;
     Later.StatsBody.saves := None;
     Later.StatsBody.mvp_award := Some false |}.

Definition after_correction : Later.db :=
  Eval vm_compute in
    snd (Later.post_api_player_sessions 4 correction [] after_opening).

(** The same two recordings sent to the earlier revision. *)
Definition earlier_stats (points : Z) : Earlier.SessionBody.t :=
  {| Earlier.SessionBody.player_id := Some 1;
     Earlier.SessionBody.session_date := Some "2024-03-01";
     Earlier.SessionBody.points_scored := Some points;
     Earlier.SessionBody.saves := Some 2;
     Earlier.SessionBody.mvp_award := Some true |}.

Definition earlier_with_ann : Earlier.db :=
  Eval vm_compute in
    snd (Earlier.post_api_players 1 ann (Earlier.initializeDatabase None)).

Definition replies_opening : list reply :=
  Eval vm_compute in
    fst (Later.serve_all march_first opening (Later.initializeDatabase None)).

(** The players of the store after the opening: Ann, under "P1". *)
Definition roster : list Player.row :=
  Eval vm_compute in Later.players (Later.tables after_opening).

(** Requests to create a player under Ann's identifier: one without a
    name, one with a skill tier the table does not know. *)
Definition nameless : PlayerBody.t :=
  {| PlayerBody.player_id := Some "P1"; PlayerBody.full_name := None;
     PlayerBody.phone_number := None; PlayerBody.instagram_username := None;
     PlayerBody.age := None; PlayerBody.skill_level := None |}.

Definition professional : PlayerBody.t :=
  {| PlayerBody.player_id := Some "P1"; PlayerBody.full_name := Some "Bea";
     PlayerBody.phone_number := None; PlayerBody.instagram_username := None;
     PlayerBody.age := None; PlayerBody.skill_level := Some "Pro" |}.

End Scenario.

(** * A season, as data *)

Module Season.

(** A reading of dates that knows two Fridays of March 2024. *)
Definition dates (s : string) : option Z :=
  if String.eqb s "2024-03-01" then Some 19783
  else if String.eqb s "2024-03-08" then Some 19790
  else None.

Definition player (player_id full_name : string) (skill_level : option string)
  : PlayerBody.t :=
  {| PlayerBody.player_id := Some player_id;
     PlayerBody.full_name := Some full_name;
     PlayerBody.phone_number := None; PlayerBody.instagram_username := None;
     PlayerBody.age := None; PlayerBody.skill_level := skill_level |}.

Definition record (p se points saves : Z) (mvp : bool) : Later.StatsBody.t :=
  {| Later.StatsBody.player_id := Some p;
     Later.StatsBody.session_id := Some se;
     Later.StatsBody.points_scored := Some points;
     Later.StatsBody.saves := Some saves;
     Later.StatsBody.mvp_award := Some mvp |}.

(** Two sessions, three players, and four recordings, one of them a
    correction of an earlier one. *)
Definition run : list (Z * Later.request) :=
  [ (1, Later.POST_sessions (Some "2024-03-01"));
    (2, Later.POST_players (player "P1" "Cleo" (Some "Advanced")));
    (3, Later.POST_players (player "P2" "Bea" None));
    (4, Later.POST_players (player "P3" "Ann" (Some "Beginner")));
    (5, Later.POST_sessions (Some "2024-03-08"));
    (6, Later.POST_player_sessions (record 1 1 10 2 true) []);
    (7, Later.POST_player_sessions (record 2 1 4 5 false) []);
    (8, Later.POST_player_sessions (record 1 2 7 1 false) []);
    (9, Later.POST_player_sessions (record 2 1 6 5 true) []) ].

Definition replies : list reply :=
  Eval vm_compute in
    fst (Later.serve_all dates run (Later.initializeDatabase None)).

Definition final : Later.db :=
  Eval vm_compute in
    snd (Later.serve_all dates run (Later.initializeDatabase None)).

(** Cleo, as the store holds her at the end of the run. *)
Definition cleo : Player.row :=
  Eval vm_compute in
    match Later.players (Later.tables final) with
    | p :: _ => p
    | [] => {| Player.id := 0; Player.player_id := ""; Player.full_name := "";
               Player.phone_number := None; Player.instagram_username := None;
               Player.age := None; Player.skill_level := None;
               Player.form_submissions_count := None;
               Player.sessions_attended_count := None;
               Player.mvp_awards_count := None;
               Player.total_points_scored := None;
               Player.total_saves := None;
               Player.created_at := 0; Player.updated_at := 0 |}
    end.

(** The roster of the run, as GET /api/players serves it under the order
    of the code points and quotients of sixteen digits. *)
Definition roster : list PlayerStats.row :=
  Eval vm_compute in
    match Directory.select_with_stats (fun _ _ => 16%nat)
            (Directory.order_by_full_name String.leb
               (Later.players (Later.tables final))) with
    | Ok rs => rs
    | Err _ => []
    end.

(** Cleo is deleted and a player is created anew under her identifier. *)
Definition cleo_again : PlayerBody.t := player "P1" "Cleo" (Some "Advanced").

Definition without_cleo : reply * Later.db :=
  Eval vm_compute in Later.delete_api_players_id 1 final.

(** On an empty store: Cleo is created, deleted, and created anew. *)
Definition first_cleo : reply * Later.db :=
  Eval vm_compute in
    Later.serve dates 2 (Later.POST_players cleo_again)
      (Later.initializeDatabase None).

Definition cleo_gone : list reply * Later.db :=
  Eval vm_compute in
    Later.serve_all dates [(10, Later.DELETE_players 1)] (snd first_cleo).

Definition second_cleo : reply * Later.db :=
  Eval vm_compute in
    Later.serve dates 11 (Later.POST_players cleo_again) (snd cleo_gone).

Definition created_again : reply * list Player.row * Z :=
  Eval vm_compute in
    Directory.post_api_players 11 cleo_again
      (Later.players (Later.tables (snd without_cleo))) 4.

(** The first request of the run, on its own. *)
Definition first_session : reply * Later.db :=
  Eval vm_compute in
    Later.post_api_sessions dates 1 (Some "2024-03-01")
      (Later.initializeDatabase None).

(** Cleo renamed. *)
Definition renamed : reply * list Player.row :=
  Eval vm_compute in
    Directory.put_api_players_id 12 1 (player "P1" "Cleopatra" (Some "Advanced"))
      (Later.players (Later.tables final)).

(** One more recording for Bea, on the second session. *)
Definition one_more : reply * Later.db :=
  Eval vm_compute in
    Later.post_api_player_sessions 13 (record 2 2 3 0 false) [] final.

(** The service is started again after the run; then Cleo is renamed
    and Bea recorded once more. *)
Definition after_restart : list (Z * Later.request) :=
  [ (14, Later.PUT_players 1 (player "P1" "Cleopatra" (Some "Advanced")));
    (15, Later.POST_player_sessions (record 2 2 3 0 false) []) ].

Definition restarted : list reply * Later.db :=
  Eval vm_compute in
    Later.serve_all dates after_restart (Later.initializeDatabase (Some final)).

(** The earlier revision: a recording for Ann on 2024-03-01. *)
Definition earlier_recorded : reply * Earlier.db :=
  Eval vm_compute in
    Earlier.post_api_sessions dates 2 (Scenario.earlier_stats 10) []
      Scenario.earlier_with_ann.

End Season.

(** * The landing page of the season, as data *)

Module Landing.

(** The elements the script looks up, all empty. *)
Definition empty_page : document :=
  fun id =>
    if existsb (String.eqb id)
         ["app"; "dashboard-stats"; "top-mvps"; "recent-players";
          "recent-sessions"; "players-list"]
    then Some ""
    else None.

Definition no_stats : Later.Stats.t :=
  {| Later.Stats.total_players := 0; Later.Stats.total_sessions := 0;
     Later.Stats.total_mvps := 0; Later.Stats.top_mvps := [];
     Later.Stats.recent_players := []; Later.Stats.recent_sessions := [] |}.

Definition dashboard_of (d : Later.db) : Later.Stats.t :=
  match Later.get_api_dashboard (fun _ => Reads d) with
  | Sent stats => stats
  | Refused _ _ => no_stats
  end.

(** The dashboard at the end of the season. *)
Definition dashboard : Later.Stats.t :=
  Eval vm_compute in dashboard_of Season.final.


End Landing.

(** * Proofs *)

(** ** Column types and aggregates *)

Lemma int4_inv (z z' : Z) : int4 z = Ok z' -> z' = z /\ in_int4 z = true.
Proof.
  unfold int4. destruct (in_int4 z); intros H; inversion H; auto.
Qed.

Lemma int4in_inv (z z' : Z) : int4in z = Ok z' -> z' = z /\ in_int4 z = true.
Proof.
  unfold int4in. destruct (in_int4 z); intros H; inversion H; auto.
Qed.

Lemma int4in_ok (z : Z) : in_int4 z = true -> int4in z = Ok z.
Proof. unfold int4in. intros ->. reflexivity. Qed.

Lemma int4in_opt_inv (o o' : option Z) : int4in_opt o = Ok o' -> o' = o.
Proof.
  destruct o as [z|]; simpl.
  - unfold int4in. destruct (in_int4 z); simpl; intros H; inversion H; auto.
  - intros H; inversion H; auto.
Qed.

Lemma int4in_opt_Some (o : option Z) (z : Z) :
  int4in_opt o = Ok (Some z) -> o = Some z /\ in_int4 z = true.
Proof.
  destruct o as [y|]; simpl; [|discriminate].
  unfold int4in. destruct (in_int4 y) eqn:E; simpl; intros H; inversion H.
  subst. auto.
Qed.

Lemma int4in_out (z : Z) :
  in_int4 z = false -> int4in z = Err (out_of_range_for_integer (decimal z)).
Proof. unfold int4in. intros ->. reflexivity. Qed.

(** The parameters of the UPDATE are those of the INSERT and the key. *)
Lemma coerce_update_inv (b c : PlayerBody.t) (key k : Z) :
  coerce_update b key = Ok (c, k) ->
  k = key /\ in_int4 key = true /\ coerce_profile b = Ok c.
Proof.
  unfold coerce_update, coerce_profile, rbind.
  destruct (int4in_opt (PlayerBody.age b)) as [ag|]; [|discriminate].
  destruct (int4in key) as [k'|] eqn:Ek; [|discriminate].
  apply int4in_inv in Ek. destruct Ek as [-> Hk].
  destruct (fit_profile b ag) as [c'|]; [|discriminate].
  intros H; inversion H; subst. auto.
Qed.

Lemma coerce_update_ok (b c : PlayerBody.t) (key : Z) :
  coerce_profile b = Ok c -> in_int4 key = true ->
  coerce_update b key = Ok (c, key).
Proof.
  unfold coerce_update, coerce_profile, rbind. intros H Hk.
  destruct (int4in_opt (PlayerBody.age b)) as [ag|]; [|discriminate].
  rewrite (@int4in_ok _ Hk), H. reflexivity.
Qed.

Lemma coerce_update_out (b c : PlayerBody.t) (key : Z) :
  coerce_profile b = Ok c -> in_int4 key = false ->
  coerce_update b key = Err (out_of_range_for_integer (decimal key)).
Proof.
  unfold coerce_update, coerce_profile, rbind. intros H Hk.
  destruct (int4in_opt (PlayerBody.age b)) as [ag|]; [|discriminate].
  rewrite (@int4in_out _ Hk). reflexivity.
Qed.

Lemma sql_sum_coalesce (l : list (option Z)) :
  coalesce (sql_sum l) 0 = sum_Z (map stat l).
Proof.
  induction l as [|[v|] l IH]; simpl; auto.
  destruct (sql_sum l) as [a|]; unfold stat, coalesce in *; simpl in *; lia.
Qed.

Lemma map_map_stat {A : Type} (f : A -> option Z) (l : list A) :
  map stat (map f l) = map (fun r => stat (f r)) l.
Proof. apply map_map. Qed.

(** ** A transaction of two statements on a fresh connection

    Both revisions record statistics with the same frame: BEGIN, two
    statements, COMMIT, and ROLLBACK in the catch clause. *)

Section Transaction.

Variables T S A B : Type.
Variable st1 : statement T S A.
Variable st2 : statement T S B.
Variable done : reply.

Let frame : action T S reply :=
  (connect (T:=T) (S:=S) >>
   finally
     (try_catch
        (query (@BEGIN T S) >> query (execute st1) >> query (execute st2) >>
         query (@COMMIT T S) >> aret done)
        (fun err =>
           query (@ROLLBACK T S) >> aret (Json 500 (error_ (message err)))))
     (@release T S))%action.

Ltac crunch H :=
  repeat (cbn in H;
          match type of H with
          | context [match ?l with [] => _ | _ :: _ => _ end] =>
              is_var l; destruct l as [|[?|] ?]
          | context [st1 ?a ?b] => destruct (st1 a b) as [[[?|?] ?] ?] eqn:?
          | context [st2 ?a ?b] => destruct (st2 a b) as [[[?|?] ?] ?] eqn:?
          end).

Lemma transaction_outcome (t : T) (s : S) (fs : list (option pg_error))
  (rep : reply) (c : client T S) :
  settle (frame (fresh t s fs)) = (rep, c) ->
  (exists a t1 s1 b t2 s2,
      st1 t s = (Ok a, t1, s1) /\ st2 t1 s1 = (Ok b, t2, s2) /\
      rep = done /\ committed c = t2 /\ serial c = s2 /\ txn c = Idle /\
      seen c = [t; t; t; t2] /\ leased c = false)
  \/ (committed c = t /\ Forall (eq t) (seen c) /\ leased c = false /\
      (rep = NoReply \/
       exists e, rep = Json 500 (error_ (message e)) /\ txn c = Idle)).
Proof.
  unfold frame, settle, abind, finally, try_catch, query, connect, aret, fresh.
  intros H.
  unfold take_fault, observed, abort, execute, BEGIN, COMMIT, ROLLBACK,
    set_txn, set_leased, release in H.
  crunch H.
  all: inversion H; subst; clear H; cbn.
  all: try (right; repeat split; [ repeat constructor | eauto ]; fail).
  all: try (left; do 6 eexists; repeat split; eauto; fail).
Qed.

Hypothesis done_200 : status_of done = Some 200.


End Transaction.

(** ** The later revision: what one recording does *)

Lemma player_exists_In (k : Z) (l : list Player.row) :
  player_exists k l = true <-> exists q, In q l /\ Player.id q = k.
Proof.
  unfold player_exists. rewrite existsb_exists.
  split; intros [q [Hq He]]; exists q; split; auto; lia.
Qed.

Lemma counters_of_set_counters (now : Z) (c : Player.counters) (q : Player.row) :
  Player.counters_of (Player.set_counters now c q) = c.
Proof. destruct c; reflexivity. Qed.

Lemma recomputed_counters_ok (p : Z) (l : list Later.PlayerSession.row)
  (c : Player.counters) :
  Later.recomputed_counters p l = Ok c -> c = Ledger.aggregates p l.
Proof.
  unfold Later.recomputed_counters, Ledger.aggregates, rbind, sql_count.
  rewrite !sql_sum_coalesce, !map_map_stat. simpl coalesce.
  repeat match goal with
         | |- context [int4 ?z] =>
             let E := fresh "E" in
             destruct (int4 z) eqn:E; [apply int4_inv in E; destruct E as [-> _]|]
         end; intros H; inversion H; reflexivity.
Qed.

Lemma upsert_ok (now : Z) (pid sid : option Z) (pts sv : Z) (mvp : bool)
  (t t1 : Later.data) (s s1 : Later.seqs) :
  Later.upsert_player_session now pid sid pts sv mvp t s = (Ok tt, t1, s1) ->
  exists p se,
    pid = Some p /\ sid = Some se /\
    Later.players t1 = Later.players t /\
    Later.sessions t1 = Later.sessions t /\
    ((existsb (Later.same_pair p se) (Later.player_sessions t) = true /\
      Later.player_sessions t1 =
        map (fun r => if Later.same_pair p se r
                      then Later.do_update pts sv mvp r else r)
            (Later.player_sessions t))
     \/
     (existsb (Later.same_pair p se) (Later.player_sessions t) = false /\
      player_exists p (Later.players t) = true /\
      Later.player_sessions t1 =
        Later.player_sessions t
        ++ [Later.new_player_session now (Later.player_sessions_id_seq s)
              p se pts sv mvp])).
Proof.
  unfold Later.upsert_player_session, nextval, rbind.
  destruct (int4in_opt pid) as [p|] eqn:Ep; [|discriminate].
  destruct (int4in_opt sid) as [se|] eqn:Ese; [|discriminate].
  destruct (int4in pts) as [pt|] eqn:Ept; [|discriminate].
  destruct (int4in sv) as [sv'|] eqn:Esv; [|discriminate].
  apply int4in_opt_inv in Ep, Ese. apply int4in_inv in Ept, Esv.
  destruct Ept as [-> _], Esv as [-> _]. subst p se.
  destruct pid as [p|]; simpl; [|discriminate].
  destruct sid as [se|]; simpl; [|discriminate].
  destruct (existsb (Later.same_pair p se) (Later.player_sessions t)) eqn:Ex.
  - intros H; inversion H; subst. exists p, se. simpl. intuition.
  - destruct (existsb (fun r => Later.PlayerSession.id r =? _) _); [discriminate|].
    destruct (player_exists p (Later.players t)) eqn:Epl; simpl; [|discriminate].
    destruct (Later.session_exists se (Later.sessions t)); simpl; [|discriminate].
    intros H; inversion H; subst. exists p, se. simpl. intuition.
Qed.

Lemma upsert_keys (now : Z) (pid sid : option Z) (pts sv : Z) (mvp : bool)
  (t t1 : Later.data) (s s1 : Later.seqs) :
  Later.upsert_player_session now pid sid pts sv mvp t s = (Ok tt, t1, s1) ->
  exists p se,
    pid = Some p /\ sid = Some se /\ in_int4 p = true /\ in_int4 se = true.
Proof.
  unfold Later.upsert_player_session, nextval, rbind.
  destruct (int4in_opt pid) as [[p|]|] eqn:Ep; try discriminate.
  - destruct (int4in_opt sid) as [[se|]|] eqn:Ese; try discriminate.
    + apply int4in_opt_Some in Ep, Ese. intros _. exists p, se. tauto.
    + destruct (int4in pts); [|discriminate]. destruct (int4in sv); discriminate.
  - destruct (int4in_opt sid) as [se|]; [|discriminate].
    destruct (int4in pts); [|discriminate]. destruct (int4in sv); discriminate.
Qed.

Lemma update_stats_ok (now p n : Z) (t t2 : Later.data) (s s2 : Later.seqs) :
  Later.update_player_stats now (Some p) t s = (Ok n, t2, s2) ->
  s2 = s /\
  Later.sessions t2 = Later.sessions t /\
  Later.player_sessions t2 = Later.player_sessions t /\
  Later.players t2 =
    map (fun q => if Player.id q =? p
                  then Player.set_counters now
                         (Ledger.aggregates p (Later.player_sessions t)) q
                  else q)
        (Later.players t).
Proof.
  unfold Later.update_player_stats. simpl.
  destruct (int4in p) as [p'|] eqn:Ep; simpl; [|discriminate].
  apply int4in_inv in Ep. destruct Ep as [-> _].
  destruct (player_exists p (Later.players t)) eqn:Ex; simpl.
  - destruct (Later.recomputed_counters p (Later.player_sessions t)) as [c|] eqn:Ec;
      [|discriminate].
    apply recomputed_counters_ok in Ec. subst c.
    intros H; inversion H; subst. simpl. auto.
  - intros H; inversion H; subst. repeat split; auto.
    symmetry. rewrite <- (map_id (Later.players t2)) at 2.
    apply map_ext_in. intros q Hq.
    destruct (Player.id q =? p) eqn:E; auto.
    assert (player_exists p (Later.players t2) = true)
      by (apply player_exists_In; exists q; split; auto; lia).
    congruence.
Qed.

(** The three ways a call of POST /api/player-sessions ends: refused by
    the validation; both statements run and committed; or failed, with
    every row as it was. *)
Lemma recording_cases (now : Z) (b : Later.StatsBody.t)
  (fs : list (option pg_error)) (d d' : Later.db) (rep : reply) :
  Later.post_api_player_sessions now b fs d = (rep, d') ->
  (exists p t1 s1 n t2,
      Later.StatsBody.player_id b = Some p /\
      Later.upsert_player_session now (Some p) (Later.StatsBody.session_id b)
        (Later.or_zero (Later.StatsBody.points_scored b))
        (Later.or_zero (Later.StatsBody.saves b))
        (Later.or_false (Later.StatsBody.mvp_award b))
        (Later.tables d) (Later.serials d) = (Ok tt, t1, s1) /\
      Later.update_player_stats now (Some p) t1 s1 = (Ok n, t2, s1) /\
      rep = Json 200 (message_ "Player session statistics added successfully") /\
      d' = {| Later.tables := t2; Later.serials := s1 |})
  \/ (Later.tables d' = Later.tables d /\
      (rep = Json 400 (error_ "Player ID and Session ID are required") \/
       rep = NoReply \/ exists e, rep = Json 500 (error_ (message e)))).
Proof.
  unfold Later.post_api_player_sessions, Later.player_sessions_handler.
  destruct (negb (truthy_number (Later.StatsBody.player_id b))
            || negb (truthy_number (Later.StatsBody.session_id b))) eqn:V.
  - intros H; inversion H; subst. right. simpl. auto.
  - match goal with
    | |- (let (_, _) := ?x in _) = _ -> _ => destruct x as [rep0 c] eqn:E
    end.
    intros H; inversion H; subst; clear H.
    apply transaction_outcome in E.
    destruct E as [(a & t1 & s1 & n & t2 & s2 & E1 & E2 & -> & Hc & Hs & _)
                  | (-> & _ & _ & [-> | [e [-> _]]])].
    + left. destruct (Later.StatsBody.player_id b) as [p|] eqn:Ep;
        [|discriminate V].
      destruct a. rewrite Hc, Hs.
      assert (s2 = s1) by (apply update_stats_ok in E2; tauto). subst s2.
      exists p, t1, s1, n, t2. repeat split; auto; congruence.
    + right. simpl. auto.
    + right. simpl. eauto.
Qed.

Lemma recording_establishes (now : Z) (b : Later.StatsBody.t)
  (fs : list (option pg_error)) (d d' : Later.db) (rep : reply) (p : Z) :
  Later.post_api_player_sessions now b fs d = (rep, d') ->
  Later.StatsBody.player_id b = Some p ->
  Ledger.succeeded rep ->
  Ledger.counters_agree p (Later.tables d').
Proof.
  intros H Hp Hok. apply recording_cases in H.
  destruct H as [(p' & t1 & s1 & n & t2 & Hp' & _ & E2 & _ & ->)
                | (_ & [-> | [-> | [e ->]]])];
    try discriminate Hok.
  assert (p' = p) by congruence. subst p'.
  apply update_stats_ok in E2. destruct E2 as (_ & _ & Hf & Hpl).
  intros q Hq Hid. simpl in *. rewrite Hpl in Hq. rewrite Hf.
  apply in_map_iff in Hq. destruct Hq as (q0 & <- & _).
  destruct (Player.id q0 =? p) eqn:E.
  - apply counters_of_set_counters.
  - simpl in Hid. lia.
Qed.

Lemma recording_failed (now : Z) (b : Later.StatsBody.t)
  (fs : list (option pg_error)) (d d' : Later.db) (rep : reply) :
  Later.post_api_player_sessions now b fs d = (rep, d') ->
  ~ Ledger.succeeded rep ->
  Later.tables d' = Later.tables d.
Proof.
  intros H Hno. apply recording_cases in H.
  destruct H as [(p' & t1 & s1 & n & t2 & _ & _ & _ & -> & _) | [H _]]; auto.
  exfalso. apply Hno. reflexivity.
Qed.

Lemma succeeded_dec (rep : reply) : {Ledger.succeeded rep} + {~ Ledger.succeeded rep}.
Proof.
  unfold Ledger.succeeded. destruct rep as [st pl|]; simpl.
  - destruct (Z.eq_dec st 200); [left; congruence | right; congruence].
  - right; discriminate.
Qed.

(** ** Lists: filters under maps that keep what the filter reads *)

Lemma filter_map_fixed {A : Type} (g : A -> bool) (f : A -> A) (l : list A) :
  (forall x, g (f x) = g x) ->
  (forall x, g x = true -> f x = x) ->
  filter g (map f l) = filter g l.
Proof.
  intros Hg Hf. induction l as [|x l IH]; simpl; auto.
  rewrite Hg. destruct (g x) eqn:E; rewrite IH; auto.
  rewrite Hf; auto.
Qed.

Lemma filter_filter_implied {A : Type} (g h : A -> bool) (l : list A) :
  (forall x, g x = true -> h x = true) ->
  filter g (filter h l) = filter g l.
Proof.
  intros Hi. induction l as [|x l IH]; simpl; auto.
  destruct (h x) eqn:Eh; simpl.
  - rewrite IH; auto.
  - destruct (g x) eqn:Eg; auto. apply Hi in Eg. congruence.
Qed.

Lemma filter_none {A : Type} (g : A -> bool) (l : list A) :
  (forall x, In x l -> g x = false) -> filter g l = [].
Proof.
  induction l as [|x l IH]; simpl; auto. intros H.
  rewrite (H x) by auto. apply IH. intros; apply H; auto.
Qed.

Lemma NoDup_map_filter {A B : Type} (f : A -> B) (g : A -> bool) (l : list A) :
  NoDup (map f l) -> NoDup (map f (filter g l)).
Proof.
  induction l as [|x l IH]; simpl; auto. intros H.
  inversion H as [|? ? Hn Hd]; subst.
  destruct (g x); simpl; auto. constructor; auto.
  intros Hin. apply Hn. apply in_map_iff in Hin.
  destruct Hin as (y & Hy & Hin). apply filter_In in Hin.
  apply in_map_iff. exists y. tauto.
Qed.

(** ** The two readings of the ledger *)

Lemma agree_view (p : Z) (t : Later.data) :
  Ledger.counters_agree p t <->
  Forall (fun c => c = Ledger.aggregates p (Later.player_sessions t))
         (Ledger.counters_at p t).
Proof.
  unfold Ledger.counters_agree, Ledger.counters_at. rewrite Forall_forall. split.
  - intros H c Hc. apply in_map_iff in Hc. destruct Hc as (q & <- & Hq).
    apply filter_In in Hq. destruct Hq as [Hq E]. apply H; auto. lia.
  - intros H q Hq E. apply H. apply in_map_iff. exists q. split; auto.
    apply filter_In. split; auto. lia.
Qed.

Lemma drift_view (p : Z) (t : Later.data) :
  Ledger.counters_drift p t <->
  Exists (fun c => c <> Ledger.aggregates p (Later.player_sessions t))
         (Ledger.counters_at p t).
Proof.
  unfold Ledger.counters_drift, Ledger.counters_at. rewrite Exists_exists. split.
  - intros (q & Hq & E & Hne). exists (Player.counters_of q). split; auto.
    apply in_map_iff. exists q. split; auto. apply filter_In. split; auto. lia.
  - intros (c & Hc & Hne). apply in_map_iff in Hc. destruct Hc as (q & <- & Hq).
    apply filter_In in Hq. destruct Hq as [Hq E]. exists q. repeat split; auto. lia.
Qed.

Lemma aggregates_view (p : Z) (l l' : list Later.PlayerSession.row) :
  Later.sessions_of p l' = Later.sessions_of p l ->
  Ledger.aggregates p l' = Ledger.aggregates p l.
Proof. unfold Ledger.aggregates. intros ->. reflexivity. Qed.

Lemma agree_same_view (p : Z) (t t' : Later.data) :
  Ledger.counters_at p t' = Ledger.counters_at p t ->
  Ledger.facts_at p t' = Ledger.facts_at p t ->
  (Ledger.counters_agree p t' <-> Ledger.counters_agree p t).
Proof.
  intros Hc Hf. rewrite !agree_view, Hc.
  rewrite (aggregates_view p _ _ Hf). tauto.
Qed.

Lemma drift_same_view (p : Z) (t t' : Later.data) :
  Ledger.counters_at p t' = Ledger.counters_at p t ->
  Ledger.facts_at p t' = Ledger.facts_at p t ->
  (Ledger.counters_drift p t' <-> Ledger.counters_drift p t).
Proof.
  intros Hc Hf. rewrite !drift_view, Hc.
  rewrite (aggregates_view p _ _ Hf). tauto.
Qed.

(** ** Player Directory: what each statement does to the rows *)

Lemma new_player_ok (now new_id : Z) (c : PlayerBody.t) (l : list Player.row)
  (r : Player.row) :
  new_player now new_id c l = Ok r ->
  Player.id r = new_id /\ player_exists new_id l = false /\
  PlayerBody.player_id c = Some (Player.player_id r) /\
  player_id_taken (Player.player_id r) l = false /\
  Player.counters_of r = zero_counters.
Proof.
  unfold new_player, rbind, not_null.
  destruct (PlayerBody.player_id c) as [pid|]; [|discriminate].
  destruct (PlayerBody.full_name c) as [fn|]; [|discriminate].
  destruct (check_skill_level (PlayerBody.skill_level c)); [|discriminate].
  destruct (player_exists new_id l); [discriminate|].
  destruct (player_id_taken pid l) eqn:E; [discriminate|].
  intros H; inversion H; subst; simpl. auto.
Qed.

Lemma insert_into_players_cases (now : Z) (b : PlayerBody.t)
  (l l' : list Player.row) (seq seq' : Z) (r : result Z) :
  insert_into_players now b l seq = (r, l', seq') ->
  (exists e, r = Err e /\ l' = l)
  \/ (exists row, r = Ok seq /\ l' = l ++ [row] /\ seq' = seq + 1 /\
        Player.id row = seq /\ player_exists seq l = false /\
        player_id_taken (Player.player_id row) l = false /\
        Player.counters_of row = zero_counters).
Proof.
  unfold insert_into_players, nextval.
  destruct (coerce_profile b) as [c|e].
  - destruct (new_player now seq c l) as [row|e] eqn:E.
    + apply new_player_ok in E. intros H; inversion H; subst.
      right. exists row. intuition.
    + intros H; inversion H; subst. left; eauto.
  - intros H; inversion H; subst. left; eauto.
Qed.

Lemma post_api_players_cases (now : Z) (b : PlayerBody.t)
  (l l' : list Player.row) (seq seq' : Z) (rep : reply) :
  Directory.post_api_players now b l seq = (rep, l', seq') ->
  (l' = l /\ ~ Ledger.succeeded rep)
  \/ (exists row, l' = l ++ [row] /\ seq' = seq + 1 /\
        rep = Json 200 (player_added "Player added successfully"
                          (template (PlayerBody.player_id b)) seq) /\
        Player.id row = seq /\ player_exists seq l = false /\
        player_id_taken (Player.player_id row) l = false /\
        Player.counters_of row = zero_counters).
Proof.
  unfold Directory.post_api_players.
  destruct (negb (truthy_string (PlayerBody.player_id b))
            || negb (truthy_string (PlayerBody.full_name b))).
  - intros H; inversion H; subst. left. split; auto. discriminate.
  - destruct (insert_into_players now b l seq) as [[r l1] seq1] eqn:E.
    apply insert_into_players_cases in E.
    destruct E as [(e & -> & ->) | (row & -> & -> & -> & H1 & H2 & H3 & H4)].
    + destruct (String.eqb (code e) "23505"); intros H; inversion H; subst;
        left; split; auto; discriminate.
    + intros H; inversion H; subst. right. exists row. intuition.
Qed.

Lemma update_players_cases (now key : Z) (b : PlayerBody.t)
  (l l' : list Player.row) (r : result Z) :
  update_players now b key l = (r, l') ->
  l' = l \/
  exists pid fn c,
    l' = map (fun p => if Player.id p =? key
                       then set_profile now pid fn c p else p) l.
Proof.
  unfold update_players.
  destruct (coerce_update b key) as [[c k]|e] eqn:Ec;
    [|intros H; inversion H; auto].
  apply coerce_update_inv in Ec. destruct Ec as (-> & _ & _).
  destruct (negb (player_exists key l)); [intros H; inversion H; auto|].
  destruct (updated_profile c key l) as [[pid fn]|e];
    intros H; inversion H; subst; auto.
  right. exists pid, fn, c. reflexivity.
Qed.

Lemma put_api_players_id_cases (now key : Z) (b : PlayerBody.t)
  (l l' : list Player.row) (rep : reply) :
  Directory.put_api_players_id now key b l = (rep, l') ->
  l' = l \/
  exists pid fn c,
    l' = map (fun p => if Player.id p =? key
                       then set_profile now pid fn c p else p) l.
Proof.
  unfold Directory.put_api_players_id.
  destruct (update_players now b key l) as [[n|e] l1] eqn:E;
    apply update_players_cases in E.
  - destruct (n =? 0); intros H; inversion H; subst; auto.
  - intros H; inversion H; subst; auto.
Qed.

Lemma delete_from_players_cases (key n : Z) (t t' : Later.data)
  (s s' : Later.seqs) :
  Later.delete_from_players key t s = (Ok n, t', s') ->
  s' = s /\
  (t' = t \/
   t' = {| Later.players :=
             filter (fun p => negb (Player.id p =? key)) (Later.players t);
           Later.sessions := Later.sessions t;
           Later.player_sessions :=
             filter (fun r => negb (Later.PlayerSession.player_id r =? key))
                    (Later.player_sessions t) |}).
Proof.
  unfold Later.delete_from_players.
  destruct (int4in key) as [k|] eqn:Ek; [|discriminate].
  apply int4in_inv in Ek. destruct Ek as [-> _].
  destruct (negb (player_exists key (Later.players t)));
    intros H; inversion H; subst; auto.
Qed.

Lemma delete_from_players_refused (key : Z) (t t' : Later.data)
  (s s' : Later.seqs) (e : pg_error) :
  Later.delete_from_players key t s = (Err e, t', s') -> t' = t /\ s' = s.
Proof.
  unfold Later.delete_from_players.
  destruct (int4in key) as [k|]; [|intros H; inversion H; auto].
  destruct (negb (player_exists k (Later.players t))); discriminate.
Qed.

(** ** Frame: what a request leaves of a player it does not concern *)

Lemma counters_at_profile (now key p : Z) (pid fn : string) (c : PlayerBody.t)
  (l : list Player.row) :
  map Player.counters_of
      (filter (fun q => Player.id q =? p)
              (map (fun q => if Player.id q =? key
                             then set_profile now pid fn c q else q) l))
  = map Player.counters_of (filter (fun q => Player.id q =? p) l).
Proof.
  induction l as [|q l IH]; simpl; auto.
  destruct (Player.id q =? key); simpl;
    destruct (Player.id q =? p); simpl; rewrite IH; auto.
Qed.

Lemma recording_leaves (now : Z) (b : Later.StatsBody.t)
  (fs : list (option pg_error)) (d d' : Later.db) (rep : reply) (p : Z) :
  Later.post_api_player_sessions now b fs d = (rep, d') ->
  Later.StatsBody.player_id b <> Some p ->
  Ledger.counters_at p (Later.tables d') = Ledger.counters_at p (Later.tables d) /\
  Ledger.facts_at p (Later.tables d') = Ledger.facts_at p (Later.tables d).
Proof.
  intros H Hp. apply recording_cases in H.
  destruct H as [(p0 & t1 & s1 & n & t2 & Hp0 & E1 & E2 & _ & ->) | [-> _]]; auto.
  assert (Hne : p0 <> p) by congruence.
  apply upsert_ok in E1. destruct E1 as (p1 & se & Hp1 & _ & Hpl1 & _ & Hf1).
  inversion Hp1; subst p1.
  apply update_stats_ok in E2. destruct E2 as (_ & _ & Hf2 & Hpl2).
  unfold Ledger.counters_at, Ledger.facts_at, Later.sessions_of. simpl.
  rewrite Hpl2, Hf2, Hpl1. split.
  - f_equal. apply filter_map_fixed.
    + intros q. destruct (Player.id q =? p0); reflexivity.
    + intros q Hq. destruct (Player.id q =? p0) eqn:E; auto. lia.
  - destruct Hf1 as [[_ ->] | (_ & _ & ->)].
    + apply filter_map_fixed.
      * intros r. destruct (Later.same_pair p0 se r); reflexivity.
      * intros r Hr. unfold Later.same_pair.
        destruct (Later.PlayerSession.player_id r =? p0) eqn:E; auto. lia.
    + rewrite filter_app. simpl.
      destruct (p0 =? p) eqn:E; [lia|]. apply app_nil_r.
Qed.

Section Frame.

Variable date_in : string -> option Z.

Lemma post_api_sessions_rows (now : Z) (date : option string)
  (d d' : Later.db) (rep : reply) :
  Later.post_api_sessions date_in now date d = (rep, d') ->
  Later.players (Later.tables d') = Later.players (Later.tables d) /\
  Later.player_sessions (Later.tables d') = Later.player_sessions (Later.tables d).
Proof.
  unfold Later.post_api_sessions, Later.insert_into_sessions, nextval.
  destruct (negb (truthy_string date)); [intros H; inversion H; auto|].
  destruct (Later.date_opt date_in date) as [day|e];
    [|destruct (String.eqb (code e) "23505"); intros H; inversion H; auto].
  destruct (not_null "sessions" "session_date" day) as [day'|e];
    [|destruct (String.eqb (code e) "23505"); intros H; inversion H; auto].
  destruct (Later.session_exists _ _); simpl; [intros H; inversion H; auto|].
  destruct (existsb _ _); simpl; intros H; inversion H; auto.
Qed.

Lemma serve_leaves (now : Z) (r : Later.request) (d d' : Later.db)
  (rep : reply) (p : Z) :
  Later.serve date_in now r d = (rep, d') ->
  Ledger.leaves_alone p r ->
  player_exists p (Later.players (Later.tables d)) = true ->
  Ledger.counters_at p (Later.tables d') = Ledger.counters_at p (Later.tables d) /\
  Ledger.facts_at p (Later.tables d') = Ledger.facts_at p (Later.tables d).
Proof.
  destruct r as [b|key b|key|date|b fs|]; simpl; intros H Hl Hex.
  - unfold Later.post_api_players in H.
    destruct (Directory.post_api_players _ _ _ _) as [[rep0 l] n] eqn:E.
    inversion H; subst; clear H. apply post_api_players_cases in E.
    unfold Ledger.counters_at, Ledger.facts_at. simpl.
    destruct E as [[-> _] | (row & -> & _ & _ & Hid & Hnew & _)]; auto.
    split; auto. rewrite filter_app. simpl.
    destruct (Player.id row =? p) eqn:E; [|rewrite app_nil_r; auto].
    assert (p = Later.players_id_seq (Later.serials d)) by lia. congruence.
  - unfold Later.put_api_players_id in H.
    destruct (Directory.put_api_players_id _ _ _ _) as [rep0 l] eqn:E.
    inversion H; subst; clear H. apply put_api_players_id_cases in E.
    unfold Ledger.counters_at, Ledger.facts_at. simpl.
    destruct E as [-> | (pid & fn & c & ->)]; auto.
    split; auto. apply counters_at_profile.
  - unfold Later.delete_api_players_id in H.
    destruct (Later.delete_from_players _ _ _) as [[[n|e] t] s] eqn:E.
    + apply delete_from_players_cases in E. destruct E as [-> E].
      assert (Later.tables d' = t) by
        (destruct (n =? 0); inversion H; reflexivity).
      subst t. destruct E as [-> | ->]; auto.
      unfold Ledger.counters_at, Ledger.facts_at, Later.sessions_of. simpl.
      split; [f_equal|]; apply filter_filter_implied; intros x Hx;
        apply negb_true_iff; lia.
    + inversion H; subst. auto.
  - apply post_api_sessions_rows in H. destruct H as [Hp Hf].
    unfold Ledger.counters_at, Ledger.facts_at. rewrite Hp, Hf. auto.
  - eapply recording_leaves; eauto.
  - contradiction.
Qed.

End Frame.

(** ** C1: the recomputation invariant *)

(** C1, as amended.  In the later revision, a call of "record session
    statistics" for player [p] that succeeds leaves the four stored
    counters of [p] equal to the aggregates over the facts of [p] (sum
    of points, sum of saves, number of MVP facts, number of facts); a
    call that fails changes no row.  Hence, in a run of such calls for
    [p], the equality holds after the whole run as soon as it held
    before the run or one call of the run succeeded; applied to the
    prefixes of a run, this is the equality right after every call. *)
Theorem recomputation_invariant (date_in : string -> option Z) (p : Z)
  (calls : list (Z * Later.request)) (d d' : Later.db) (reps : list reply) :
  Later.serve_all date_in calls d = (reps, d') ->
  Forall (fun c => Ledger.is_stats_for p (snd c)) calls ->
  Ledger.counters_agree p (Later.tables d) \/ Exists Ledger.succeeded reps ->
  Ledger.counters_agree p (Later.tables d').
Proof.
  revert d reps. induction calls as [|[now r] calls IH]; simpl; intros d reps H Hall Hor.
  - inversion H; subst. destruct Hor as [Ha | Hex]; auto. inversion Hex.
  - inversion Hall as [|? ? Hr Hall']; subst. simpl in Hr.
    destruct r as [| | | |b fs|]; try contradiction. simpl in H.
    destruct (Later.post_api_player_sessions now b fs d) as [rep d1] eqn:E1.
    destruct (Later.serve_all date_in calls d1) as [reps' d2] eqn:E2.
    inversion H; subst; clear H.
    apply (IH d1 reps' E2 Hall').
    destruct (succeeded_dec rep) as [Hok | Hno].
    + left. eapply recording_establishes; eauto.
    + pose proof (recording_failed _ _ _ _ E1 Hno) as Ht.
      destruct Hor as [Ha | Hex].
      * left. unfold Ledger.counters_agree in *. rewrite Ht. exact Ha.
      * inversion Hex; subst; [contradiction | right; assumption].
Qed.

Lemma recomputation_invariant_witness :
  Ledger.counters_agree 1 (Later.tables Scenario.after_once_more).
Proof.
  apply (@recomputation_invariant Scenario.march_first 1 Scenario.once_more
           Scenario.after_opening Scenario.after_once_more
           Scenario.replies_once_more).
  - vm_compute. reflexivity.
  - constructor; [reflexivity | constructor].
  - right. constructor. reflexivity.
Defined.

(** C1 as stated fails: once the facts are gone (here through
    POST /api/repair-database), a call for the player that fails -- the
    session 99 it names does not exist -- is answered 500 and leaves the
    counters at 10, 2, 1, 1 over no fact at all. *)
Lemma recomputation_invariant_counterexample :
  let run :=
    Later.serve_all Scenario.march_first
      (Scenario.opening
       ++ [(4, Later.POST_repair_database);
           (5, Later.POST_player_sessions (Scenario.stats 99) [])])
      (Later.initializeDatabase None) in
  map status_of (fst run) = [Some 200; Some 200; Some 200; Some 200; Some 500]
  /\ ~ Ledger.counters_agree 1 (Later.tables (snd run)).
Proof.
  split; [vm_compute; reflexivity|].
  rewrite agree_view. vm_compute. intros H.
  inversion H as [|? ? Hc _]. discriminate Hc.
Qed.

(** ** C3: the recording is atomic *)


(** ** C2: a second recording for a pair overwrites the first *)

Lemma filter_map_commute {A : Type} (g : A -> bool) (f : A -> A) (l : list A) :
  (forall x, g (f x) = g x) ->
  filter g (map f l) = map f (filter g l).
Proof.
  intros Hg. induction l as [|x l IH]; simpl; auto.
  rewrite Hg. destruct (g x); simpl; rewrite IH; auto.
Qed.

Lemma existsb_filter_nil {A : Type} (g : A -> bool) (l : list A) :
  existsb g l = false -> filter g l = [].
Proof.
  induction l as [|x l IH]; simpl; auto.
  destruct (g x); simpl; [discriminate | auto].
Qed.

Lemma existsb_filter_cons {A : Type} (g : A -> bool) (l : list A) :
  existsb g l = true -> exists x l', filter g l = x :: l'.
Proof.
  induction l as [|x l IH]; simpl; [discriminate|].
  destruct (g x); simpl; eauto.
Qed.

Lemma same_pair_do_update (p se pt sv : Z) (mvp : bool)
  (r : Later.PlayerSession.row) :
  Later.same_pair p se (Later.do_update pt sv mvp r) = Later.same_pair p se r.
Proof. reflexivity. Qed.

Lemma same_pair_inj (p se p' se' : Z) (r : Later.PlayerSession.row) :
  Later.same_pair p se r = true -> Later.same_pair p' se' r = true ->
  p' = p /\ se' = se.
Proof. unfold Later.same_pair. intros; lia. Qed.

(** What a successful recording leaves in the fact table for its pair,
    and that the table keeps its UNIQUE constraint. *)
Lemma recording_upserts (now : Z) (b : Later.StatsBody.t)
  (fs : list (option pg_error)) (d d' : Later.db) (rep : reply) (p se : Z) :
  Ledger.pairs_distinct (Later.player_sessions (Later.tables d)) ->
  Later.post_api_player_sessions now b fs d = (rep, d') ->
  Ledger.succeeded rep ->
  Later.StatsBody.player_id b = Some p ->
  Later.StatsBody.session_id b = Some se ->
  Ledger.pairs_distinct (Later.player_sessions (Later.tables d')) /\
  exists r,
    filter (Later.same_pair p se) (Later.player_sessions (Later.tables d')) = [r] /\
    Later.PlayerSession.points_scored r
      = Some (Later.or_zero (Later.StatsBody.points_scored b)) /\
    Later.PlayerSession.saves r
      = Some (Later.or_zero (Later.StatsBody.saves b)) /\
    Later.PlayerSession.mvp_award r
      = Some (Later.or_false (Later.StatsBody.mvp_award b)) /\
    (forall r0,
        filter (Later.same_pair p se) (Later.player_sessions (Later.tables d)) = [r0] ->
        Later.PlayerSession.id r = Later.PlayerSession.id r0 /\
        List.length (Later.player_sessions (Later.tables d'))
          = List.length (Later.player_sessions (Later.tables d))).
Proof.
  intros Hd H Hok Hp Hse. apply recording_cases in H.
  destruct H as [(p0 & t1 & s1 & n & t2 & Hp0 & E1 & E2 & _ & ->)
                | (_ & [-> | [-> | [e ->]]])];
    try discriminate Hok.
  apply upsert_ok in E1. destruct E1 as (p1 & se1 & Hp1 & Hse1 & _ & _ & Hf1).
  assert (p1 = p) by congruence. assert (se1 = se) by congruence. subst p1 se1.
  apply update_stats_ok in E2. destruct E2 as (_ & _ & Hf2 & _).
  simpl. rewrite Hf2. clear Hf2.
  set (pt := Later.or_zero (Later.StatsBody.points_scored b)) in *.
  set (sv := Later.or_zero (Later.StatsBody.saves b)) in *.
  set (mvp := Later.or_false (Later.StatsBody.mvp_award b)) in *.
  set (l := Later.player_sessions (Later.tables d)) in *.
  destruct Hf1 as [[Hex ->] | (Hex & _ & ->)].
  - split.
    + intros p' se'. rewrite filter_map_commute, length_map; [apply Hd|].
      intros r. destruct (Later.same_pair p se r); reflexivity.
    + rewrite filter_map_commute
        by (intros r; destruct (Later.same_pair p se r) eqn:E;
            rewrite ?same_pair_do_update; auto).
      destruct (existsb_filter_cons _ _ Hex) as (r0 & l' & Hl).
      pose proof (Hd p se) as Hlen. rewrite Hl in Hlen |- *.
      destruct l' as [|? ?]; [|simpl in Hlen; lia].
      assert (Hr0 : Later.same_pair p se r0 = true).
      { assert (In r0 (filter (Later.same_pair p se) l)) by (rewrite Hl; left; auto).
        apply filter_In in H. tauto. }
      simpl. rewrite Hr0. eexists. repeat (split; [reflexivity|]).
      intros r1 Hr1. inversion Hr1; subst. split; auto. apply length_map.
  - split.
    + intros p' se'. rewrite filter_app, length_app. simpl.
      destruct (Later.same_pair p' se' _) eqn:E; simpl.
      * unfold Later.same_pair in E. simpl in E.
        assert (p' = p /\ se' = se) as [-> ->] by lia.
        rewrite existsb_filter_nil by assumption. simpl. lia.
      * pose proof (Hd p' se'). lia.
    + rewrite filter_app, existsb_filter_nil by assumption. simpl.
      unfold Later.same_pair at 1. simpl. rewrite !Z.eqb_refl. simpl.
      eexists. repeat (split; [reflexivity|]). intros r0 Hr0; discriminate Hr0.
Qed.

(** C2, as amended.  In the later revision, on a fact table that meets
    its UNIQUE (player_id, session_id) constraint, two successful
    recordings for the same pair leave exactly one fact for the pair:
    the row the first one left, under the same key, now holding the
    points, saves and MVP flag of the second call (absent values as 0
    and false); the second call adds no row. *)
Theorem second_recording_overwrites (now1 now2 : Z)
  (b1 b2 : Later.StatsBody.t) (fs1 fs2 : list (option pg_error))
  (d d1 d2 : Later.db) (rep1 rep2 : reply) (p se : Z) :
  Ledger.pairs_distinct (Later.player_sessions (Later.tables d)) ->
  Later.StatsBody.player_id b1 = Some p -> Later.StatsBody.session_id b1 = Some se ->
  Later.StatsBody.player_id b2 = Some p -> Later.StatsBody.session_id b2 = Some se ->
  Later.post_api_player_sessions now1 b1 fs1 d = (rep1, d1) ->
  Ledger.succeeded rep1 ->
  Later.post_api_player_sessions now2 b2 fs2 d1 = (rep2, d2) ->
  Ledger.succeeded rep2 ->
  exists r1 r2,
    filter (Later.same_pair p se) (Later.player_sessions (Later.tables d1)) = [r1] /\
    filter (Later.same_pair p se) (Later.player_sessions (Later.tables d2)) = [r2] /\
    Later.PlayerSession.id r2 = Later.PlayerSession.id r1 /\
    List.length (Later.player_sessions (Later.tables d2))
      = List.length (Later.player_sessions (Later.tables d1)) /\
    Later.PlayerSession.points_scored r2
      = Some (Later.or_zero (Later.StatsBody.points_scored b2)) /\
    Later.PlayerSession.saves r2
      = Some (Later.or_zero (Later.StatsBody.saves b2)) /\
    Later.PlayerSession.mvp_award r2
      = Some (Later.or_false (Later.StatsBody.mvp_award b2)).
Proof.
  intros Hd Hp1 Hse1 Hp2 Hse2 H1 Hok1 H2 Hok2.
  destruct (@recording_upserts now1 b1 fs1 d d1 rep1 p se Hd H1 Hok1 Hp1 Hse1) as (Hd1 & r1 & Hr1 & _).
  destruct (@recording_upserts now2 b2 fs2 d1 d2 rep2 p se Hd1 H2 Hok2 Hp2 Hse2)
    as (_ & r2 & Hr2 & Hpt & Hsv & Hmvp & Hsame).
  destruct (Hsame r1 Hr1) as [Hid Hlen].
  exists r1, r2. repeat split; assumption.
Qed.

Lemma second_recording_overwrites_witness :
  exists r1 r2,
    filter (Later.same_pair 1 1)
      (Later.player_sessions (Later.tables Scenario.after_opening)) = [r1] /\
    filter (Later.same_pair 1 1)
      (Later.player_sessions (Later.tables Scenario.after_correction)) = [r2] /\
    Later.PlayerSession.id r2 = Later.PlayerSession.id r1 /\
    List.length (Later.player_sessions (Later.tables Scenario.after_correction))
      = List.length (Later.player_sessions (Later.tables Scenario.after_opening)) /\
    Later.PlayerSession.points_scored r2 = Some 7 /\
    Later.PlayerSession.saves r2 = Some 0 /\
    Later.PlayerSession.mvp_award r2 = Some false.
Proof.
  apply (@second_recording_overwrites 3 4 (Scenario.stats 1) Scenario.correction
           [] [] Scenario.before_statistics Scenario.after_opening
           Scenario.after_correction
           (Json 200 (message_ "Player session statistics added successfully"))
           (Json 200 (message_ "Player session statistics added successfully"))
           1 1).
  - intros p se. simpl. lia.
  - reflexivity.
  - reflexivity.
  - reflexivity.
  - reflexivity.
  - vm_compute. reflexivity.
  - reflexivity.
  - vm_compute. reflexivity.
  - reflexivity.
Defined.

(** C2 as stated fails in the earlier revision: its fact table has no
    UNIQUE constraint and its INSERT no ON CONFLICT clause, so two
    recordings for player 1 on 2024-03-01 leave two facts, the first
    with its 10 points still in place. *)
Lemma second_recording_counterexample :
  let first :=
    Earlier.post_api_sessions Scenario.march_first 2
      (Scenario.earlier_stats 10) [] Scenario.earlier_with_ann in
  let second :=
    Earlier.post_api_sessions Scenario.march_first 3
      (Scenario.earlier_stats 7) [] (snd first) in
  status_of (fst first) = Some 200 /\ status_of (fst second) = Some 200 /\
  map Earlier.PlayerSession.points_scored
    (filter (fun r => (Earlier.PlayerSession.player_id r =? 1)
                      && (Earlier.PlayerSession.session_date r =? 19783))
            (Earlier.player_sessions (Earlier.tables (snd second))))
  = [Some 10; Some 7].
Proof. vm_compute. repeat split; reflexivity. Qed.

(** ** C4: creating a player under an identifier in use *)

Lemma truthy_string_Some (o : option string) :
  truthy_string o = true -> exists s, o = Some s /\ s <> ""%string.
Proof.
  destruct o as [s|]; simpl; [|discriminate].
  intros H. exists s. split; auto. intros ->. discriminate H.
Qed.

Lemma varchar_opt_Some (n : nat) (s : string) (o : option string) :
  varchar_opt n (Some s) = Ok o -> exists s', o = Some s'.
Proof.
  simpl. unfold rbind. destruct (varchar n s); intros H; inversion H; eauto.
Qed.

(** C4, as amended.  A create-player request whose identifier (as the
    column stores it) is in use never succeeds and leaves every row of
    the table as it was; when the request passes the handler's
    validation (identifier and full name present) and its skill tier
    passes the CHECK constraint, the reply is the 400 conflict whose
    message quotes the identifier of the request.  A request that
    succeeds is answered with the key assigned to the row it appended. *)
Theorem create_player_conflict (now : Z) (b : PlayerBody.t)
  (l l' : list Player.row) (seq seq' : Z) (rep : reply) :
  Directory.post_api_players now b l seq = (rep, l', seq') ->
  (forall c pid,
      coerce_profile b = Ok c ->
      PlayerBody.player_id c = Some pid ->
      player_id_taken pid l = true ->
      l' = l /\ ~ Ledger.succeeded rep /\
      (truthy_string (PlayerBody.player_id b) = true ->
       truthy_string (PlayerBody.full_name b) = true ->
       check_skill_level (PlayerBody.skill_level c) = Ok tt ->
       rep = Json 400 (error_ ("Player ID "
                               ++ quoted (template (PlayerBody.player_id b))
                               ++ " already exists")%string)))
  /\
  (Ledger.succeeded rep ->
   exists row,
     l' = l ++ [row] /\ Player.id row = seq /\
     rep = Json 200 (player_added "Player added successfully"
                       (template (PlayerBody.player_id b)) (Player.id row))).
Proof.
  intros H. split.
  - intros c pid Hc Hpid Htaken.
    pose proof (post_api_players_cases _ _ _ _ H) as Hcases.
    destruct Hcases as [[-> Hno] | (row & -> & _ & -> & Hid & Hnew & Hfree & _)].
    + repeat split; auto. intros Hv1 Hv2 Hsk.
      unfold Directory.post_api_players in H. rewrite Hv1, Hv2 in H. simpl in H.
      unfold insert_into_players, nextval in H. rewrite Hc in H.
      unfold new_player, rbind in H. rewrite Hpid in H. simpl in H.
      apply truthy_string_Some in Hv2. destruct Hv2 as (fn & Hfn & _).
      assert (Hfn' : exists fn', PlayerBody.full_name c = Some fn').
      { unfold coerce_profile, fit_profile, rbind in Hc.
        destruct (int4in_opt (PlayerBody.age b)); [|discriminate].
        destruct (varchar_opt 20 (PlayerBody.player_id b)); [|discriminate].
        rewrite Hfn in Hc.
        destruct (varchar_opt 100 (Some fn)) as [o|] eqn:E; [|discriminate].
        apply varchar_opt_Some in E. destruct E as [fn' ->].
        destruct (varchar_opt 20 (PlayerBody.phone_number b)); [|discriminate].
        destruct (varchar_opt 50 (PlayerBody.instagram_username b)); [|discriminate].
        destruct (varchar_opt 20 (PlayerBody.skill_level b)); [|discriminate].
        inversion Hc; subst; simpl. eauto. }
      destruct Hfn' as [fn' Hfn']. rewrite Hfn', Hsk in H. simpl in H.
      rewrite Htaken in H.
      destruct (player_exists seq l); simpl in H; inversion H; reflexivity.
    + exfalso.
      unfold Directory.post_api_players in H.
      destruct (negb (truthy_string (PlayerBody.player_id b))
                || negb (truthy_string (PlayerBody.full_name b)));
        [inversion H|].
      unfold insert_into_players, nextval in H. rewrite Hc in H.
      destruct (new_player now seq c l) as [r|e] eqn:E.
      * apply new_player_ok in E. destruct E as (_ & _ & Hp & Hf & _).
        congruence.
      * destruct (String.eqb (code e) "23505"); inversion H.
  - intros Hok. apply post_api_players_cases in H.
    destruct H as [[_ Hno] | (row & -> & _ & -> & Hid & _)]; [contradiction|].
    exists row. rewrite Hid. auto.
Qed.

Lemma create_player_conflict_witness :
  Scenario.roster = Scenario.roster /\
  ~ Ledger.succeeded
      (Json 400 (error_ ("Player ID " ++ quoted "P1" ++ " already exists")%string)) /\
  (truthy_string (PlayerBody.player_id Scenario.ann) = true ->
   truthy_string (PlayerBody.full_name Scenario.ann) = true ->
   check_skill_level (PlayerBody.skill_level Scenario.ann) = Ok tt ->
   Json 400 (error_ ("Player ID " ++ quoted "P1" ++ " already exists")%string)
   = Json 400 (error_ ("Player ID "
                       ++ quoted (template (PlayerBody.player_id Scenario.ann))
                       ++ " already exists")%string)).
Proof.
  assert (H : Directory.post_api_players 9 Scenario.ann Scenario.roster 2
              = (Json 400 (error_ ("Player ID " ++ quoted "P1"
                                   ++ " already exists")%string),
                 Scenario.roster, 3))
    by (vm_compute; reflexivity).
  apply (proj1 (create_player_conflict _ _ _ _ H) Scenario.ann "P1"%string);
    vm_compute; reflexivity.
Defined.

(** C4 as stated fails: with Ann stored under "P1", a request for "P1"
    that carries no name is refused by the validation, whose message
    names no identifier, and one whose skill tier is unknown to the
    table is refused by the CHECK constraint, before the unique index is
    consulted, with a 500. *)
Lemma create_player_conflict_counterexample :
  player_id_taken "P1" Scenario.roster = true /\
  fst (fst (Directory.post_api_players 9 Scenario.nameless Scenario.roster 2))
  = Json 400 (error_ "Player ID and Full Name are required") /\
  status_of
    (fst (fst (Directory.post_api_players 9 Scenario.professional
                 Scenario.roster 2)))
  = Some 500.
Proof. vm_compute. repeat split; reflexivity. Qed.

(** ** C10: the update classifies nothing *)

Lemma update_players_in (now key : Z) (b c : PlayerBody.t)
  (l : list Player.row) :
  coerce_profile b = Ok c -> in_int4 key = true ->
  update_players now b key l
  = if negb (player_exists key l) then (Ok 0, l)
    else
      match updated_profile c key l with
      | Err e => (Err e, l)
      | Ok (pid, fn) =>
          (Ok (Z.of_nat (List.length (filter (fun p => Player.id p =? key) l))),
           map (fun p => if Player.id p =? key
                         then set_profile now pid fn c p else p) l)
      end.
Proof.
  intros Hc Hk. unfold update_players.
  rewrite (@coerce_update_ok _ _ _ Hc Hk). reflexivity.
Qed.

Lemma update_players_out (now key : Z) (b c : PlayerBody.t)
  (l : list Player.row) :
  coerce_profile b = Ok c -> in_int4 key = false ->
  update_players now b key l
  = (Err (out_of_range_for_integer (decimal key)), l).
Proof.
  intros Hc Hk. unfold update_players.
  rewrite (@coerce_update_out _ _ _ Hc Hk). reflexivity.
Qed.

Lemma update_players_refused (now key : Z) (b : PlayerBody.t)
  (l l' : list Player.row) (e : pg_error) :
  update_players now b key l = (Err e, l') -> l' = l.
Proof.
  unfold update_players.
  destruct (coerce_update b key) as [[c k]|e']; [|intros H; inversion H; auto].
  destruct (negb (player_exists k l)); [discriminate|].
  destruct (updated_profile c k l) as [[? ?]|]; intros H; inversion H; auto.
Qed.

(** C10.  The update handler (the same in both revisions) never answers
    400: it validates nothing, and whatever the store raises is answered
    500 with the error's own text, the rows left as they were.  With
    body parameters that fit their columns: a key outside INTEGER is the
    store's range error, answered 500; under a key within INTEGER that
    has a row, an absent identifier or full name is the store's not-null
    violation and an identifier held by another row its unique
    violation, each answered 500; under a key within INTEGER that has no
    row the same requests are answered 404. *)
Theorem update_player_unclassified (now key : Z) (b : PlayerBody.t)
  (l : list Player.row) :
  let (rep, l') := Directory.put_api_players_id now key b l in
  status_of rep <> Some 400 /\
  (forall e, fst (update_players now b key l) = Err e ->
             rep = Json 500 (error_ (message e)) /\ l' = l) /\
  (forall c, coerce_profile b = Ok c ->
     (in_int4 key = false ->
      rep = Json 500
              (error_ (message (out_of_range_for_integer (decimal key)))) /\
      l' = l) /\
     (in_int4 key = true -> player_exists key l = false ->
      rep = Json 404 (error_ "Player not found") /\ l' = l) /\
     (in_int4 key = true -> player_exists key l = true ->
      (PlayerBody.player_id c = None ->
       rep = Json 500
               (error_ (message (not_null_violation "players" "player_id")))) /\
      (PlayerBody.player_id c <> None -> PlayerBody.full_name c = None ->
       rep = Json 500
               (error_ (message (not_null_violation "players" "full_name")))) /\
      (forall pid fn,
          PlayerBody.player_id c = Some pid ->
          PlayerBody.full_name c = Some fn ->
          check_skill_level (PlayerBody.skill_level c) = Ok tt ->
          player_id_taken pid (filter (fun p => negb (Player.id p =? key)) l) = true ->
          rep = Json 500
                  (error_ (message (unique_violation "players_player_id_key")))))).
Proof.
  unfold Directory.put_api_players_id.
  destruct (update_players now b key l) as [[n|e] l1] eqn:E.
  - destruct (n =? 0) eqn:En.
    + split; [discriminate|]. split; [intros e He; discriminate He|].
      intros c Hc. destruct (in_int4 key) eqn:Hk.
      * rewrite (@update_players_in now key b c l Hc Hk) in E.
        split; [discriminate|].
        destruct (player_exists key l) eqn:Ex; simpl in E.
        -- destruct (updated_profile c key l) as [[pid fn]|e]; [|discriminate].
           inversion E; subst. exfalso.
           apply player_exists_In in Ex. destruct Ex as (q & Hq & Hid).
           assert (In q (filter (fun p => Player.id p =? key) l))
             by (apply filter_In; split; auto; lia).
           destruct (filter (fun p => Player.id p =? key) l); simpl in *; [tauto | lia].
        -- inversion E; subst. split; [auto | discriminate].
      * rewrite (@update_players_out now key b c l Hc Hk) in E. discriminate E.
    + split; [discriminate|]. split; [intros e He; discriminate He|].
      intros c Hc. destruct (in_int4 key) eqn:Hk.
      * rewrite (@update_players_in now key b c l Hc Hk) in E.
        split; [discriminate|].
        destruct (player_exists key l) eqn:Ex; simpl in E.
        -- split; [discriminate|]. intros _ _.
           unfold updated_profile, rbind, not_null in E.
           destruct (PlayerBody.player_id c) as [pid|]; [|discriminate].
           destruct (PlayerBody.full_name c) as [fn|]; [|discriminate].
           destruct (check_skill_level (PlayerBody.skill_level c)); [|discriminate].
           destruct (player_id_taken pid _) eqn:Et; [discriminate|].
           repeat split; try discriminate.
           intros pid' fn' Hp _ _ Ht. congruence.
        -- inversion E; subst. discriminate En.
      * rewrite (@update_players_out now key b c l Hc Hk) in E. discriminate E.
  - split; [discriminate|]. split.
    + intros e' He. simpl in He. inversion He; subst.
      split; auto. eapply update_players_refused; eauto.
    + intros c Hc. destruct (in_int4 key) eqn:Hk.
      * rewrite (@update_players_in now key b c l Hc Hk) in E.
        split; [discriminate|].
        destruct (player_exists key l) eqn:Ex; simpl in E; [|discriminate].
        split; [discriminate|]. intros _ _.
        unfold updated_profile, rbind, not_null in E.
        destruct (PlayerBody.player_id c) as [pid|].
        -- destruct (PlayerBody.full_name c) as [fn|].
           ++ repeat split; try discriminate.
              intros pid' fn' Hp Hf Hs Ht. inversion Hp; subst pid'.
              rewrite Hs in E. simpl in E. rewrite Ht in E.
              inversion E; reflexivity.
           ++ inversion E; subst. repeat split; try discriminate; auto.
        -- inversion E; subst. repeat split; try discriminate; auto.
           intros Hn; contradiction.
      * rewrite (@update_players_out now key b c l Hc Hk) in E. inversion E; subst.
        split; [auto|]. split; discriminate.
Qed.

(** ** C7: deleting a player *)

Lemma player_exists_filter_out (key : Z) (l : list Player.row) :
  player_exists key (filter (fun p => negb (Player.id p =? key)) l) = false.
Proof.
  unfold player_exists. induction l as [|q l IH]; simpl; auto.
  destruct (Player.id q =? key) eqn:E; simpl; auto. rewrite E. auto.
Qed.

Lemma filter_exists_length {A : Type} (g : A -> bool) (l : list A) :
  existsb g l = true -> (sql_count (filter g l) =? 0) = false.
Proof.
  intros H. destruct (existsb_filter_cons _ _ H) as (x & l' & ->).
  unfold sql_count. simpl List.length. apply Z.eqb_neq. lia.
Qed.

Lemma select_player_in (key : Z) (l : list Player.row) :
  in_int4 key = true ->
  select_player key l = Ok (filter (fun p => Player.id p =? key) l).
Proof.
  intros Hk. unfold select_player. rewrite (@int4in_ok _ Hk). reflexivity.
Qed.

Lemma delete_from_players_in (key : Z) (t : Later.data) (s : Later.seqs) :
  in_int4 key = true ->
  Later.delete_from_players key t s
  = if negb (player_exists key (Later.players t)) then (Ok 0, t, s)
    else
      (Ok (sql_count (filter (fun p => Player.id p =? key) (Later.players t))),
       {| Later.players :=
            filter (fun p => negb (Player.id p =? key)) (Later.players t);
          Later.sessions := Later.sessions t;
          Later.player_sessions :=
            filter (fun r => negb (Later.PlayerSession.player_id r =? key))
                   (Later.player_sessions t) |},
       s).
Proof.
  intros Hk. unfold Later.delete_from_players.
  rewrite (@int4in_ok _ Hk). reflexivity.
Qed.

(** C7, as amended.  Under a key within INTEGER: deleting a stored
    player is answered 200 and removes the row of the player and,
    through the foreign key's ON DELETE CASCADE, every fact of that
    player, all other rows staying; from then on the key resolves to no
    player and get-by-key is answered 404; deleting under a key that
    matches no row is answered 404 and changes nothing.  Under a key
    outside INTEGER the store refuses the statement: the reply is 500
    with the store's text and nothing changes. *)
Theorem delete_player_cascades (key : Z) (d : Later.db) :
  let (rep, d') := Later.delete_api_players_id key d in
  (in_int4 key = true ->
   player_exists key (Later.players (Later.tables d)) = true ->
   rep = Json 200 (message_ "Player deleted successfully") /\
   Later.players (Later.tables d')
     = filter (fun p => negb (Player.id p =? key)) (Later.players (Later.tables d)) /\
   Later.player_sessions (Later.tables d')
     = filter (fun r => negb (Later.PlayerSession.player_id r =? key))
              (Later.player_sessions (Later.tables d)) /\
   Later.sessions (Later.tables d') = Later.sessions (Later.tables d) /\
   player_exists key (Later.players (Later.tables d')) = false /\
   Later.sessions_of key (Later.player_sessions (Later.tables d')) = [] /\
   Later.get_api_players_id key d' = Json 404 (error_ "Player not found"))
  /\
  (in_int4 key = true ->
   player_exists key (Later.players (Later.tables d)) = false ->
   rep = Json 404 (error_ "Player not found") /\ d' = d)
  /\
  (in_int4 key = false ->
   rep = Json 500 (error_ (message (out_of_range_for_integer (decimal key)))) /\
   d' = d).
Proof.
  unfold Later.delete_api_players_id.
  destruct (in_int4 key) eqn:Hk.
  - rewrite (@delete_from_players_in key _ _ Hk).
    destruct (player_exists key (Later.players (Later.tables d))) eqn:Ex; simpl.
    + rewrite (filter_exists_length _ _ Ex). split; [|split; discriminate].
      intros _ _. simpl. repeat split.
      * apply player_exists_filter_out.
      * unfold Later.sessions_of. apply filter_none. intros r Hr.
        apply filter_In in Hr. destruct Hr as [_ Hr].
        apply negb_true_iff in Hr. exact Hr.
      * unfold Later.get_api_players_id, Directory.get_api_players_id.
        rewrite (@select_player_in key _ Hk).
        simpl. rewrite filter_none; auto.
        intros q Hq. apply filter_In in Hq. destruct Hq as [_ Hq].
        apply negb_true_iff in Hq. exact Hq.
    + split; [discriminate|]. split; [|discriminate].
      intros _ _. destruct d as [t s]; auto.
  - unfold Later.delete_from_players. rewrite (@int4in_out _ Hk).
    split; [discriminate|]. split; [discriminate|].
    intros _. destruct d as [t s]; auto.
Qed.

(** C7 as stated fails: no player is stored under the key 2147483648,
    and deleting under it is answered 500, not 404; so is get-by-key. *)
Lemma delete_player_cascades_counterexample :
  player_exists 2147483648 (Later.players (Later.tables Scenario.after_opening))
  = false /\
  Later.delete_api_players_id 2147483648 Scenario.after_opening
  = (Json 500 (error_ ("value " ++ quoted "2147483648"
                       ++ " is out of range for type integer")%string),
     Scenario.after_opening) /\
  status_of (Later.get_api_players_id 2147483648 Scenario.after_opening)
  = Some 500.
Proof. vm_compute. repeat split; reflexivity. Qed.

(** With Ann stored under key 1 and one fact recorded for her: deleting
    her removes her row and the fact and leaves the session; the key
    then resolves to no player, for get-by-key and for a second delete. *)
Example delete_player_scenario :
  let (rep, d') := Later.delete_api_players_id 1 Scenario.after_opening in
  rep = Json 200 (message_ "Player deleted successfully") /\
  Later.player_sessions (Later.tables Scenario.after_opening) <> [] /\
  Later.players (Later.tables d') = [] /\
  Later.player_sessions (Later.tables d') = [] /\
  Later.sessions (Later.tables d')
  = Later.sessions (Later.tables Scenario.after_opening) /\
  Later.get_api_players_id 1 d' = Json 404 (error_ "Player not found") /\
  fst (Later.delete_api_players_id 1 d') = Json 404 (error_ "Player not found").
Proof. vm_compute. repeat split; try reflexivity. discriminate. Qed.

(** ** C8: creating a session *)

(** C8.  A request to create a session without a date (absent or empty)
    is answered 400 and changes nothing.  A request whose date the store
    reads as a day already recorded is answered with the 400 conflict
    whose message quotes the date as the request wrote it, and leaves
    every row, hence the number of sessions, as it was.  (The store
    reads no date in the empty text.) *)
Theorem create_session_conflict (date_in : string -> option Z) (now : Z)
  (date : option string) (d : Later.db) :
  let (rep, d') := Later.post_api_sessions date_in now date d in
  (truthy_string date = false ->
   rep = Json 400 (error_ "Session date is required") /\ d' = d)
  /\
  (date_in ""%string = None ->
   forall s day,
     date = Some s -> date_in s = Some day ->
     existsb (fun r => Later.Session.session_date r =? day)
             (Later.sessions (Later.tables d)) = true ->
     rep = Json 400 (error_ ("Session for date " ++ quoted s
                             ++ " already exists")%string) /\
     Later.tables d' = Later.tables d /\
     Later.total_sessions d' = Later.total_sessions d).
Proof.
  unfold Later.post_api_sessions.
  destruct (truthy_string date) eqn:V; simpl.
  - assert (Hins : forall s day,
               date = Some s -> date_in s = Some day ->
               existsb (fun r => Later.Session.session_date r =? day)
                       (Later.sessions (Later.tables d)) = true ->
               exists c, Later.insert_into_sessions date_in now date
                           (Later.tables d) (Later.serials d)
                         = (Err (unique_violation c), Later.tables d,
                            Later.with_sessions_id_seq
                              (Later.sessions_id_seq (Later.serials d) + 1)
                              (Later.serials d))).
    { intros s day -> Hs Hex.
      unfold Later.insert_into_sessions, nextval. simpl. rewrite Hs. simpl.
      rewrite Hex. destruct (Later.session_exists _ _); eauto. }
    destruct (Later.insert_into_sessions date_in now date
                (Later.tables d) (Later.serials d)) as [[[k|e] t] s'] eqn:E.
    + split; [discriminate|]. intros _ s day Hd Hs Hex.
      destruct (Hins s day Hd Hs Hex) as [c Hc]. congruence.
    + assert (Hgoal : forall s day,
                 date = Some s -> date_in s = Some day ->
                 existsb (fun r => Later.Session.session_date r =? day)
                         (Later.sessions (Later.tables d)) = true ->
                 String.eqb (code e) "23505" = true).
      { intros s day Hd Hs Hex. destruct (Hins s day Hd Hs Hex) as [c Hc].
        assert (He : e = unique_violation c) by congruence.
        rewrite He. reflexivity. }
      destruct (String.eqb (code e) "23505") eqn:Ec.
      * split; [discriminate|]. intros _ s day Hd Hs Hex. subst date. simpl. auto.
      * split; [discriminate|]. intros _ s day Hd Hs Hex.
        specialize (Hgoal s day Hd Hs Hex). discriminate.
  - split; [auto|]. intros He s day -> Hs Hex. exfalso.
    simpl in V. apply negb_false_iff in V. apply String.eqb_eq in V.
    subst s. congruence.
Qed.

Example create_session_conflict_scenario :
  fst (Later.post_api_sessions Scenario.march_first 4 (Some "2024-03-01")
         Scenario.after_opening)
  = Json 400 (error_ ("Session for date " ++ quoted "2024-03-01"
                      ++ " already exists")%string).
Proof. vm_compute. reflexivity. Qed.

(** ** C5: the averages of the roster *)

Lemma round_nonneg (a b : Z) : 0 <= a -> 0 < b ->
  round_half_away a b = (2 * a + b) / (2 * b).
Proof.
  intros Ha Hb. unfold round_half_away. rewrite Z.abs_eq by lia.
  destruct (Z.eq_dec a 0) as [->|Hn].
  - replace ((2 * 0 + b) / (2 * b)) with 0
      by (symmetry; apply Z.div_small; lia).
    reflexivity.
  - rewrite Z.sgn_pos by lia. lia.
Qed.

Lemma round_opp (a b : Z) : round_half_away (- a) b = - round_half_away a b.
Proof. unfold round_half_away. rewrite Z.sgn_opp, Z.abs_opp. lia. Qed.

Lemma round_bounds (a b : Z) : 0 <= a -> 0 < b ->
  2 * b * round_half_away a b <= 2 * a + b
  < 2 * b * round_half_away a b + 2 * b.
Proof.
  intros Ha Hb. rewrite round_nonneg by lia.
  pose proof (Z.div_mod (2 * a + b) (2 * b) ltac:(lia)).
  pose proof (Z.mod_pos_bound (2 * a + b) (2 * b) ltac:(lia)). lia.
Qed.

Lemma round_unique (a b r : Z) : 0 < b ->
  2 * b * r <= 2 * a + b < 2 * b * r + 2 * b -> (2 * a + b) / (2 * b) = r.
Proof.
  intros Hb H. symmetry.
  apply Z.div_unique with (r := 2 * a + b - 2 * b * r); lia.
Qed.

Lemma round_scale (c a b : Z) : 0 < c -> 0 < b ->
  round_half_away (c * a) (c * b) = round_half_away a b.
Proof.
  intros Hc Hb. unfold round_half_away.
  rewrite Z.sgn_mul, Z.abs_mul, (Z.sgn_pos c), (Z.abs_eq c) by lia.
  replace (2 * (c * Z.abs a) + c * b) with (c * (2 * Z.abs a + b)) by lia.
  replace (2 * (c * b)) with (c * (2 * b)) by lia.
  rewrite Z.div_mul_cancel_l by lia. lia.
Qed.

(** Rounding to many digits first and to hundredths next is rounding to
    hundredths, as long as the first rounding keeps more digits than the
    divisor has. *)
Lemma double_rounding_nonneg (t n K' : Z) : 0 <= t -> 0 < n -> n < 2 * K' ->
  round_half_away (round_half_away (100 * t * (2 * K')) n) (2 * K')
  = round_half_away (100 * t) n.
Proof.
  intros Ht Hn HK.
  pose proof (@round_bounds (100 * t * (2 * K')) n ltac:(nia) Hn) as B1.
  pose proof (@round_bounds (100 * t) n ltac:(lia) Hn) as B2.
  set (q := round_half_away (100 * t * (2 * K')) n) in *.
  set (R := round_half_away (100 * t) n) in *.
  assert (0 <= q).
  { unfold q. rewrite round_nonneg by nia. apply Z.div_pos; nia. }
  rewrite round_nonneg by lia.
  apply round_unique; [lia|].
  split.
  - assert (n * (K' * (2 * R - 1)) <= 100 * t * (2 * K')) by nia.
    nia.
  - assert (200 * t + 1 <= n * (2 * R + 1)) by lia.
    assert (100 * t * (2 * K') + K' <= n * (K' * (2 * R + 1))) by nia.
    nia.
Qed.

Lemma double_rounding (t n K' : Z) : 0 < n -> n < 2 * K' ->
  round_half_away (round_half_away (100 * t * (2 * K')) n) (2 * K')
  = round_half_away (100 * t) n.
Proof.
  intros Hn HK. destruct (Z_le_gt_dec 0 t) as [Ht | Ht].
  - apply double_rounding_nonneg; assumption.
  - replace (100 * t * (2 * K')) with (- (100 * (- t) * (2 * K'))) by lia.
    replace (100 * t) with (- (100 * (- t))) by lia.
    rewrite !round_opp. f_equal.
    apply double_rounding_nonneg; lia.
Qed.

Lemma round_nearest (t n : Z) : 0 < n ->
  nearest_hundredth t n (round_half_away (100 * t) n).
Proof.
  intros Hn. unfold nearest_hundredth.
  destruct (Z_le_gt_dec 0 t) as [Ht | Ht].
  - pose proof (@round_bounds (100 * t) n ltac:(lia) Hn) as B.
    set (r := round_half_away (100 * t) n) in *. split; [lia|].
    intros He. assert (0 < r) by nia. lia.
  - replace (100 * t) with (- (100 * (- t))) by lia. rewrite round_opp.
    pose proof (@round_bounds (100 * (- t)) n ltac:(lia) Hn) as B.
    set (r := round_half_away (100 * (- t)) n) in *. split; [lia|].
    intros He. assert (0 < r) by nia. lia.
Qed.

Lemma pow10_split (rs : nat) : (3 <= rs)%nat ->
  pow10 rs = 100 * pow10 (rs - 2) /\
  pow10 (rs - 2) = 2 * (5 * pow10 (rs - 3)) /\ 0 < pow10 (rs - 3).
Proof.
  intros H. unfold pow10.
  replace (Z.of_nat rs) with (2 + Z.of_nat (rs - 2)) by lia.
  replace (Z.of_nat (rs - 2)) with (1 + Z.of_nat (rs - 3)) by lia.
  rewrite !Z.pow_add_r by lia.
  pose proof (Z.pow_pos_nonneg 10 (Z.of_nat (rs - 3)) ltac:(lia) ltac:(lia)).
  change (10 ^ 2) with 100. change (10 ^ 1) with 10. lia.
Qed.

Section Averages.

Variable collate_le : string -> string -> bool.
Variable select_div_scale : numeric -> numeric -> nat.

(** The store computes the quotient of an INTEGER counter by an INTEGER
    count to at least sixteen significant digits: more fractional digits,
    beyond the two that are kept, than the count has digits. *)
Hypothesis enough_digits :
  forall t n, 0 < n -> in_int4 n = true ->
    (3 <= select_div_scale (numeric_mul (numeric_of_int t) one_point_zero)
                           (numeric_of_int n))%nat /\
    n < pow10 (select_div_scale (numeric_mul (numeric_of_int t) one_point_zero)
                                (numeric_of_int n) - 2).

Lemma avg_per_session_value (t n : Z) : 0 < n -> in_int4 n = true ->
  Directory.avg_per_session select_div_scale (Some t) (Some n)
  = Ok (Some {| unscaled := round_half_away (100 * t) n; scale := 2 |}).
Proof.
  intros Hn Hr. destruct (enough_digits t Hn Hr) as [H3 HK].
  unfold Directory.avg_per_session.
  destruct (0 <? n) eqn:E; [|lia].
  set (rs := select_div_scale _ _) in *.
  unfold numeric_div, numeric_mul, numeric_of_int, one_point_zero. simpl unscaled.
  destruct (n =? 0) eqn:E0; [lia|]. simpl rbind. unfold numeric_round.
  simpl scale. simpl unscaled.
  destruct (Nat.leb rs 2) eqn:El; [apply Nat.leb_le in El; lia|].
  do 2 f_equal. f_equal.
  destruct (pow10_split H3) as (P1 & P2 & P3). fold rs in P1, P2, P3.
  rewrite Z.sgn_pos, Z.abs_eq by lia.
  change (pow10 0) with 1. change (pow10 (0 + 1)) with 10.
  change (pow10 1) with 10.
  replace (1 * (t * 10) * 1 * pow10 rs) with (10 * (t * pow10 rs)) by lia.
  replace (n * 10) with (10 * n) by lia.
  rewrite round_scale by lia.
  rewrite P1, P2.
  replace (t * (100 * (2 * (5 * pow10 (rs - 3)))))
    with (100 * t * (2 * (5 * pow10 (rs - 3)))) by lia.
  apply double_rounding; lia.
Qed.

Lemma avg_per_session_specified (total count : option Z) :
  (forall n, count = Some n -> in_int4 n = true) ->
  exists avg,
    Directory.avg_per_session select_div_scale total count = Ok avg /\
    average_as_specified total count avg.
Proof.
  intros Hty. destruct count as [n|].
  - destruct (Z_lt_le_dec 0 n) as [Hn | Hn].
    + destruct total as [t|].
      * eexists. split; [apply avg_per_session_value; auto|].
        split; [|intros H; inversion H; lia].
        intros t' n' Ht' Hn' _. inversion Ht'; inversion Hn'; subst.
        eexists. split; [reflexivity|]. apply round_nearest; assumption.
      * exists None. unfold Directory.avg_per_session.
        destruct (0 <? n) eqn:E; [|lia].
        split; auto. split; [discriminate | intros H; inversion H; lia].
    + exists (Some (numeric_of_int 0)). unfold Directory.avg_per_session.
      destruct (0 <? n) eqn:E; [lia|].
      split; auto. split; [|auto].
      intros t' n' _ Hn' Hpos. inversion Hn'; lia.
  - exists (Some (numeric_of_int 0)). simpl. split; auto.
    split; discriminate.
Qed.

Lemma order_by_full_name_perm (l : list Player.row) :
  Permutation (Directory.order_by_full_name collate_le l) l.
Proof.
  assert (Hins : forall p l0, Permutation (Directory.insert_by_name collate_le p l0)
                                          (p :: l0)).
  { intros p l0. induction l0 as [|q l0 IH]; simpl; auto.
    destruct (collate_le _ _); auto.
    rewrite IH. apply perm_swap. }
  induction l as [|p l IH]; simpl; auto.
  rewrite Hins. auto.
Qed.

Lemma select_with_stats_specified (l : list Player.row) :
  (forall p n, In p l -> Player.sessions_attended_count p = Some n ->
               in_int4 n = true) ->
  exists rs,
    Directory.select_with_stats select_div_scale l = Ok rs /\
    map PlayerStats.player rs = l /\
    forall row, In row rs ->
      average_as_specified
        (Player.total_points_scored (PlayerStats.player row))
        (Player.sessions_attended_count (PlayerStats.player row))
        (PlayerStats.avg_points_per_session row) /\
      average_as_specified
        (Player.total_saves (PlayerStats.player row))
        (Player.sessions_attended_count (PlayerStats.player row))
        (PlayerStats.avg_saves_per_session row).
Proof.
  induction l as [|p l IH]; intros Hty.
  - exists []. simpl. split; [reflexivity|]. split; [reflexivity|]. intros row [].
  - destruct IH as (rs & Hrs & Hmap & Hspec).
    { intros q n Hq. apply Hty. right; assumption. }
    destruct (@avg_per_session_specified (Player.total_points_scored p)
                (Player.sessions_attended_count p)) as (ap & Hap & Sap).
    { intros n. apply Hty. left; reflexivity. }
    destruct (@avg_per_session_specified (Player.total_saves p)
                (Player.sessions_attended_count p)) as (asv & Hasv & Sasv).
    { intros n. apply Hty. left; reflexivity. }
    eexists. simpl. unfold Directory.with_stats. rewrite Hap, Hasv. simpl.
    rewrite Hrs. simpl. split; [reflexivity|]. simpl. split; [congruence|].
    intros row [<- | Hin]; simpl; auto.
Qed.

(** C5.  The roster with statistics is always served (status 200, no
    division error), holds the stored players, and gives every player
    two averages as specified: under a positive number of sessions, the
    counter over that number rounded to two decimal places; under a
    number of sessions of 0, exactly 0. *)
Theorem roster_averages_rounded (l : list Player.row) :
  (forall p n, In p l -> Player.sessions_attended_count p = Some n ->
               in_int4 n = true) ->
  exists rs,
    Directory.get_api_players collate_le select_div_scale l
      = Json 200 (players_ rs) /\
    Permutation (map PlayerStats.player rs) l /\
    forall row, In row rs ->
      average_as_specified
        (Player.total_points_scored (PlayerStats.player row))
        (Player.sessions_attended_count (PlayerStats.player row))
        (PlayerStats.avg_points_per_session row) /\
      average_as_specified
        (Player.total_saves (PlayerStats.player row))
        (Player.sessions_attended_count (PlayerStats.player row))
        (PlayerStats.avg_saves_per_session row).
Proof.
  intros Hty.
  destruct (@select_with_stats_specified (Directory.order_by_full_name collate_le l))
    as (rs & Hrs & Hmap & Hspec).
  { intros p n Hp. apply Hty.
    eapply Permutation_in; [apply order_by_full_name_perm | exact Hp]. }
  exists rs. unfold Directory.get_api_players. rewrite Hrs.
  split; [reflexivity|]. split; [|exact Hspec].
  rewrite Hmap. apply order_by_full_name_perm.
Qed.

End Averages.

Lemma sixteen_digits (t n : Z) : 0 < n -> in_int4 n = true ->
  (3 <= 16)%nat /\ n < pow10 (16 - 2).
Proof.
  intros _ H. split; [lia|].
  unfold in_int4, int4_max in H. apply andb_true_iff in H. destruct H as [_ H].
  apply Z.leb_le in H. change (pow10 (16 - 2)) with 100000000000000. lia.
Qed.

Lemma roster_averages_rounded_witness :
  exists rs,
    Directory.get_api_players (fun _ _ => true) (fun _ _ => 16%nat) Scenario.roster
      = Json 200 (players_ rs) /\
    Permutation (map PlayerStats.player rs) Scenario.roster /\
    forall row, In row rs ->
      average_as_specified
        (Player.total_points_scored (PlayerStats.player row))
        (Player.sessions_attended_count (PlayerStats.player row))
        (PlayerStats.avg_points_per_session row) /\
      average_as_specified
        (Player.total_saves (PlayerStats.player row))
        (Player.sessions_attended_count (PlayerStats.player row))
        (PlayerStats.avg_saves_per_session row).
Proof.
  apply (@roster_averages_rounded (fun _ _ => true) (fun _ _ => 16%nat)
           sixteen_digits Scenario.roster).
  intros p n [<- | []] H. inversion H. reflexivity.
Defined.

(** Ann after the opening averages 10.00 points and 2.00 saves over her
    one session; before any statistics her averages are exactly 0. *)
Example averages_scenario :
  map (fun r => (PlayerStats.avg_points_per_session r,
                 PlayerStats.avg_saves_per_session r))
      match Directory.select_with_stats (fun _ _ => 16%nat) Scenario.roster with
      | Ok rs => rs
      | Err _ => []
      end
  = [ (Some {| unscaled := 1000; scale := 2 |},
       Some {| unscaled := 200; scale := 2 |}) ]
  /\
  map (fun r => (PlayerStats.avg_points_per_session r,
                 PlayerStats.avg_saves_per_session r))
      match Directory.select_with_stats (fun _ _ => 16%nat)
              (Later.players (Later.tables Scenario.before_statistics)) with
      | Ok rs => rs
      | Err _ => []
      end
  = [ (Some (numeric_of_int 0), Some (numeric_of_int 0)) ].
Proof. vm_compute. split; reflexivity. Qed.

(** ** The Session Ledger invariant along a run *)

Lemma sum_Z_app (l1 l2 : list Z) : sum_Z (l1 ++ l2) = sum_Z l1 + sum_Z l2.
Proof. induction l1 as [|x l1 IH]; simpl; lia. Qed.

Lemma sum_Z_map_add {A : Type} (f g : A -> Z) (l : list A) :
  sum_Z (map (fun x => f x + g x) l) = sum_Z (map f l) + sum_Z (map g l).
Proof. induction l as [|x l IH]; simpl; lia. Qed.

Lemma sum_Z_map_zero {A : Type} (f : A -> Z) (l : list A) :
  (forall x, In x l -> f x = 0) -> sum_Z (map f l) = 0.
Proof.
  induction l as [|x l IH]; simpl; auto. intros H.
  rewrite (H x), IH by auto. reflexivity.
Qed.

(** Among distinct keys exactly one is a given member. *)
Lemma sum_Z_indicator (k : Z) (ids : list Z) :
  NoDup ids -> In k ids ->
  sum_Z (map (fun i => if k =? i then 1 else 0) ids) = 1.
Proof.
  induction ids as [|i ids IH]; simpl; [tauto|]. intros Hnd Hin.
  inversion Hnd as [|? ? Hni Hnd']; subst.
  destruct (k =? i) eqn:E.
  - assert (k = i) by lia. subst i.
    rewrite sum_Z_map_zero; [lia|]. intros x Hx.
    destruct (k =? x) eqn:E'; auto. assert (k = x) by lia. subst x. contradiction.
  - destruct Hin as [-> | Hin]; [lia|]. rewrite IH; auto.
Qed.

(** Counting the rows that pass [g], player by player. *)
Lemma count_by_player {A : Type} (f : A -> Z) (g : A -> bool) (ids : list Z)
  (l : list A) :
  NoDup ids -> (forall r, In r l -> In (f r) ids) ->
  sum_Z (map (fun i => Z.of_nat (List.length
                         (filter g (filter (fun r => f r =? i) l)))) ids)
  = Z.of_nat (List.length (filter g l)).
Proof.
  intros Hnd. induction l as [|r l IH]; intros Hin.
  - simpl. apply sum_Z_map_zero. auto.
  - specialize (IH (fun r0 H => Hin r0 (or_intror H))).
    assert (Hr : In (f r) ids) by (apply Hin; left; reflexivity).
    transitivity
      (sum_Z (map (fun i =>
                     Z.of_nat (List.length
                        (filter g (filter (fun r0 => f r0 =? i) l)))
                     + (if g r then (if f r =? i then 1 else 0) else 0)) ids)).
    + f_equal. apply map_ext. intros i. simpl.
      destruct (f r =? i); simpl; destruct (g r); simpl; lia.
    + rewrite sum_Z_map_add, IH. simpl. destruct (g r); simpl.
      * rewrite sum_Z_indicator by assumption. lia.
      * rewrite sum_Z_map_zero by auto. lia.
Qed.

Lemma aggregates_no_fact (p : Z) (l : list Later.PlayerSession.row) :
  Later.sessions_of p l = [] -> Ledger.aggregates p l = zero_counters.
Proof. unfold Ledger.aggregates. intros ->. reflexivity. Qed.

(** C6's arithmetic: under the invariant, the facts with the MVP flag
    are as many as the MVP counters add up to. *)
Lemma invariant_total_mvps (d : Later.db) :
  Ledger.invariant (Later.tables d) ->
  Later.total_mvps d = Ledger.sum_mvp_counters d.
Proof.
  intros (Hk & Hr & Ha).
  unfold Later.total_mvps, Ledger.sum_mvp_counters, sql_count.
  set (pl := Later.players (Later.tables d)) in *.
  set (fa := Later.player_sessions (Later.tables d)) in *.
  rewrite <- (@count_by_player _ Later.PlayerSession.player_id
                (fun r => is_true (Later.PlayerSession.mvp_award r))
                (map Player.id pl) fa Hk).
  - rewrite map_map. f_equal. apply map_ext_in. intros q Hq.
    specialize (Ha (Player.id q) q Hq eq_refl).
    apply (f_equal Player.c_mvp_awards_count) in Ha. simpl in Ha.
    rewrite Ha. reflexivity.
  - intros r Hin. specialize (Hr r Hin). apply player_exists_In in Hr.
    destruct Hr as (q & Hq & <-). apply in_map. exact Hq.
Qed.

Lemma player_exists_map_id (k : Z) (l l' : list Player.row) :
  map Player.id l' = map Player.id l -> player_exists k l' = player_exists k l.
Proof.
  unfold player_exists. revert l'.
  induction l as [|q l IH]; intros [|q' l'] H; simpl in *; try discriminate; auto.
  inversion H as [[H1 H2]]. rewrite H1, (IH l' H2). reflexivity.
Qed.

Lemma map_id_profile (now key : Z) (pid fn : string) (c : PlayerBody.t)
  (l : list Player.row) :
  map Player.id (map (fun p => if Player.id p =? key
                               then set_profile now pid fn c p else p) l)
  = map Player.id l.
Proof.
  rewrite map_map. apply map_ext. intros q.
  destruct (Player.id q =? key); reflexivity.
Qed.

Lemma map_id_counters (now key : Z) (c : Player.counters) (l : list Player.row) :
  map Player.id (map (fun q => if Player.id q =? key
                               then Player.set_counters now c q else q) l)
  = map Player.id l.
Proof.
  rewrite map_map. apply map_ext. intros q.
  destruct (Player.id q =? key); reflexivity.
Qed.

(** The invariant reads the players and the facts only. *)
Lemma invariant_same_rows (t t' : Later.data) :
  Later.players t' = Later.players t ->
  Later.player_sessions t' = Later.player_sessions t ->
  Ledger.invariant t -> Ledger.invariant t'.
Proof.
  unfold Ledger.invariant, Ledger.keys_distinct, Ledger.facts_reference_players,
    Ledger.counters_agree.
  intros -> ->. auto.
Qed.

Lemma invariant_create (now : Z) (b : PlayerBody.t) (d d' : Later.db) (rep : reply) :
  Later.post_api_players now b d = (rep, d') ->
  Ledger.invariant (Later.tables d) -> Ledger.invariant (Later.tables d').
Proof.
  unfold Later.post_api_players.
  destruct (Directory.post_api_players _ _ _ _) as [[rep0 l] n] eqn:E.
  intros H; inversion H; subst; clear H. apply post_api_players_cases in E.
  destruct E as [[-> _] | (row & -> & _ & _ & Hid & Hnew & _ & Hzero)].
  { apply invariant_same_rows; reflexivity. }
  intros (Hk & Hr & Ha). unfold Ledger.invariant, Ledger.keys_distinct,
    Ledger.facts_reference_players. simpl.
  set (pl := Later.players (Later.tables d)) in *.
  set (fa := Later.player_sessions (Later.tables d)) in *.
  split; [|split].
  - rewrite map_app. apply NoDup_app; auto.
    + simpl. constructor; [tauto | constructor].
    + intros k Hin [<- | []]. apply in_map_iff in Hin.
      destruct Hin as (q & Hq1 & Hq2).
      assert (player_exists (Player.id row) pl = true)
        by (apply player_exists_In; eauto).
      congruence.
  - intros r Hin. unfold player_exists. rewrite existsb_app.
    apply orb_true_iff. left. apply Hr. exact Hin.
  - intros p. apply agree_view. unfold Ledger.counters_at. simpl.
    rewrite filter_app, map_app. apply Forall_app. split.
    + apply agree_view. apply Ha.
    + simpl. destruct (Player.id row =? p) eqn:Ep; simpl; constructor; auto.
      rewrite Hzero. symmetry. apply aggregates_no_fact.
      unfold Later.sessions_of. apply filter_none. intros r Hin.
      destruct (Later.PlayerSession.player_id r =? p) eqn:Er; auto.
      specialize (Hr r Hin).
      assert (Later.PlayerSession.player_id r
              = Later.players_id_seq (Later.serials d)) by lia.
      unfold pl in Hnew. congruence.
Qed.

Lemma invariant_update (now key : Z) (b : PlayerBody.t) (d d' : Later.db)
  (rep : reply) :
  Later.put_api_players_id now key b d = (rep, d') ->
  Ledger.invariant (Later.tables d) -> Ledger.invariant (Later.tables d').
Proof.
  unfold Later.put_api_players_id.
  destruct (Directory.put_api_players_id _ _ _ _) as [rep0 l] eqn:E.
  intros H; inversion H; subst; clear H. apply put_api_players_id_cases in E.
  destruct E as [-> | (pid & fn & c & ->)].
  { apply invariant_same_rows; reflexivity. }
  intros (Hk & Hr & Ha). unfold Ledger.invariant, Ledger.keys_distinct,
    Ledger.facts_reference_players. simpl.
  split; [|split].
  - rewrite map_id_profile. exact Hk.
  - intros r Hin. rewrite (@player_exists_map_id _ _ _ (@map_id_profile _ _ _ _ _ _)).
    apply Hr. exact Hin.
  - intros p. apply (agree_same_view p (Later.tables d)); auto.
    apply counters_at_profile.
Qed.

Lemma invariant_delete (key : Z) (d d' : Later.db) (rep : reply) :
  Later.delete_api_players_id key d = (rep, d') ->
  Ledger.invariant (Later.tables d) -> Ledger.invariant (Later.tables d').
Proof.
  unfold Later.delete_api_players_id.
  destruct (Later.delete_from_players _ _ _) as [[[n|e] t] s] eqn:E.
  2: { intros H; inversion H; subst. auto. }
  apply delete_from_players_cases in E. destruct E as [-> E].
  intros H. assert (Later.tables d' = t)
    by (destruct (n =? 0); inversion H; reflexivity).
  subst t. clear H. destruct E as [-> | ->]; auto.
  intros (Hk & Hr & Ha). unfold Ledger.invariant, Ledger.keys_distinct,
    Ledger.facts_reference_players. simpl.
  split; [|split].
  - apply NoDup_map_filter. exact Hk.
  - intros r Hin. apply filter_In in Hin. destruct Hin as [Hin Hne].
    specialize (Hr r Hin). apply player_exists_In in Hr.
    destruct Hr as (q & Hq & Hid). apply player_exists_In. exists q.
    split; auto. apply filter_In. split; auto.
    rewrite Hid. exact Hne.
  - intros p. destruct (Z.eq_dec p key) as [-> | Hne].
    + apply agree_view. unfold Ledger.counters_at. simpl.
      assert (Hnil : filter (fun q => Player.id q =? key)
                       (filter (fun p => negb (Player.id p =? key))
                               (Later.players (Later.tables d))) = []).
      { apply filter_none. intros q Hq. apply filter_In in Hq.
        destruct Hq as [_ Hq]. apply negb_true_iff in Hq. exact Hq. }
      rewrite Hnil. constructor.
    + apply (agree_same_view p (Later.tables d)); auto;
        unfold Ledger.counters_at, Ledger.facts_at, Later.sessions_of; simpl;
        [f_equal|]; apply filter_filter_implied; intros x Hx;
        apply negb_true_iff; lia.
Qed.

Lemma invariant_recording (now : Z) (b : Later.StatsBody.t)
  (fs : list (option pg_error)) (d d' : Later.db) (rep : reply) :
  Later.post_api_player_sessions now b fs d = (rep, d') ->
  Ledger.invariant (Later.tables d) -> Ledger.invariant (Later.tables d').
Proof.
  intros H Hinv. pose proof (recording_cases _ _ _ _ H) as Hc.
  destruct Hc as [(p0 & t1 & s1 & n & t2 & Hp0 & E1 & E2 & Hrep & Hd') | [Ht _]].
  2: { rewrite Ht. exact Hinv. }
  destruct Hinv as (Hk & Hr & Ha).
  assert (Hagree : forall p, Ledger.counters_agree p (Later.tables d')).
  { intros p. destruct (Z.eq_dec p p0) as [-> | Hne].
    - eapply recording_establishes; eauto. rewrite Hrep. reflexivity.
    - destruct (recording_leaves _ _ _ _ H (p := p)) as [Hc Hf]; [congruence|].
      apply (agree_same_view p (Later.tables d)); auto. }
  subst d'. simpl in *.
  apply upsert_ok in E1. destruct E1 as (p1 & se & Hp1 & _ & Hpl1 & _ & Hf1).
  inversion Hp1; subst p1.
  apply update_stats_ok in E2. destruct E2 as (_ & _ & Hf2 & Hpl2).
  unfold Ledger.invariant, Ledger.keys_distinct, Ledger.facts_reference_players.
  rewrite Hpl2, Hf2, Hpl1. split; [|split; [|exact Hagree]].
  - rewrite map_id_counters. exact Hk.
  - intros r Hin. rewrite (@player_exists_map_id _ _ _ (@map_id_counters _ _ _ _)).
    destruct Hf1 as [[_ Hf1] | (_ & Hex & Hf1)]; rewrite Hf1 in Hin.
    + apply in_map_iff in Hin. destruct Hin as (r0 & <- & Hin).
      destruct (Later.same_pair p0 se r0); apply (Hr r0 Hin).
    + apply in_app_or in Hin. destruct Hin as [Hin | [<- | []]]; auto.
Qed.

Section Run.

Variable date_in : string -> option Z.

Lemma invariant_serve (now : Z) (r : Later.request) (d d' : Later.db) (rep : reply) :
  Later.serve date_in now r d = (rep, d') ->
  ~ Ledger.is_repair r ->
  Ledger.invariant (Later.tables d) -> Ledger.invariant (Later.tables d').
Proof.
  destruct r as [b|key b|key|date|b fs|]; simpl; intros H Hnr.
  - eapply invariant_create; eauto.
  - eapply invariant_update; eauto.
  - eapply invariant_delete; eauto.
  - apply post_api_sessions_rows in H. destruct H as [Hp Hf].
    apply invariant_same_rows; assumption.
  - eapply invariant_recording; eauto.
  - exfalso. apply Hnr. exact I.
Qed.

Lemma invariant_serve_all (rs : list (Z * Later.request)) (d d' : Later.db)
  (reps : list reply) :
  Later.serve_all date_in rs d = (reps, d') ->
  Forall (fun c => ~ Ledger.is_repair (snd c)) rs ->
  Ledger.invariant (Later.tables d) -> Ledger.invariant (Later.tables d').
Proof.
  revert d reps. induction rs as [|[now r] rs IH]; simpl; intros d reps H Hall Hinv.
  - inversion H; subst. exact Hinv.
  - inversion Hall as [|? ? Hr Hall']; subst. simpl in Hr.
    destruct (Later.serve date_in now r d) as [rep d1] eqn:E1.
    destruct (Later.serve_all date_in rs d1) as [reps' d2] eqn:E2.
    inversion H; subst. eapply IH; eauto. eapply invariant_serve; eauto.
Qed.

End Run.

Lemma invariant_initially : Ledger.invariant (Later.tables (Later.initializeDatabase None)).
Proof.
  unfold Ledger.invariant, Ledger.keys_distinct, Ledger.facts_reference_players,
    Ledger.counters_agree. simpl.
  split; [constructor | split; intros; contradiction].
Qed.

(** ** C6: the two counts of MVP awards *)

(** C6, as amended.  In every store reached from the empty one by
    requests of the later revision none of which is POST
    /api/repair-database (and with no restart of the service in
    between), the dashboard's count of facts with the MVP flag equals
    the sum of the players' stored MVP counters. *)
Theorem total_mvps_agree (date_in : string -> option Z)
  (rs : list (Z * Later.request)) (reps : list reply) (d : Later.db) :
  Later.serve_all date_in rs (Later.initializeDatabase None) = (reps, d) ->
  Forall (fun c => ~ Ledger.is_repair (snd c)) rs ->
  Later.total_mvps d = Ledger.sum_mvp_counters d.
Proof.
  intros H Hall. apply invariant_total_mvps.
  eapply invariant_serve_all; eauto. apply invariant_initially.
Qed.

Lemma total_mvps_agree_witness :
  Later.total_mvps Scenario.after_opening
  = Ledger.sum_mvp_counters Scenario.after_opening.
Proof.
  apply (@total_mvps_agree Scenario.march_first Scenario.opening
           Scenario.replies_opening Scenario.after_opening).
  - vm_compute. reflexivity.
  - repeat (constructor; [simpl; tauto|]). constructor.
Defined.

(** C6 as stated fails: POST /api/repair-database, and likewise the
    start of the service, drop the facts and keep the counters; Ann's
    award is then counted by her counter and by no fact. *)
Lemma total_mvps_agree_counterexample :
  Later.total_mvps (snd (Later.post_api_repair_database Scenario.after_opening)) = 0
  /\ Ledger.sum_mvp_counters
       (snd (Later.post_api_repair_database Scenario.after_opening)) = 1
  /\ Later.total_mvps (Later.initializeDatabase (Some Scenario.after_opening)) = 0
  /\ Ledger.sum_mvp_counters
       (Later.initializeDatabase (Some Scenario.after_opening)) = 1.
Proof. vm_compute. repeat split; reflexivity. Qed.

(** ** C9: the repair endpoint *)

(** Facts gone and a counter left: the state the repair puts a player in. *)
Lemma stranded_drifts (p : Z) (t : Later.data) :
  Ledger.facts_at p t = [] ->
  Exists (fun c => c <> zero_counters) (Ledger.counters_at p t) ->
  Ledger.counters_drift p t.
Proof.
  intros Hf Hc. apply drift_view.
  rewrite (aggregates_no_fact p _ Hf). exact Hc.
Qed.

Lemma counters_at_exists (p : Z) (t : Later.data) :
  Exists (fun c => c <> zero_counters) (Ledger.counters_at p t) ->
  player_exists p (Later.players t) = true.
Proof.
  intros H. apply Exists_exists in H. destruct H as (c & Hc & _).
  apply in_map_iff in Hc. destruct Hc as (q & _ & Hq).
  apply filter_In in Hq. destruct Hq as [Hq E].
  apply player_exists_In. exists q. split; auto. lia.
Qed.

Lemma agree_not_drift (p : Z) (t : Later.data) :
  Ledger.counters_agree p t -> ~ Ledger.counters_drift p t.
Proof. intros Ha (q & Hq & Hid & Hne). apply Hne. apply Ha; assumption. Qed.

Section Repair.

Variable date_in : string -> option Z.

Lemma stranded_serve (now : Z) (r : Later.request) (d d' : Later.db)
  (rep : reply) (p : Z) :
  Later.serve date_in now r d = (rep, d') ->
  Ledger.not_about p r ->
  Ledger.facts_at p (Later.tables d) = [] ->
  Exists (fun c => c <> zero_counters) (Ledger.counters_at p (Later.tables d)) ->
  Ledger.facts_at p (Later.tables d') = [] /\
  Exists (fun c => c <> zero_counters) (Ledger.counters_at p (Later.tables d')).
Proof.
  intros H Hn Hf Hc.
  destruct (match r with Later.POST_repair_database => true | _ => false end) eqn:Er.
  - destruct r; try discriminate Er. simpl in H. inversion H; subst. simpl.
    split; [reflexivity | exact Hc].
  - assert (Hl : Ledger.leaves_alone p r)
      by (destruct r; simpl in *; auto; discriminate Er).
    destruct (serve_leaves _ _ _ _ _ H Hl (counters_at_exists _ _ Hc)) as [Hc' Hf'].
    rewrite Hc', Hf'. auto.
Qed.

Lemma stranded_serve_all (rs : list (Z * Later.request)) (d d' : Later.db)
  (reps : list reply) (p : Z) :
  Later.serve_all date_in rs d = (reps, d') ->
  Forall (fun c => Ledger.not_about p (snd c)) rs ->
  Ledger.facts_at p (Later.tables d) = [] ->
  Exists (fun c => c <> zero_counters) (Ledger.counters_at p (Later.tables d)) ->
  Ledger.counters_drift p (Later.tables d').
Proof.
  revert d reps. induction rs as [|[now r] rs IH]; simpl; intros d reps H Hall Hf Hc.
  - inversion H; subst. apply stranded_drifts; assumption.
  - inversion Hall as [|? ? Hr Hall']; subst. simpl in Hr.
    destruct (Later.serve date_in now r d) as [rep d1] eqn:E1.
    destruct (Later.serve_all date_in rs d1) as [reps' d2] eqn:E2.
    inversion H; subst.
    destruct (@stranded_serve now r d d1 rep p E1 Hr Hf Hc) as [Hf1 Hc1].
    eapply IH; eauto.
Qed.

(** C9.  Both revisions register POST /api/repair-database, which the
    specified interface does not list.  In the later revision the
    request is answered 200 and leaves no fact, every player row (with
    its four counters) and every session as it was; a stored player with
    a counter other than 0 then has counters that are not the aggregates
    over its facts, and stays so through every later request that is
    neither a recording for that player nor its deletion; the next
    successful recording for the player ends it.  In the earlier
    revision the request changes nothing. *)
Theorem repair_strands_counters :
  (In (POST, "/api/repair-database"%string) Later.routes /\
   In (POST, "/api/repair-database"%string) Earlier.routes /\
   ~ In (POST, "/api/repair-database"%string) specified_interface)
  /\
  (forall d,
      fst (Later.post_api_repair_database d)
      = Json 200 (message_ "Database repaired successfully") /\
      Later.player_sessions (Later.tables (snd (Later.post_api_repair_database d))) = [] /\
      Later.players (Later.tables (snd (Later.post_api_repair_database d)))
      = Later.players (Later.tables d) /\
      Later.sessions (Later.tables (snd (Later.post_api_repair_database d)))
      = Later.sessions (Later.tables d))
  /\
  (forall d q rs reps d',
      In q (Later.players (Later.tables d)) ->
      Player.counters_of q <> zero_counters ->
      Later.serve_all date_in rs (snd (Later.post_api_repair_database d)) = (reps, d') ->
      Forall (fun c => Ledger.not_about (Player.id q) (snd c)) rs ->
      Ledger.counters_drift (Player.id q) (Later.tables d'))
  /\
  (forall now b fs d rep d' p,
      Later.post_api_player_sessions now b fs d = (rep, d') ->
      Later.StatsBody.player_id b = Some p ->
      Ledger.succeeded rep ->
      ~ Ledger.counters_drift p (Later.tables d'))
  /\
  (forall d, Earlier.post_api_repair_database d
             = (Json 200 (message_ "Database repaired successfully"), d)).
Proof.
  split; [|split; [|split; [|split]]].
  - split; [|split].
    + simpl. tauto.
    + simpl. tauto.
    + simpl. intros H.
      repeat (destruct H as [H | H]; [discriminate H|]). exact H.
  - intros d. simpl. auto.
  - intros d q rs reps d' Hq Hne H Hall.
    apply (@stranded_serve_all rs (snd (Later.post_api_repair_database d)) d'
             reps (Player.id q) H Hall).
    + reflexivity.
    + unfold Ledger.counters_at. simpl. apply Exists_exists.
      exists (Player.counters_of q). split; auto.
      apply in_map. apply filter_In. split; auto. apply Z.eqb_refl.
  - intros now b fs d rep d' p H Hp Hok. apply agree_not_drift.
    eapply recording_establishes; eauto.
  - intros d. reflexivity.
Qed.

End Repair.

(** After the opening, the repair strands Ann's counters; creating the
    session of another day changes nothing to that; recording her
    statistics again brings the counters back to the aggregates. *)
Example repair_scenario :
  let repaired :=
    snd (Later.serve_all Scenario.march_first
           [(4, Later.POST_repair_database); (5, Later.POST_sessions (Some "x"))]
           Scenario.after_opening) in
  let recorded :=
    Later.post_api_player_sessions 6 (Scenario.stats 1) [] repaired in
  Ledger.counters_at 1 (Later.tables repaired)
    = [ {| Player.c_total_points_scored := Some 10;
           Player.c_total_saves := Some 2;
           Player.c_mvp_awards_count := Some 1;
           Player.c_sessions_attended_count := Some 1 |} ] /\
  Ledger.aggregates 1 (Later.player_sessions (Later.tables repaired))
    = zero_counters /\
  status_of (fst recorded) = Some 200 /\
  Ledger.counters_at 1 (Later.tables (snd recorded))
    = [ Ledger.aggregates 1 (Later.player_sessions (Later.tables (snd recorded))) ].
Proof. vm_compute. repeat split; reflexivity. Qed.

(** ** The earlier revision: increments, and what they leave *)

(** A recording that carries no points binds NULL to [$1]: the fact is
    stored with NULL points and the counter becomes NULL + 0; from then
    on it stays NULL, whatever is recorded, while the facts add up to 10. *)
Example earlier_increment_drifts :
  let first :=
    Earlier.post_api_sessions Scenario.march_first 2
      {| Earlier.SessionBody.player_id := Some 1;
         Earlier.SessionBody.session_date := Some "2024-03-01";
         Earlier.SessionBody.points_scored := None;
         Earlier.SessionBody.saves := Some 2;
         Earlier.SessionBody.mvp_award := Some true |}
      [] Scenario.earlier_with_ann in
  let second :=
    Earlier.post_api_sessions Scenario.march_first 3
      (Scenario.earlier_stats 10) [] (snd first) in
  status_of (fst first) = Some 200 /\ status_of (fst second) = Some 200 /\
  map Player.total_points_scored (Earlier.players (Earlier.tables (snd second)))
  = [None] /\
  map Earlier.PlayerSession.points_scored
      (Earlier.sessions_of 1 (Earlier.player_sessions (Earlier.tables (snd second))))
  = [None; Some 10].
Proof. vm_compute. repeat split; reflexivity. Qed.

(** ** The update, on the scenario *)

(** With Ann stored under key 1: an update that carries no full name is
    answered 500 with the store's text, as is one that takes the
    identifier of another player; under a key that matches no row the
    nameless update is answered 404, and under one outside INTEGER it is
    answered 500. *)
Example update_player_scenario :
  let two :=
    fst (fst (Directory.post_api_players 5
                {| PlayerBody.player_id := Some "P2";
                   PlayerBody.full_name := Some "Bea";
                   PlayerBody.phone_number := None;
                   PlayerBody.instagram_username := None;
                   PlayerBody.age := None; PlayerBody.skill_level := None |}
                Scenario.roster 2),
         snd (fst (Directory.post_api_players 5
                {| PlayerBody.player_id := Some "P2";
                   PlayerBody.full_name := Some "Bea";
                   PlayerBody.phone_number := None;
                   PlayerBody.instagram_username := None;
                   PlayerBody.age := None; PlayerBody.skill_level := None |}
                Scenario.roster 2))) in
  fst (Directory.put_api_players_id 6 1 Scenario.nameless (snd two))
  = Json 500 (error_ ("null value in column " ++ quoted "full_name"
                      ++ " of relation " ++ quoted "players"
                      ++ " violates not-null constraint")%string) /\
  fst (Directory.put_api_players_id 6 2 Scenario.ann (snd two))
  = Json 500 (error_ ("duplicate key value violates unique constraint "
                      ++ quoted "players_player_id_key")%string) /\
  fst (Directory.put_api_players_id 6 7 Scenario.nameless (snd two))
  = Json 404 (error_ "Player not found") /\
  fst (Directory.put_api_players_id 6 2147483648 Scenario.nameless (snd two))
  = Json 500 (error_ ("value " ++ quoted "2147483648"
                      ++ " is out of range for type integer")%string).
Proof. vm_compute. repeat split; reflexivity. Qed.

(** * Beyond the specification: the rest of the interface *)

(** ** ORDER BY and LIMIT *)

Lemma ordered_cons {A : Type} (before : A -> A -> bool) (a : A) (l : list A) :
  Schema.ordered before (a :: l) <->
  (forall b, In b l -> before a b = true) /\ Schema.ordered before l.
Proof.
  unfold Schema.ordered. split.
  - intros H. split.
    + intros b Hb. apply In_nth_error in Hb. destruct Hb as [n Hn].
      apply (H 0%nat (S n) a b); simpl; auto. lia.
    + intros i j x y Hij Hx Hy. apply (H (S i) (S j)); simpl; auto. lia.
  - intros [Hhd Htl] i j x y Hij Hx Hy.
    destruct j as [|j]; [lia|]. simpl in Hy.
    destruct i as [|i]; simpl in Hx.
    + inversion Hx; subst. apply Hhd. eapply nth_error_In; eauto.
    + apply (Htl i j); auto. lia.
Qed.

Lemma ordered_nil {A : Type} (before : A -> A -> bool) : Schema.ordered before [].
Proof. intros i j a b _ H. destruct i; discriminate H. Qed.

Lemma insert_by_perm {A : Type} (before : A -> A -> bool) (a : A) (l : list A) :
  Permutation (insert_by before a l) (a :: l).
Proof.
  induction l as [|b l IH]; simpl; auto.
  destruct (before a b); auto.
  rewrite IH. apply perm_swap.
Qed.

Lemma order_by_perm {A : Type} (before : A -> A -> bool) (l : list A) :
  Permutation (order_by before l) l.
Proof.
  induction l as [|a l IH]; simpl; auto.
  rewrite insert_by_perm. auto.
Qed.

Lemma In_limit {A : Type} (n : nat) (l : list A) (a : A) :
  In a (firstn n l) -> In a l.
Proof.
  intros H. rewrite <- (firstn_skipn n l). apply in_or_app. auto.
Qed.

Lemma In_skipn {A : Type} (n : nat) (l : list A) (a : A) :
  In a (skipn n l) -> In a l.
Proof.
  intros H. rewrite <- (firstn_skipn n l). apply in_or_app. auto.
Qed.

Section Sorting.

Variable A : Type.
Variable before : A -> A -> bool.
Hypothesis before_total : forall a b, before a b = true \/ before b a = true.
Hypothesis before_trans :
  forall a b c, before a b = true -> before b c = true -> before a c = true.

Lemma insert_by_ordered (a : A) (l : list A) :
  Schema.ordered before l -> Schema.ordered before (insert_by before a l).
Proof.
  induction l as [|b l IH]; simpl; intros Hl.
  - apply ordered_cons. split; [intros b []|apply ordered_nil].
  - apply ordered_cons in Hl. destruct Hl as [Hb Hl].
    destruct (before a b) eqn:E.
    + apply ordered_cons. split.
      * intros x [<- | Hx]; auto. eapply before_trans; eauto.
      * apply ordered_cons. auto.
    + apply ordered_cons. split; [|auto].
      intros x Hx.
      apply (Permutation_in _ (insert_by_perm before a l)) in Hx.
      destruct Hx as [<- | Hx]; auto.
      destruct (before_total a b) as [H | H]; congruence.
Qed.

Lemma order_by_ordered (l : list A) : Schema.ordered before (order_by before l).
Proof.
  induction l as [|a l IH]; simpl.
  - apply ordered_nil.
  - apply insert_by_ordered. exact IH.
Qed.

(** The rows LIMIT keeps come before all the rows it drops. *)
Lemma limit_ordered (n : nat) (l : list A) :
  Schema.ordered before l ->
  Schema.ordered before (limit n l) /\
  forall a b, In a (limit n l) -> In b (skipn n l) -> before a b = true.
Proof.
  unfold limit. revert l. induction n as [|n IH]; intros l Hl; simpl.
  - split; [apply ordered_nil | intros a b []].
  - destruct l as [|x l]; [split; [apply ordered_nil | intros a b []]|].
    apply ordered_cons in Hl. destruct Hl as [Hx Hl].
    destruct (IH l Hl) as [H1 H2]. split.
    + apply ordered_cons. split; auto.
      intros b Hb. apply Hx. eapply In_limit; eauto.
    + intros a b [<- | Ha] Hb; auto.
      apply Hx. eapply In_skipn; eauto.
Qed.

End Sorting.

Lemma ordered_map {A B : Type} (f : A -> B) (before : B -> B -> bool) (l : list A) :
  Schema.ordered (fun a b => before (f a) (f b)) l ->
  Schema.ordered before (map f l).
Proof.
  induction l as [|a l IH]; simpl; intros H.
  - apply ordered_nil.
  - apply ordered_cons in H. destruct H as [Ha Hl].
    apply ordered_cons. split; auto.
    intros b Hb. apply in_map_iff in Hb. destruct Hb as (x & <- & Hx). auto.
Qed.

Lemma order_by_full_name_order_by (collate_le : string -> string -> bool)
  (l : list Player.row) :
  Directory.order_by_full_name collate_le l
  = order_by (fun p q => collate_le (Player.full_name p) (Player.full_name q)) l.
Proof. reflexivity. Qed.

Lemma order_by_full_name_ordered (collate_le : string -> string -> bool)
  (l : list Player.row) :
  Schema.is_order collate_le ->
  Schema.ordered (fun p q => collate_le (Player.full_name p) (Player.full_name q))
                 (Directory.order_by_full_name collate_le l).
Proof.
  intros [Htot Htr]. rewrite order_by_full_name_order_by.
  apply order_by_ordered.
  - intros a b. apply Htot.
  - intros a b c. apply Htr.
Qed.

Lemma select_with_stats_players (scale : numeric -> numeric -> nat)
  (l : list Player.row) (rs : list PlayerStats.row) :
  Directory.select_with_stats scale l = Ok rs -> map PlayerStats.player rs = l.
Proof.
  revert rs. induction l as [|p l IH]; simpl; intros rs H.
  - inversion H. reflexivity.
  - unfold rbind in H.
    destruct (Directory.with_stats scale p) as [r|] eqn:Er; [|discriminate].
    destruct (Directory.select_with_stats scale l) as [rs0|]; [|discriminate].
    inversion H; subst. simpl. rewrite (IH rs0 eq_refl). f_equal.
    unfold Directory.with_stats, rbind in Er.
    destruct (Directory.avg_per_session _ _ _); [|discriminate].
    destruct (Directory.avg_per_session _ _ _); [|discriminate].
    inversion Er. reflexivity.
Qed.

(** X1.  GET /api/players-list answers with every stored player exactly
    once (the eight columns it selects), in the order of the full names,
    and its [count] is the number of stored players. *)
Theorem players_list_sorted_and_counted (collate_le : string -> string -> bool)
  (l : list Player.row) :
  Schema.is_order collate_le ->
  exists rows,
    PlayerQueries.get_api_players_list collate_le (Reads l)
    = Sent {| PlayersList.players := rows; PlayersList.count := sql_count l |} /\
    Permutation rows (map PlayerQueries.list_columns l) /\
    Schema.ordered (fun a b => collate_le (PlayersList.full_name a)
                                          (PlayersList.full_name b)) rows.
Proof.
  intros Hord. eexists. split; [|split].
  - unfold PlayerQueries.get_api_players_list. simpl. do 2 f_equal.
    unfold sql_count. rewrite length_map.
    rewrite order_by_full_name_order_by.
    rewrite (Permutation_length (order_by_perm _ l)).
    reflexivity.
  - apply Permutation_map. rewrite order_by_full_name_order_by.
    apply order_by_perm.
  - apply ordered_map with (before := fun a b =>
      collate_le (PlayersList.full_name a) (PlayersList.full_name b)).
    simpl. apply order_by_full_name_ordered. exact Hord.
Qed.

(** X2.  Whenever GET /api/players is served, its rows are in the order
    of the full names: every row may come before every row listed after
    it. *)
Theorem roster_in_name_order (collate_le : string -> string -> bool)
  (scale : numeric -> numeric -> nat) (l : list Player.row)
  (rs : list PlayerStats.row) :
  Schema.is_order collate_le ->
  Directory.get_api_players collate_le scale l = Json 200 (players_ rs) ->
  Schema.ordered (fun a b => collate_le (Player.full_name (PlayerStats.player a))
                                        (Player.full_name (PlayerStats.player b))) rs.
Proof.
  intros Hord H. unfold Directory.get_api_players in H.
  destruct (Directory.select_with_stats scale _) as [rs0|] eqn:E; [|discriminate].
  inversion H; subst rs0; clear H.
  apply select_with_stats_players in E.
  pose proof (@order_by_full_name_ordered collate_le l Hord) as Ho. rewrite <- E in Ho.
  clear E. induction rs as [|r rs IH]; [apply ordered_nil|].
  simpl in Ho. apply ordered_cons in Ho. destruct Ho as [Hr Ho].
  apply ordered_cons. split; auto.
  intros b Hb. apply Hr. apply in_map. exact Hb.
Qed.

(** ** The constraints of the schema along a run *)

Lemma NoDup_map_snoc {A B : Type} (f : A -> B) (l : list A) (a : A) :
  NoDup (map f l) -> ~ In (f a) (map f l) -> NoDup (map f (l ++ [a])).
Proof.
  intros Hl Ha. rewrite map_app. simpl.
  apply Permutation_NoDup with (l := f a :: map f l).
  - apply Permutation_cons_append.
  - constructor; assumption.
Qed.

Lemma existsb_false_map {A : Type} (f : A -> Z) (k : Z) (l : list A) :
  existsb (fun x => f x =? k) l = false -> ~ In k (map f l).
Proof.
  intros H Hin. apply in_map_iff in Hin. destruct Hin as (x & <- & Hx).
  assert (existsb (fun y => f y =? f x) l = true)
    by (apply existsb_exists; exists x; split; auto; lia).
  congruence.
Qed.

Lemma player_id_free (pid : string) (l : list Player.row) :
  player_id_taken pid l = false -> ~ In pid (map Player.player_id l).
Proof.
  intros H Hin. apply in_map_iff in Hin. destruct Hin as (x & <- & Hx).
  assert (player_id_taken (Player.player_id x) l = true).
  { apply existsb_exists. exists x. split; auto. apply String.eqb_refl. }
  congruence.
Qed.

Lemma player_exists_app (k : Z) (l l' : list Player.row) :
  player_exists k l = true -> player_exists k (l ++ l') = true.
Proof.
  unfold player_exists. rewrite existsb_app. intros ->. reflexivity.
Qed.

Lemma session_exists_app (k : Z) (l l' : list Later.Session.row) :
  Later.session_exists k l = true -> Later.session_exists k (l ++ l') = true.
Proof.
  unfold Later.session_exists. rewrite existsb_app. intros ->. reflexivity.
Qed.

Lemma player_exists_same_ids (k : Z) (l l' : list Player.row) :
  map Player.id l' = map Player.id l ->
  player_exists k l' = player_exists k l.
Proof.
  unfold player_exists. revert l'.
  induction l as [|p l IH]; intros [|p' l'] H; simpl in *; try discriminate; auto.
  inversion H as [[H1 H2]]. rewrite H1, (IH l' H2). reflexivity.
Qed.

Lemma sound_initially : Schema.sound (Later.tables (Later.initializeDatabase None)).
Proof.
  split; simpl; try constructor; intros r [].
Qed.

Lemma sound_create (now : Z) (b : PlayerBody.t) (d d' : Later.db) (rep : reply) :
  Later.post_api_players now b d = (rep, d') ->
  Schema.sound (Later.tables d) -> Schema.sound (Later.tables d').
Proof.
  unfold Later.post_api_players. intros H S.
  destruct (Directory.post_api_players _ _ _ _) as [[rep0 l] n] eqn:E.
  inversion H; subst; clear H. apply post_api_players_cases in E.
  destruct S as [S1 S2 S3 S4 S5 S6 S7 S8].
  destruct E as [[-> _] | (row & -> & _ & _ & Hid & Hnew & Hfree & _)];
    split; simpl; auto.
  - apply NoDup_map_snoc; auto. rewrite Hid.
    apply existsb_false_map with (f := Player.id). exact Hnew.
  - apply NoDup_map_snoc; auto. apply player_id_free. exact Hfree.
  - intros r Hr. apply player_exists_app. auto.
Qed.

Lemma update_players_sound (now key : Z) (b : PlayerBody.t)
  (l l' : list Player.row) (r : result Z) :
  update_players now b key l = (r, l') ->
  l' = l \/
  exists pid fn c,
    player_id_taken pid (filter (fun p => negb (Player.id p =? key)) l) = false /\
    l' = map (fun p => if Player.id p =? key
                       then set_profile now pid fn c p else p) l.
Proof.
  unfold update_players.
  destruct (coerce_update b key) as [[c k]|e] eqn:Ec;
    [|intros H; inversion H; auto].
  apply coerce_update_inv in Ec. destruct Ec as (-> & _ & _).
  destruct (negb (player_exists key l)); [intros H; inversion H; auto|].
  destruct (updated_profile c key l) as [[pid fn]|e] eqn:E;
    intros H; inversion H; subst; auto.
  right. exists pid, fn, c. split; [|reflexivity].
  unfold updated_profile, rbind, not_null in E.
  destruct (PlayerBody.player_id c) as [pid0|]; [|discriminate].
  destruct (PlayerBody.full_name c) as [fn0|]; [|discriminate].
  destruct (check_skill_level (PlayerBody.skill_level c)); [|discriminate].
  destruct (player_id_taken pid0 _) eqn:Et; [discriminate|].
  inversion E; subst. exact Et.
Qed.

Lemma set_profile_ids (now key : Z) (pid fn : string) (c : PlayerBody.t)
  (l : list Player.row) :
  map Player.id (map (fun p => if Player.id p =? key
                               then set_profile now pid fn c p else p) l)
  = map Player.id l.
Proof.
  rewrite map_map. apply map_ext. intros p.
  destruct (Player.id p =? key); reflexivity.
Qed.

Lemma set_profile_player_ids (now key : Z) (pid fn : string) (c : PlayerBody.t)
  (l : list Player.row) :
  NoDup (map Player.id l) -> NoDup (map Player.player_id l) ->
  player_id_taken pid (filter (fun p => negb (Player.id p =? key)) l) = false ->
  NoDup (map Player.player_id
           (map (fun p => if Player.id p =? key
                          then set_profile now pid fn c p else p) l)).
Proof.
  induction l as [|p l IH]; simpl; intros Hk Hi Hfree; [constructor|].
  inversion Hk as [|? ? Hkp Hkl]; subst. inversion Hi as [|? ? Hip Hil]; subst.
  destruct (Player.id p =? key) eqn:E; simpl in Hfree |- *.
  - assert (Hrest : forall q, In q l -> (Player.id q =? key) = false).
    { intros q Hq. apply Z.eqb_neq. intros Heq. apply Hkp.
      apply in_map_iff. exists q. split; auto. lia. }
    assert (Hsame : map (fun q => if Player.id q =? key
                                  then set_profile now pid fn c q else q) l = l).
    { rewrite <- (map_id l) at 2. apply map_ext_in. intros q Hq.
      rewrite (Hrest q Hq). reflexivity. }
    assert (Hfil : filter (fun q => negb (Player.id q =? key)) l = l).
    { clear - Hrest. induction l as [|q l IH]; simpl; auto.
      rewrite (Hrest q) by (left; reflexivity). simpl. f_equal.
      apply IH. intros x Hx. apply Hrest. right; exact Hx. }
    rewrite Hsame. rewrite Hfil in Hfree. constructor; auto.
    apply player_id_free. exact Hfree.
  - apply orb_false_iff in Hfree. destruct Hfree as [Hp Hfree].
    constructor; [|apply IH; auto].
    intros Hin. apply in_map_iff in Hin. destruct Hin as (q' & Hq' & Hin).
    apply in_map_iff in Hin. destruct Hin as (q & <- & Hq).
    destruct (Player.id q =? key); simpl in Hq'.
    + apply String.eqb_neq in Hp. congruence.
    + apply Hip. apply in_map_iff. exists q. auto.
Qed.

Lemma sound_update (now key : Z) (b : PlayerBody.t) (d d' : Later.db)
  (rep : reply) :
  Later.put_api_players_id now key b d = (rep, d') ->
  Schema.sound (Later.tables d) -> Schema.sound (Later.tables d').
Proof.
  unfold Later.put_api_players_id, Directory.put_api_players_id. intros H S.
  destruct (update_players now b key _) as [r l] eqn:E.
  apply update_players_sound in E.
  assert (Hd : Later.tables d' = Later.with_players l (Later.tables d)).
  { destruct r as [n|e]; [destruct (n =? 0)|]; inversion H; reflexivity. }
  rewrite Hd. clear H Hd. destruct S as [S1 S2 S3 S4 S5 S6 S7 S8].
  destruct E as [-> | (pid & fn & c & Hfree & ->)]; split; simpl; auto.
  - rewrite set_profile_ids. exact S1.
  - apply set_profile_player_ids; assumption.
  - intros r0 Hr. rewrite (@player_exists_same_ids _ (Later.players (Later.tables d)) _).
    + auto.
    + apply set_profile_ids.
Qed.

Lemma sound_delete (key : Z) (d d' : Later.db) (rep : reply) :
  Later.delete_api_players_id key d = (rep, d') ->
  Schema.sound (Later.tables d) -> Schema.sound (Later.tables d').
Proof.
  unfold Later.delete_api_players_id. intros H S.
  destruct (Later.delete_from_players _ _ _) as [[[n|e] t] s] eqn:E.
  - apply delete_from_players_cases in E. destruct E as [-> E].
    assert (Later.tables d' = t) by (destruct (n =? 0); inversion H; reflexivity).
    subst t. destruct E as [-> | ->]; auto.
    destruct S as [S1 S2 S3 S4 S5 S6 S7 S8]. split; simpl; auto.
    + apply NoDup_map_filter. exact S1.
    + apply NoDup_map_filter. exact S2.
    + apply NoDup_map_filter. exact S5.
    + apply NoDup_map_filter. exact S6.
    + intros r Hr. apply filter_In in Hr. destruct Hr as [Hr Hne].
      apply negb_true_iff, Z.eqb_neq in Hne.
      specialize (S7 r Hr). apply player_exists_In in S7.
      destruct S7 as (q & Hq & Hid). apply player_exists_In.
      exists q. split; auto. apply filter_In. split; auto.
      apply negb_true_iff, Z.eqb_neq. lia.
    + intros r Hr. apply filter_In in Hr. destruct Hr as [Hr _]. auto.
  - inversion H; subst. exact S.
Qed.

Section SoundRun.

Variable date_in : string -> option Z.

Lemma post_api_sessions_cases (now : Z) (date : option string)
  (d d' : Later.db) (rep : reply) :
  Later.post_api_sessions date_in now date d = (rep, d') ->
  Later.players (Later.tables d') = Later.players (Later.tables d) /\
  Later.player_sessions (Later.tables d') = Later.player_sessions (Later.tables d) /\
  ((Later.sessions (Later.tables d') = Later.sessions (Later.tables d) /\
    ~ Ledger.succeeded rep)
   \/
   exists s,
     Later.sessions (Later.tables d') = Later.sessions (Later.tables d) ++ [s] /\
     Later.Session.id s = Later.sessions_id_seq (Later.serials d) /\
     Later.session_exists (Later.Session.id s) (Later.sessions (Later.tables d))
     = false /\
     existsb (fun r => Later.Session.session_date r =? Later.Session.session_date s)
             (Later.sessions (Later.tables d)) = false /\
     date_in (template date) = Some (Later.Session.session_date s) /\
     Later.Session.created_at s = now /\
     rep = Json 200 (session_added "Session added successfully"
                       (Later.Session.id s))).
Proof.
  unfold Later.post_api_sessions, Later.insert_into_sessions, nextval.
  destruct (negb (truthy_string date));
    [intros H; inversion H; repeat split; auto; left; split; auto; discriminate|].
  unfold Later.date_opt. destruct date as [text|].
  - simpl template. destruct (date_in text) as [day|] eqn:Ed; simpl.
    + destruct (Later.session_exists _ _) eqn:Ek; simpl;
        [intros H; inversion H; repeat split; auto; left; split; auto; discriminate|].
      destruct (existsb _ _) eqn:Edate; simpl;
        intros H; inversion H; subst; simpl; repeat split; auto.
      * left; split; auto; discriminate.
      * right. eexists. repeat split; simpl; eauto.
    + intros H; inversion H; repeat split; auto; left; split; auto; discriminate.
  - simpl. intros H; inversion H; repeat split; auto; left; split; auto; discriminate.
Qed.

Lemma sound_session (now : Z) (date : option string) (d d' : Later.db)
  (rep : reply) :
  Later.post_api_sessions date_in now date d = (rep, d') ->
  Schema.sound (Later.tables d) -> Schema.sound (Later.tables d').
Proof.
  intros H S. apply post_api_sessions_cases in H.
  destruct H as (Hp & Hf & Hs). destruct S as [S1 S2 S3 S4 S5 S6 S7 S8].
  destruct Hs as [[Hs _] | (s & Hs & _ & Hk & Hd & _)];
    split; rewrite ?Hp, ?Hf, ?Hs; auto.
  - apply NoDup_map_snoc; auto.
    apply existsb_false_map with (f := Later.Session.id). exact Hk.
  - apply NoDup_map_snoc; auto.
    apply existsb_false_map with (f := Later.Session.session_date). exact Hd.
  - intros r Hr. apply session_exists_app. auto.
Qed.

End SoundRun.

Lemma upsert_sound (now : Z) (pid sid : option Z) (pts sv : Z) (mvp : bool)
  (t t1 : Later.data) (s s1 : Later.seqs) :
  Later.upsert_player_session now pid sid pts sv mvp t s = (Ok tt, t1, s1) ->
  exists p se,
    pid = Some p /\ sid = Some se /\
    Later.players t1 = Later.players t /\
    Later.sessions t1 = Later.sessions t /\
    s1 = Later.with_player_sessions_id_seq (Later.player_sessions_id_seq s + 1) s /\
    ((existsb (Later.same_pair p se) (Later.player_sessions t) = true /\
      Later.player_sessions t1 =
        map (fun r => if Later.same_pair p se r
                      then Later.do_update pts sv mvp r else r)
            (Later.player_sessions t))
     \/
     (existsb (Later.same_pair p se) (Later.player_sessions t) = false /\
      existsb (fun r => Later.PlayerSession.id r =? Later.player_sessions_id_seq s)
              (Later.player_sessions t) = false /\
      player_exists p (Later.players t) = true /\
      Later.session_exists se (Later.sessions t) = true /\
      Later.player_sessions t1 =
        Later.player_sessions t
        ++ [Later.new_player_session now (Later.player_sessions_id_seq s)
              p se pts sv mvp])).
Proof.
  unfold Later.upsert_player_session, nextval, rbind.
  destruct (int4in_opt pid) as [p|] eqn:Ep; [|discriminate].
  destruct (int4in_opt sid) as [se|] eqn:Ese; [|discriminate].
  destruct (int4in pts) as [pt|] eqn:Ept; [|discriminate].
  destruct (int4in sv) as [sv'|] eqn:Esv; [|discriminate].
  apply int4in_opt_inv in Ep, Ese. apply int4in_inv in Ept, Esv.
  destruct Ept as [-> _], Esv as [-> _]. subst p se.
  destruct pid as [p|]; simpl; [|discriminate].
  destruct sid as [se|]; simpl; [|discriminate].
  destruct (existsb (Later.same_pair p se) (Later.player_sessions t)) eqn:Ex.
  - intros H; inversion H; subst. exists p, se. simpl. intuition.
  - destruct (existsb (fun r => Later.PlayerSession.id r =? _) _) eqn:Ek;
      [discriminate|].
    destruct (player_exists p (Later.players t)) eqn:Epl; simpl; [|discriminate].
    destruct (Later.session_exists se (Later.sessions t)) eqn:Ese; simpl;
      [|discriminate].
    intros H; inversion H; subst. exists p, se. simpl. intuition.
Qed.

Lemma do_update_keys (p se pts sv : Z) (mvp : bool)
  (l : list Later.PlayerSession.row) :
  map Later.PlayerSession.id
      (map (fun r => if Later.same_pair p se r
                     then Later.do_update pts sv mvp r else r) l)
  = map Later.PlayerSession.id l /\
  map Schema.pair_of
      (map (fun r => if Later.same_pair p se r
                     then Later.do_update pts sv mvp r else r) l)
  = map Schema.pair_of l.
Proof.
  rewrite !map_map. split; apply map_ext; intros r;
    destruct (Later.same_pair p se r); reflexivity.
Qed.

Lemma same_pair_free (p se : Z) (l : list Later.PlayerSession.row) :
  existsb (Later.same_pair p se) l = false -> ~ In (p, se) (map Schema.pair_of l).
Proof.
  intros H Hin. apply in_map_iff in Hin. destruct Hin as (r & Hr & Hin).
  assert (existsb (Later.same_pair p se) l = true); [|congruence].
  apply existsb_exists. exists r. split; auto.
  unfold Schema.pair_of in Hr. inversion Hr. unfold Later.same_pair.
  rewrite !Z.eqb_refl. reflexivity.
Qed.

Lemma set_counters_ids (now p : Z) (c : Player.counters) (l : list Player.row) :
  map Player.id (map (fun q => if Player.id q =? p
                               then Player.set_counters now c q else q) l)
  = map Player.id l /\
  map Player.player_id (map (fun q => if Player.id q =? p
                                      then Player.set_counters now c q else q) l)
  = map Player.player_id l.
Proof.
  rewrite !map_map. split; apply map_ext; intros q;
    destruct (Player.id q =? p); reflexivity.
Qed.

Lemma sound_recording (now : Z) (b : Later.StatsBody.t)
  (fs : list (option pg_error)) (d d' : Later.db) (rep : reply) :
  Later.post_api_player_sessions now b fs d = (rep, d') ->
  Schema.sound (Later.tables d) -> Schema.sound (Later.tables d').
Proof.
  intros H S. apply recording_cases in H.
  destruct H as [(p & t1 & s1 & n & t2 & _ & E1 & E2 & _ & ->) | [-> _]]; auto.
  apply upsert_sound in E1.
  destruct E1 as (p1 & se & Hp1 & _ & Hpl1 & Hss1 & _ & Hf1).
  inversion Hp1; subst p1.
  apply update_stats_ok in E2. destruct E2 as (_ & Hss2 & Hf2 & Hpl2).
  destruct S as [S1 S2 S3 S4 S5 S6 S7 S8].
  destruct (set_counters_ids now p
              (Ledger.aggregates p (Later.player_sessions t1))
              (Later.players t1)) as [Hids Hpids].
  assert (Hex : forall k, player_exists k (Later.players t2)
                          = player_exists k (Later.players (Later.tables d))).
  { intros k. apply player_exists_same_ids. rewrite Hpl2, Hids, Hpl1. reflexivity. }
  simpl. split; rewrite ?Hss2, ?Hss1, ?Hf2; auto.
  - rewrite Hpl2, Hids, Hpl1. exact S1.
  - rewrite Hpl2, Hpids, Hpl1. exact S2.
  - destruct Hf1 as [[_ ->] | (_ & Hk & _ & _ & ->)].
    + rewrite (proj1 (do_update_keys _ _ _ _ _ _)). exact S5.
    + apply NoDup_map_snoc; auto. simpl.
      apply existsb_false_map with (f := Later.PlayerSession.id). exact Hk.
  - destruct Hf1 as [[_ ->] | (Hpair & _ & _ & _ & ->)].
    + rewrite (proj2 (do_update_keys _ _ _ _ _ _)). exact S6.
    + apply NoDup_map_snoc; auto. simpl. apply same_pair_free. exact Hpair.
  - intros r Hr. rewrite Hex.
    destruct Hf1 as [[_ Hf1] | (_ & _ & Hpe & _ & Hf1)]; rewrite Hf1 in Hr.
    + apply in_map_iff in Hr. destruct Hr as (r0 & <- & Hr0).
      destruct (Later.same_pair p se r0); simpl; auto.
    + apply in_app_or in Hr. destruct Hr as [Hr | [<- | []]]; simpl; auto.
  - intros r Hr.
    destruct Hf1 as [[_ Hf1] | (_ & _ & _ & Hse & Hf1)]; rewrite Hf1 in Hr.
    + apply in_map_iff in Hr. destruct Hr as (r0 & <- & Hr0).
      destruct (Later.same_pair p se r0); simpl; auto.
    + apply in_app_or in Hr. destruct Hr as [Hr | [<- | []]]; simpl; auto.
Qed.

Lemma sound_repair (d : Later.db) :
  Schema.sound (Later.tables d) ->
  Schema.sound (Later.tables (snd (Later.post_api_repair_database d))).
Proof.
  intros [S1 S2 S3 S4 S5 S6 S7 S8]. split; simpl; auto; try constructor;
    intros r [].
Qed.

Section SoundAlong.

Variable date_in : string -> option Z.

Lemma sound_serve (now : Z) (r : Later.request) (d d' : Later.db) (rep : reply) :
  Later.serve date_in now r d = (rep, d') ->
  Schema.sound (Later.tables d) -> Schema.sound (Later.tables d').
Proof.
  destruct r as [b|key b|key|date|b fs|]; simpl; intros H.
  - eapply sound_create; eauto.
  - eapply sound_update; eauto.
  - eapply sound_delete; eauto.
  - eapply sound_session; eauto.
  - eapply sound_recording; eauto.
  - inversion H; subst. apply sound_repair.
Qed.

Lemma sound_serve_all (rs : list (Z * Later.request)) (d d' : Later.db)
  (reps : list reply) :
  Later.serve_all date_in rs d = (reps, d') ->
  Schema.sound (Later.tables d) -> Schema.sound (Later.tables d').
Proof.
  revert d reps. induction rs as [|[now r] rs IH]; simpl; intros d reps H S.
  - inversion H; subst. exact S.
  - destruct (Later.serve date_in now r d) as [rep d1] eqn:E1.
    destruct (Later.serve_all date_in rs d1) as [reps' d2] eqn:E2.
    inversion H; subst. eapply IH; eauto. eapply sound_serve; eauto.
Qed.

End SoundAlong.

(** ** Joins over keys *)

Lemma filter_key_unique {A : Type} (f : A -> Z) (k : Z) (l : list A) :
  NoDup (map f l) -> existsb (fun x => f x =? k) l = true ->
  exists x, filter (fun y => k =? f y) l = [x] /\ In x l /\ f x = k.
Proof.
  induction l as [|a l IH]; simpl; intros Hn He; [discriminate|].
  inversion Hn as [|? ? Ha Hl]; subst.
  destruct (f a =? k) eqn:E.
  - apply Z.eqb_eq in E. exists a. rewrite (proj2 (Z.eqb_eq k (f a))) by lia.
    split; [|auto]. f_equal. apply filter_none. intros y Hy.
    apply Z.eqb_neq. intros Hk. apply Ha. apply in_map_iff. exists y.
    split; auto. lia.
  - simpl in He. destruct (IH Hl He) as (x & Hx & Hin & Hk).
    exists x. rewrite (proj2 (Z.eqb_neq k (f a))) by (apply Z.eqb_neq in E; lia).
    auto.
Qed.

Lemma join_sessions_facts (ps : list Later.PlayerSession.row)
  (ss : list Later.Session.row) :
  NoDup (map Later.Session.id ss) ->
  (forall r, In r ps ->
     Later.session_exists (Later.PlayerSession.session_id r) ss = true) ->
  map Later.History.fact (Later.join_sessions ps ss) = ps /\
  forall h, In h (Later.join_sessions ps ss) ->
    exists s, In s ss /\
      Later.Session.id s = Later.PlayerSession.session_id (Later.History.fact h) /\
      Later.Session.session_date s = Later.History.session_date h.
Proof.
  intros Hk. induction ps as [|r ps IH]; simpl; intros Hf.
  - split; [reflexivity | intros h []].
  - destruct IH as [IH1 IH2]; [intros x Hx; apply Hf; right; exact Hx|].
    destruct (@filter_key_unique _ Later.Session.id
                (Later.PlayerSession.session_id r) ss Hk) as (s & Hs & Hin & Hid).
    { apply Hf. left; reflexivity. }
    rewrite Hs. simpl. split.
    + f_equal. exact IH1.
    + intros h [<- | Hh]; simpl; eauto.
Qed.

Lemma filter_map_comm {A B : Type} (f : A -> B) (g : B -> bool) (l : list A) :
  filter g (map f l) = map f (filter (fun x => g (f x)) l).
Proof.
  induction l as [|a l IH]; simpl; auto.
  destruct (g (f a)); simpl; rewrite IH; reflexivity.
Qed.

Lemma map_filter_fact (key : Z) (l : list Later.History.row) :
  map Later.History.fact
      (filter (fun h => Later.PlayerSession.player_id (Later.History.fact h) =? key) l)
  = Later.sessions_of key (map Later.History.fact l).
Proof.
  unfold Later.sessions_of. rewrite filter_map_comm. reflexivity.
Qed.

Lemma select_player_sessions_in (key : Z) (t : Later.data) :
  in_int4 key = true ->
  Later.select_player_sessions key t
  = Ok (order_by (fun a b => Later.History.session_date b
                             <=? Later.History.session_date a)
          (filter (fun h => Later.PlayerSession.player_id (Later.History.fact h)
                            =? key)
                  (Later.join_sessions (Later.player_sessions t)
                                       (Later.sessions t)))).
Proof.
  intros Hk. unfold Later.select_player_sessions.
  rewrite (@int4in_ok _ Hk). reflexivity.
Qed.

Lemma history_rows (key : Z) (t : Later.data) :
  Schema.sound t -> in_int4 key = true ->
  exists rows,
    Later.select_player_sessions key t = Ok rows /\
    Permutation (map Later.History.fact rows)
                (Later.sessions_of key (Later.player_sessions t)) /\
    (forall h, In h rows ->
       exists s, In s (Later.sessions t) /\
         Later.Session.id s = Later.PlayerSession.session_id (Later.History.fact h) /\
         Later.Session.session_date s = Later.History.session_date h) /\
    Schema.ordered (fun a b => Later.History.session_date b
                               <=? Later.History.session_date a) rows.
Proof.
  intros S Hk.
  destruct (@join_sessions_facts (Later.player_sessions t) (Later.sessions t))
    as [J1 J2].
  { apply S. } { apply S. }
  rewrite (@select_player_sessions_in key t Hk).
  eexists. split; [reflexivity|]. split; [|split].
  - rewrite (Permutation_map _ (order_by_perm _ _)).
    rewrite map_filter_fact, J1. reflexivity.
  - intros h Hh. apply (Permutation_in _ (order_by_perm _ _)) in Hh.
    apply filter_In in Hh. apply J2. tauto.
  - apply order_by_ordered.
    + intros a b. destruct (Z.le_ge_cases (Later.History.session_date b)
                                          (Later.History.session_date a));
        [left | right]; apply Z.leb_le; lia.
    + intros a b c H1 H2. apply Z.leb_le in H1, H2. apply Z.leb_le. lia.
Qed.

(** X3.  In every store reached from the empty one, GET
    /api/players/:id/sessions under a key within INTEGER answers 200
    with one row for each fact of that player, no more and no fewer;
    each row carries the date of the session the fact references; the
    rows come latest date first; and for a key no player has, the answer
    is the empty list, not a 404.  Under a key outside INTEGER the
    answer is 500 with the store's text. *)
Theorem history_lists_each_fact (date_in : string -> option Z)
  (rs : list (Z * Later.request)) (reps : list reply) (d : Later.db) (key : Z) :
  Later.serve_all date_in rs (Later.initializeDatabase None) = (reps, d) ->
  (in_int4 key = true ->
   exists rows,
     Later.get_api_players_id_sessions key (Reads d) = Sent rows /\
     Permutation (map Later.History.fact rows)
                 (Later.sessions_of key (Later.player_sessions (Later.tables d))) /\
     (forall h, In h rows ->
        exists s, In s (Later.sessions (Later.tables d)) /\
          Later.Session.id s
          = Later.PlayerSession.session_id (Later.History.fact h) /\
          Later.Session.session_date s = Later.History.session_date h) /\
     Schema.ordered (fun a b => Later.History.session_date b
                                <=? Later.History.session_date a) rows /\
     (player_exists key (Later.players (Later.tables d)) = false -> rows = []))
  /\
  (in_int4 key = false ->
   Later.get_api_players_id_sessions key (Reads d)
   = Refused 500 (message (out_of_range_for_integer (decimal key)))).
Proof.
  intros H. apply sound_serve_all in H; [|apply sound_initially]. split.
  - intros Hk.
    destruct (@history_rows key _ H Hk) as (rows & E & H1 & H2 & H3).
    exists rows. unfold Later.get_api_players_id_sessions. simpl. rewrite E.
    repeat (split; [assumption || reflexivity|]).
    intros Hno. destruct rows as [|h rows]; [reflexivity|].
    exfalso.
    assert (Hin : In (Later.History.fact h)
                     (Later.sessions_of key
                        (Later.player_sessions (Later.tables d)))).
    { eapply Permutation_in; [exact H1|]. left. reflexivity. }
    apply filter_In in Hin. destruct Hin as [Hin Hf].
    pose proof (Schema.player_sessions_player_id_fkey H _ Hin) as Hex.
    apply Z.eqb_eq in Hf. rewrite Hf in Hex. congruence.
  - intros Hk.
    unfold Later.get_api_players_id_sessions, Later.select_player_sessions.
    simpl. rewrite (@int4in_out _ Hk). reflexivity.
Qed.

Lemma sum_Z_perm (l l' : list Z) : Permutation l l' -> sum_Z l = sum_Z l'.
Proof.
  induction 1; simpl; lia.
Qed.

Lemma filter_perm_length {A : Type} (g : A -> bool) (l l' : list A) :
  Permutation l l' -> List.length (filter g l) = List.length (filter g l').
Proof.
  induction 1; simpl; auto.
  - destruct (g x); simpl; auto.
  - destruct (g x), (g y); simpl; auto.
  - lia.
Qed.

(** X4.  In every store reached from the empty one by requests other
    than POST /api/repair-database, the service not restarted in
    between, the history of a stored player, asked for under the
    player's key, and the player's stored counters tell the same story
    (the key is taken to be within INTEGER, the end of the sequence of
    keys not being modelled): the number of rows of the history is
    [sessions_attended_count], the number of its rows with the MVP flag
    is [mvp_awards_count], and its points and saves add up to
    [total_points_scored] and [total_saves]. *)
Theorem history_matches_counters (date_in : string -> option Z)
  (rs : list (Z * Later.request)) (reps : list reply) (d : Later.db)
  (q : Player.row) :
  Later.serve_all date_in rs (Later.initializeDatabase None) = (reps, d) ->
  Forall (fun c => ~ Ledger.is_repair (snd c)) rs ->
  In q (Later.players (Later.tables d)) ->
  in_int4 (Player.id q) = true ->
  exists rows,
    Later.get_api_players_id_sessions (Player.id q) (Reads d) = Sent rows /\
    Player.sessions_attended_count q = Some (sql_count rows) /\
    Player.mvp_awards_count q
    = Some (sql_count
              (filter (fun h => is_true (Later.PlayerSession.mvp_award
                                           (Later.History.fact h))) rows)) /\
    Player.total_points_scored q
    = Some (sum_Z (map (fun h => stat (Later.PlayerSession.points_scored
                                         (Later.History.fact h))) rows)) /\
    Player.total_saves q
    = Some (sum_Z (map (fun h => stat (Later.PlayerSession.saves
                                         (Later.History.fact h))) rows)).
Proof.
  intros H Hall Hq Hk.
  pose proof (sound_serve_all _ _ _ H sound_initially) as S.
  pose proof (invariant_serve_all _ _ H Hall invariant_initially) as (_ & _ & Hagree).
  specialize (Hagree (Player.id q) q Hq eq_refl).
  destruct (@history_rows (Player.id q) _ S Hk) as (rows & E & H1 & _ & _).
  exists rows.
  split; [unfold Later.get_api_players_id_sessions; simpl; rewrite E; reflexivity|].
  set (facts := Later.sessions_of (Player.id q)
                  (Later.player_sessions (Later.tables d))) in *.
  unfold Player.counters_of, Ledger.aggregates in Hagree. fold facts in Hagree.
  inversion Hagree as [[Hp Hs Hm Ha]].
  rewrite Hp, Hs, Hm, Ha. unfold sql_count. repeat split; f_equal.
  - f_equal. rewrite <- (Permutation_length H1). apply length_map.
  - f_equal. rewrite <- (filter_perm_length _ H1).
    rewrite filter_map_comm. apply length_map.
  - apply sum_Z_perm. rewrite <- (Permutation_map _ H1).
    rewrite map_map. reflexivity.
  - apply sum_Z_perm. rewrite <- (Permutation_map _ H1).
    rewrite map_map. reflexivity.
Qed.

(** ** An order on names: the code points, one character after the other *)

Lemma ascii_compare_trans (a b c : ascii) (o : comparison) :
  Ascii.compare a b = o -> Ascii.compare b c = o -> Ascii.compare a c = o.
Proof.
  unfold Ascii.compare. destruct o; intros H1 H2.
  - apply N.compare_eq_iff in H1, H2. apply N.compare_eq_iff. congruence.
  - rewrite N.compare_lt_iff in *. lia.
  - rewrite N.compare_gt_iff in *. lia.
Qed.

Lemma string_compare_le_trans (a b c : string) :
  String.compare a b <> Gt -> String.compare b c <> Gt -> String.compare a c <> Gt.
Proof.
  revert b c. induction a as [|x a IH]; intros [|y b] [|z c]; simpl; try congruence.
  destruct (Ascii.compare x y) eqn:E1; destruct (Ascii.compare y z) eqn:E2;
    try congruence.
  - rewrite (@ascii_compare_trans _ _ _ _ E1 E2). apply IH.
  - apply Ascii.compare_eq_iff in E1. subst y. rewrite E2. congruence.
  - apply Ascii.compare_eq_iff in E2. subst z. rewrite E1. congruence.
  - rewrite (@ascii_compare_trans _ _ _ _ E1 E2). congruence.
Qed.

Lemma string_leb_trans (a b c : string) :
  String.leb a b = true -> String.leb b c = true -> String.leb a c = true.
Proof.
  unfold String.leb. intros H1 H2.
  pose proof (@string_compare_le_trans a b c) as H.
  destruct (String.compare a b); destruct (String.compare b c);
    destruct (String.compare a c); try discriminate; auto;
    exfalso; apply H; congruence.
Qed.

Lemma string_leb_is_order : Schema.is_order String.leb.
Proof.
  split.
  - apply String.leb_total.
  - apply string_leb_trans.
Qed.

(** ** The players of a session *)

Lemma pair_at_most_once (p key : Z) (l : list Later.PlayerSession.row) :
  NoDup (map Schema.pair_of l) ->
  (List.length (filter (fun r => (p =? Later.PlayerSession.player_id r)%Z
                                 && (Later.PlayerSession.session_id r =? key)%Z) l)
   <= 1)%nat.
Proof.
  induction l as [|r l IH]; simpl; intros Hn; [lia|].
  inversion Hn as [|? ? Hr Hl]; subst. specialize (IH Hl).
  destruct ((p =? Later.PlayerSession.player_id r)
            && (Later.PlayerSession.session_id r =? key)) eqn:E; [|exact IH].
  apply andb_true_iff in E. destruct E as [E1 E2].
  apply Z.eqb_eq in E1, E2.
  rewrite filter_none; [simpl; lia|].
  intros x Hx. apply andb_false_iff.
  destruct (p =? Later.PlayerSession.player_id x) eqn:F1; [|auto].
  destruct (Later.PlayerSession.session_id x =? key) eqn:F2; [|auto].
  exfalso. apply Hr. apply in_map_iff. exists x. split; auto.
  apply Z.eqb_eq in F1, F2. unfold Schema.pair_of. congruence.
Qed.

Lemma lineup_members (key : Z) (t : Later.data) (row : Later.Lineup.row) :
  In row (flat_map
            (fun p =>
               map (Later.lineup_columns p)
                   (filter (fun r => (Player.id p =? Later.PlayerSession.player_id r)
                                     && (Later.PlayerSession.session_id r =? key))
                           (Later.player_sessions t)))
            (Later.players t))
  <-> exists p r,
        In p (Later.players t) /\ In r (Later.player_sessions t) /\
        Later.PlayerSession.player_id r = Player.id p /\
        Later.PlayerSession.session_id r = key /\
        row = Later.lineup_columns p r.
Proof.
  rewrite in_flat_map. split.
  - intros (p & Hp & Hrow). apply in_map_iff in Hrow.
    destruct Hrow as (r & <- & Hr). apply filter_In in Hr.
    destruct Hr as [Hr E]. apply andb_true_iff in E. destruct E as [E1 E2].
    apply Z.eqb_eq in E1, E2. exists p, r. auto.
  - intros (p & r & Hp & Hr & E1 & E2 & ->). exists p. split; auto.
    apply in_map. apply filter_In. split; auto.
    apply andb_true_iff. split; apply Z.eqb_eq; auto.
Qed.

Lemma lineup_keys_distinct (key : Z) (ps : list Later.PlayerSession.row)
  (l : list Player.row) :
  NoDup (map Player.id l) -> NoDup (map Schema.pair_of ps) ->
  NoDup (map Later.Lineup.id
           (flat_map
              (fun p =>
                 map (Later.lineup_columns p)
                     (filter (fun r => (Player.id p =? Later.PlayerSession.player_id r)
                                       && (Later.PlayerSession.session_id r =? key))
                             ps))
              l)).
Proof.
  intros Hk Hpairs. induction l as [|p l IH]; simpl; [constructor|].
  inversion Hk as [|? ? Hp Hl]; subst. specialize (IH Hl).
  rewrite map_app.
  pose proof (@pair_at_most_once (Player.id p) key ps Hpairs) as Hone.
  destruct (filter _ ps) as [|r [|r' rest]] eqn:E; simpl in Hone |- *.
  - exact IH.
  - constructor; [|exact IH].
    intros Hin. apply in_map_iff in Hin. destruct Hin as (row & Hid & Hrow).
    apply in_flat_map in Hrow. destruct Hrow as (q & Hq & Hrow).
    apply in_map_iff in Hrow. destruct Hrow as (r0 & <- & _).
    simpl in Hid. apply Hp. apply in_map_iff. exists q. auto.
  - lia.
Qed.

Lemma select_session_players_in (collate_le : string -> string -> bool)
  (key : Z) (t : Later.data) :
  in_int4 key = true ->
  Later.select_session_players collate_le key t
  = Ok (order_by (fun a b => collate_le (Later.Lineup.full_name a)
                                        (Later.Lineup.full_name b))
          (flat_map
             (fun p =>
                map (Later.lineup_columns p)
                    (filter (fun r => (Player.id p =? Later.PlayerSession.player_id r)
                                      && (Later.PlayerSession.session_id r =? key))
                            (Later.player_sessions t)))
             (Later.players t))).
Proof.
  intros Hk. unfold Later.select_session_players.
  rewrite (@int4in_ok _ Hk). reflexivity.
Qed.

(** X5.  In every store reached from the empty one, GET
    /api/sessions/:id/players under a key within INTEGER lists no
    player twice: its rows are, each once, the pairs of a stored player
    and the fact that player has for this session, in the order of the
    full names.  Under a key outside INTEGER the answer is 500 with the
    store's text. *)
Theorem lineup_lists_each_player_once (collate_le : string -> string -> bool)
  (date_in : string -> option Z) (rs : list (Z * Later.request))
  (reps : list reply) (d : Later.db) (key : Z) :
  Schema.is_order collate_le ->
  Later.serve_all date_in rs (Later.initializeDatabase None) = (reps, d) ->
  (in_int4 key = true ->
   exists rows,
     Later.get_api_sessions_id_players collate_le key (Reads d) = Sent rows /\
     NoDup (map Later.Lineup.id rows) /\
     (forall row, In row rows <->
        exists p r,
          In p (Later.players (Later.tables d)) /\
          In r (Later.player_sessions (Later.tables d)) /\
          Later.PlayerSession.player_id r = Player.id p /\
          Later.PlayerSession.session_id r = key /\
          row = Later.lineup_columns p r) /\
     Schema.ordered (fun a b => collate_le (Later.Lineup.full_name a)
                                           (Later.Lineup.full_name b)) rows)
  /\
  (in_int4 key = false ->
   Later.get_api_sessions_id_players collate_le key (Reads d)
   = Refused 500 (message (out_of_range_for_integer (decimal key)))).
Proof.
  intros [Htot Htr] H. apply sound_serve_all in H; [|apply sound_initially].
  split; intros Hk.
  - unfold Later.get_api_sessions_id_players. simpl.
    rewrite (@select_session_players_in collate_le key _ Hk).
    eexists. split; [reflexivity|]. split; [|split].
    + eapply Permutation_NoDup.
      * apply Permutation_map. symmetry. apply order_by_perm.
      * apply lineup_keys_distinct; apply H.
    + intros row. rewrite <- lineup_members. split; intros Hin.
      * eapply Permutation_in; [apply order_by_perm | exact Hin].
      * eapply Permutation_in; [symmetry; apply order_by_perm | exact Hin].
    + apply order_by_ordered.
      * intros a b. apply Htot.
      * intros a b c. apply Htr.
  - unfold Later.get_api_sessions_id_players, Later.select_session_players.
    simpl. rewrite (@int4in_out _ Hk). reflexivity.
Qed.

(** ** ORDER BY .. LIMIT: the first rows of the order *)

Lemma ordered_impl {A : Type} (b1 b2 : A -> A -> bool) (l : list A) :
  (forall a b, In a l -> In b l -> b1 a b = true -> b2 a b = true) ->
  Schema.ordered b1 l -> Schema.ordered b2 l.
Proof.
  intros Himp H i j a b Hij Ha Hb.
  apply Himp; eauto using nth_error_In.
Qed.

Lemma limit_order_by {A : Type} (before : A -> A -> bool) (n : nat) (l : list A) :
  (forall a b, before a b = true \/ before b a = true) ->
  (forall a b c, before a b = true -> before b c = true -> before a c = true) ->
  exists rest,
    Permutation (limit n (order_by before l) ++ rest) l /\
    Schema.ordered before (limit n (order_by before l)) /\
    (forall a b, In a (limit n (order_by before l)) -> In b rest ->
                 before a b = true) /\
    List.length (limit n (order_by before l)) = Nat.min n (List.length l) /\
    (rest <> [] -> List.length (limit n (order_by before l)) = n).
Proof.
  intros Htot Htr. exists (skipn n (order_by before l)).
  pose proof (@order_by_ordered _ before Htot Htr l) as Ho.
  destruct (@limit_ordered _ before n _ Ho) as [H1 H2].
  assert (Hlen : List.length (order_by before l) = List.length l)
    by (apply Permutation_length, order_by_perm).
  split; [|split; [|split; [|split]]]; auto.
  - unfold limit. rewrite firstn_skipn. apply order_by_perm.
  - unfold limit. rewrite length_firstn, Hlen. reflexivity.
  - intros Hne. unfold limit. rewrite length_firstn. apply Nat.min_l.
    destruct (Nat.le_gt_cases n (List.length (order_by before l))) as [Hle|Hgt];
      [exact Hle|].
    exfalso. apply Hne. apply skipn_all2. lia.
Qed.

Lemma desc_nulls_first_order :
  (forall a b, desc_nulls_first a b = true \/ desc_nulls_first b a = true) /\
  (forall a b c, desc_nulls_first a b = true -> desc_nulls_first b c = true ->
                 desc_nulls_first a c = true).
Proof.
  split.
  - intros [x|] [y|]; simpl; auto.
    destruct (Z.le_ge_cases x y); [right | left]; apply Z.leb_le; lia.
  - intros [x|] [y|] [z|]; simpl; auto; try discriminate.
    intros H1 H2. apply Z.leb_le in H1, H2. apply Z.leb_le. lia.
Qed.

(** X6.  The [top_mvps] of the dashboard are at most five rows, each the
    name and the counter of a stored player with a positive MVP counter,
    the larger counter first; and a player with a positive counter is
    left out only when five players are listed whose counters are all at
    least as large. *)
Theorem top_mvps_are_the_top (l : list Player.row) :
  let rows := PlayerQueries.top_mvps l in
  (List.length rows <= 5)%nat /\
  (forall row, In row rows ->
     exists p n, In p l /\ TopMvp.full_name row = Player.full_name p /\
       Player.mvp_awards_count p = Some n /\
       TopMvp.mvp_awards_count row = Some n /\ 0 < n) /\
  Schema.ordered (fun a b => stat (TopMvp.mvp_awards_count b)
                             <=? stat (TopMvp.mvp_awards_count a)) rows /\
  (forall q n, In q l -> Player.mvp_awards_count q = Some n -> 0 < n ->
     In {| TopMvp.full_name := Player.full_name q;
           TopMvp.mvp_awards_count := Some n |} rows
     \/ (List.length rows = 5%nat /\
         forall row, In row rows -> n <= stat (TopMvp.mvp_awards_count row))).
Proof.
  unfold PlayerQueries.top_mvps.
  set (before := fun p q : Player.row =>
         desc_nulls_first (Player.mvp_awards_count p) (Player.mvp_awards_count q)).
  set (winners := filter (fun p => is_positive (Player.mvp_awards_count p)) l).
  set (proj := fun p : Player.row =>
         {| TopMvp.full_name := Player.full_name p;
            TopMvp.mvp_awards_count := Player.mvp_awards_count p |}).
  destruct (@limit_order_by _ before 5 winners) as (rest & Hperm & Hord & Htop & Hlen & Hfull).
  { intros a b. apply desc_nulls_first_order. }
  { intros a b c. apply desc_nulls_first_order. }
  set (shown := limit 5 (order_by before winners)) in *.
  assert (Hshown : forall p, In p shown ->
            In p l /\ exists n, Player.mvp_awards_count p = Some n /\ 0 < n).
  { intros p Hp.
    assert (Hw : In p winners).
    { eapply Permutation_in; [exact Hperm|]. apply in_or_app. auto. }
    apply filter_In in Hw. destruct Hw as [Hl Hpos]. split; auto.
    destruct (Player.mvp_awards_count p) as [n|]; [|discriminate].
    exists n. split; auto. apply Z.ltb_lt. exact Hpos. }
  simpl. split; [|split; [|split]].
  - rewrite length_map, Hlen. apply Nat.le_min_l.
  - intros row Hrow. apply in_map_iff in Hrow. destruct Hrow as (p & <- & Hp).
    destruct (Hshown p Hp) as (Hl & n & Hn & Hpos). exists p, n. simpl. auto.
  - apply ordered_map with
      (before := fun a b => stat (TopMvp.mvp_awards_count b)
                            <=? stat (TopMvp.mvp_awards_count a)).
    eapply ordered_impl; [|exact Hord].
    intros a b Ha Hb. unfold before, proj. simpl.
    destruct (Hshown a Ha) as (_ & x & -> & _).
    destruct (Hshown b Hb) as (_ & y & -> & _). simpl. auto.
  - intros q n Hq Hn Hpos.
    assert (Hw : In q winners).
    { apply filter_In. split; auto. rewrite Hn. apply Z.ltb_lt. exact Hpos. }
    apply (Permutation_in _ (Permutation_sym Hperm)) in Hw.
    apply in_app_or in Hw. destruct Hw as [Hs | Hr].
    + left. apply in_map_iff. exists q. split; auto.
      unfold proj. rewrite Hn. reflexivity.
    + right. split.
      * rewrite length_map. apply Hfull. intros E. rewrite E in Hr. exact Hr.
      * intros row Hrow. apply in_map_iff in Hrow.
        destruct Hrow as (p & <- & Hp). simpl.
        specialize (Htop p q Hp Hr). unfold before in Htop.
        destruct (Hshown p Hp) as (_ & m & Hm & _).
        rewrite Hm, Hn in Htop. rewrite Hm. simpl in *.
        apply Z.leb_le. exact Htop.
Qed.

Lemma newest_first {A B : Type} (k : A -> Z) (proj : A -> B) (kb : B -> Z)
  (n : nat) (l : list A) :
  (forall a, kb (proj a) = k a) ->
  let rows := map proj (limit n (order_by (fun a b => k b <=? k a) l)) in
  List.length rows = Nat.min n (List.length l) /\
  Schema.ordered (fun a b => kb b <=? kb a) rows /\
  (forall row, In row rows -> exists a, In a l /\ row = proj a) /\
  (forall a, In a l ->
     In (proj a) rows
     \/ (List.length rows = n /\ forall row, In row rows -> k a <= kb row)).
Proof.
  intros Hk.
  destruct (@limit_order_by _ (fun a b => k b <=? k a) n l)
    as (rest & Hperm & Hord & Htop & Hlen & Hfull).
  { intros a b. destruct (Z.le_ge_cases (k a) (k b)); [right | left];
      apply Z.leb_le; lia. }
  { intros a b c H1 H2. apply Z.leb_le in H1, H2. apply Z.leb_le. lia. }
  set (shown := limit n (order_by (fun a b => k b <=? k a) l)) in *.
  simpl. split; [|split; [|split]].
  - rewrite length_map. exact Hlen.
  - apply ordered_map with (before := fun a b => kb b <=? kb a).
    eapply ordered_impl; [|exact Hord].
    intros a b _ _ H. rewrite !Hk. exact H.
  - intros row Hrow. apply in_map_iff in Hrow. destruct Hrow as (a & <- & Ha).
    exists a. split; auto. eapply Permutation_in; [exact Hperm|].
    apply in_or_app. auto.
  - intros a Ha. apply (Permutation_in _ (Permutation_sym Hperm)) in Ha.
    apply in_app_or in Ha. destruct Ha as [Hs | Hr].
    + left. apply in_map. exact Hs.
    + right. split.
      * rewrite length_map. apply Hfull. intros E. rewrite E in Hr. exact Hr.
      * intros row Hrow. apply in_map_iff in Hrow.
        destruct Hrow as (p & <- & Hp). rewrite Hk.
        apply Z.leb_le. apply (Htop p a Hp Hr).
Qed.

(** X7.  The [recent_players] of the dashboard are the five players
    created last (all of them when there are fewer), the latest first,
    and the [recent_sessions] the five sessions of the latest dates: a
    row is left out only when five rows are listed that are all at
    least as recent. *)
Theorem recent_lists_are_the_newest (players : list Player.row)
  (sessions : list Later.Session.row) :
  (let rows := PlayerQueries.recent_players players in
   List.length rows = Nat.min 5 (List.length players) /\
   Schema.ordered (fun a b => RecentPlayer.created_at b
                              <=? RecentPlayer.created_at a) rows /\
   (forall row, In row rows ->
      exists p, In p players /\
        row = {| RecentPlayer.full_name := Player.full_name p;
                 RecentPlayer.player_id := Player.player_id p;
                 RecentPlayer.created_at := Player.created_at p |}) /\
   (forall p, In p players ->
      In {| RecentPlayer.full_name := Player.full_name p;
            RecentPlayer.player_id := Player.player_id p;
            RecentPlayer.created_at := Player.created_at p |} rows
      \/ (List.length rows = 5%nat /\
          forall row, In row rows ->
            Player.created_at p <= RecentPlayer.created_at row)))
  /\
  (let rows := Later.recent_sessions sessions in
   List.length rows = Nat.min 5 (List.length sessions) /\
   Schema.ordered (fun a b => Later.RecentSession.session_date b
                              <=? Later.RecentSession.session_date a) rows /\
   (forall row, In row rows ->
      exists s, In s sessions /\
        row = {| Later.RecentSession.session_date := Later.Session.session_date s;
                 Later.RecentSession.created_at := Later.Session.created_at s |}) /\
   (forall s, In s sessions ->
      In {| Later.RecentSession.session_date := Later.Session.session_date s;
            Later.RecentSession.created_at := Later.Session.created_at s |} rows
      \/ (List.length rows = 5%nat /\
          forall row, In row rows ->
            Later.Session.session_date s <= Later.RecentSession.session_date row))).
Proof.
  split.
  - apply (@newest_first _ _ Player.created_at
             (fun p => {| RecentPlayer.full_name := Player.full_name p;
                          RecentPlayer.player_id := Player.player_id p;
                          RecentPlayer.created_at := Player.created_at p |})
             RecentPlayer.created_at 5 players).
    reflexivity.
  - apply (@newest_first _ _ Later.Session.session_date
             (fun s => {| Later.RecentSession.session_date :=
                            Later.Session.session_date s;
                          Later.RecentSession.created_at :=
                            Later.Session.created_at s |})
             Later.RecentSession.session_date 5 sessions).
    reflexivity.
Qed.

(** ** The dashboard as a whole *)

Lemma top_mvps_length (l : list Player.row) :
  (List.length (PlayerQueries.top_mvps l) <= List.length l)%nat.
Proof.
  unfold PlayerQueries.top_mvps, limit. rewrite length_map, length_firstn.
  rewrite (Permutation_length (order_by_perm _ _)).
  etransitivity; [apply Nat.le_min_r|]. apply filter_length_le.
Qed.

(** X9.  Read from one store, the dashboard and the listings agree:
    [total_players] is the [count] of GET /api/players-list and the
    number of its rows, [total_sessions] is the number of rows of GET
    /api/sessions, and [top_mvps] has no more rows than there are
    players. *)
Theorem dashboard_counts_match_listings (collate_le : string -> string -> bool)
  (d : Later.db) :
  exists stats body rows,
    Later.get_api_dashboard (fun _ => Reads d) = Sent stats /\
    PlayerQueries.get_api_players_list collate_le
      (Reads (Later.players (Later.tables d))) = Sent body /\
    Later.get_api_sessions (Reads d) = Sent rows /\
    Later.Stats.total_players stats = PlayersList.count body /\
    Later.Stats.total_players stats = sql_count (PlayersList.players body) /\
    Later.Stats.total_sessions stats = sql_count rows /\
    (List.length (Later.Stats.top_mvps stats)
     <= List.length (PlayersList.players body))%nat.
Proof.
  do 3 eexists. split; [reflexivity|]. split; [reflexivity|].
  split; [reflexivity|]. simpl. unfold Later.total_players, Later.total_sessions, sql_count.
  rewrite !length_map, order_by_full_name_order_by.
  rewrite !(Permutation_length (order_by_perm _ _)).
  repeat split; auto.
  apply top_mvps_length.
Qed.

(** X10.  GET /api/sessions answers with every stored session exactly
    once, the latest date first. *)
Theorem sessions_newest_first (d : Later.db) :
  exists rows,
    Later.get_api_sessions (Reads d) = Sent rows /\
    Permutation rows (Later.sessions (Later.tables d)) /\
    Schema.ordered (fun a b => Later.Session.session_date b
                               <=? Later.Session.session_date a) rows.
Proof.
  eexists. split; [reflexivity|]. split; [apply order_by_perm|].
  apply order_by_ordered.
  - intros a b. unfold Later.later_date.
    destruct (Z.le_ge_cases (Later.Session.session_date a)
                            (Later.Session.session_date b)); [right | left];
      apply Z.leb_le; lia.
  - intros a b c H1 H2. unfold Later.later_date in *.
    apply Z.leb_le in H1, H2. apply Z.leb_le. lia.
Qed.

(** ** Sequences: a key handed out is not handed out again *)

Section Serials.

Variables T S A B : Type.
Variable st1 : statement T S A.
Variable st2 : statement T S B.
Variable done : reply.
Variable keeps : S -> S -> Prop.

Hypothesis keeps_refl : forall s, keeps s s.
Hypothesis keeps_trans : forall s1 s2 s3, keeps s1 s2 -> keeps s2 s3 -> keeps s1 s3.
Hypothesis st1_keeps : forall t s r t' s', st1 t s = (r, t', s') -> keeps s s'.
Hypothesis st2_keeps : forall t s r t' s', st2 t s = (r, t', s') -> keeps s s'.

Ltac run H :=
  repeat (cbn in H;
          match type of H with
          | context [match ?l with [] => _ | _ :: _ => _ end] =>
              is_var l; destruct l as [|[?|] ?]
          | context [st1 ?a ?b] => destruct (st1 a b) as [[[?|?] ?] ?] eqn:?
          | context [st2 ?a ?b] => destruct (st2 a b) as [[[?|?] ?] ?] eqn:?
          end).

Lemma transaction_serial (t : T) (s : S) (fs : list (option pg_error))
  (rep : reply) (c : client T S) :
  settle
    ((connect (T:=T) (S:=S) >>
      finally
        (try_catch
           (query (@BEGIN T S) >> query (execute st1) >> query (execute st2) >>
            query (@COMMIT T S) >> aret done)
           (fun err =>
              query (@ROLLBACK T S) >> aret (Json 500 (error_ (message err)))))
        (@release T S))%action (fresh t s fs)) = (rep, c) ->
  keeps s (serial c).
Proof.
  unfold settle, abind, finally, try_catch, query, connect, aret, fresh.
  intros H.
  unfold take_fault, observed, abort, execute, BEGIN, COMMIT, ROLLBACK,
    set_txn, set_leased, release in H.
  run H.
  all: inversion H; subst; clear H; cbn.
  all: eauto.
Qed.

End Serials.

Lemma post_api_players_seq (now : Z) (b : PlayerBody.t)
  (l l' : list Player.row) (seq seq' : Z) (rep : reply) :
  Directory.post_api_players now b l seq = (rep, l', seq') ->
  seq <= seq' /\
  forall msg pid key, rep = Json 200 (player_added msg pid key) ->
    key = seq /\ seq' = seq + 1.
Proof.
  unfold Directory.post_api_players, insert_into_players, nextval.
  destruct (negb (truthy_string (PlayerBody.player_id b))
            || negb (truthy_string (PlayerBody.full_name b))).
  - intros H; inversion H; subst. split; [lia | discriminate].
  - destruct (coerce_profile b) as [c|e].
    + destruct (new_player now seq c l) as [row|e].
      * intros H; inversion H; subst. split; [lia|].
        intros msg pid key Hk; inversion Hk; subst. auto.
      * destruct (String.eqb (code e) "23505"); intros H; inversion H; subst;
          (split; [lia | discriminate]).
    + destruct (String.eqb (code e) "23505"); intros H; inversion H; subst;
        (split; [lia | discriminate]).
Qed.

Section Keys.

Variable date_in : string -> option Z.

Lemma players_id_seq_serve (now : Z) (r : Later.request) (d d' : Later.db)
  (rep : reply) :
  Later.serve date_in now r d = (rep, d') ->
  Later.players_id_seq (Later.serials d) <= Later.players_id_seq (Later.serials d').
Proof.
  destruct r as [b|key b|key|date|b fs|]; simpl.
  - unfold Later.post_api_players.
    destruct (Directory.post_api_players _ _ _ _) as [[rep0 l] n] eqn:E.
    intros H; inversion H; subst; clear H. simpl.
    apply post_api_players_seq in E. tauto.
  - unfold Later.put_api_players_id.
    destruct (Directory.put_api_players_id _ _ _ _) as [rep0 l].
    intros H; inversion H; subst. simpl. lia.
  - unfold Later.delete_api_players_id.
    destruct (Later.delete_from_players _ _ _) as [[[n|e] t] s] eqn:E.
    + apply delete_from_players_cases in E. destruct E as [-> _].
      destruct (n =? 0); intros H; inversion H; subst; simpl; lia.
    + apply delete_from_players_refused in E. destruct E as [_ ->].
      intros H; inversion H; subst; simpl; lia.
  - unfold Later.post_api_sessions, Later.insert_into_sessions, nextval.
    destruct (negb (truthy_string date)); [intros H; inversion H; lia|].
    destruct (Later.date_opt date_in date) as [day|e];
      [|destruct (String.eqb (code e) "23505"); intros H; inversion H; simpl; lia].
    destruct (not_null "sessions" "session_date" day) as [day'|e];
      [|destruct (String.eqb (code e) "23505"); intros H; inversion H; simpl; lia].
    destruct (Later.session_exists _ _); simpl; [intros H; inversion H; simpl; lia|].
    destruct (existsb _ _); simpl; intros H; inversion H; simpl; lia.
  - unfold Later.post_api_player_sessions, Later.player_sessions_handler.
    destruct (negb (truthy_number (Later.StatsBody.player_id b))
              || negb (truthy_number (Later.StatsBody.session_id b))).
    + intros H; inversion H; subst. simpl. lia.
    + match goal with
      | |- (let (_, _) := ?x in _) = _ -> _ => destruct x as [rep0 c] eqn:E
      end.
      intros H; inversion H; subst; clear H. simpl.
      apply (@transaction_serial _ _ _ _ _ _ _
               (fun s s' => Later.players_id_seq s = Later.players_id_seq s'))
        in E.
      * lia.
      * reflexivity.
      * intros; congruence.
      * intros t s r t' s'. unfold Later.upsert_player_session, nextval.
        destruct (_ <- int4in_opt _;; _)%result as [[[[p se] pt] sv]|e];
          [|intros H; inversion H; reflexivity].
        destruct (_ <- not_null _ _ p;; _)%result as [[p' se']|e];
          [|intros H; inversion H; reflexivity].
        repeat match goal with
               | |- context [if ?c then _ else _] => destruct c
               end; intros H; inversion H; reflexivity.
      * intros t s r t' s'. unfold Later.update_player_stats.
        destruct (int4in_opt _) as [[p|]|e]; try (intros H; inversion H; reflexivity).
        destruct (negb _); [intros H; inversion H; reflexivity|].
        destruct (Later.recomputed_counters _ _);
          intros H; inversion H; reflexivity.
  - intros H; inversion H; subst. simpl. lia.
Qed.

Lemma players_id_seq_serve_all (rs : list (Z * Later.request)) (d d' : Later.db)
  (reps : list reply) :
  Later.serve_all date_in rs d = (reps, d') ->
  Later.players_id_seq (Later.serials d) <= Later.players_id_seq (Later.serials d').
Proof.
  revert d reps. induction rs as [|[now r] rs IH]; simpl; intros d reps H.
  - inversion H; subst. lia.
  - destruct (Later.serve date_in now r d) as [rep d1] eqn:E1.
    destruct (Later.serve_all date_in rs d1) as [reps' d2] eqn:E2.
    inversion H; subst. apply players_id_seq_serve in E1. apply IH in E2. lia.
Qed.

(** X11.  The key of a player is not handed out twice: of two
    successful POST /api/players, whatever requests are served in
    between (the deletion of the first player included), the later
    answers with the larger key. *)
Theorem player_keys_never_reused (now1 now2 : Z) (b1 b2 : PlayerBody.t)
  (rs : list (Z * Later.request)) (reps : list reply)
  (d0 d1 d2 d3 : Later.db) (m1 m2 i1 i2 : string) (k1 k2 : Z) :
  Later.serve date_in now1 (Later.POST_players b1) d0
  = (Json 200 (player_added m1 i1 k1), d1) ->
  Later.serve_all date_in rs d1 = (reps, d2) ->
  Later.serve date_in now2 (Later.POST_players b2) d2
  = (Json 200 (player_added m2 i2 k2), d3) ->
  k1 < k2.
Proof.
  simpl. unfold Later.post_api_players. intros H1 Hrun H2.
  destruct (Directory.post_api_players now1 _ _ _) as [[rep1 l1] n1] eqn:E1.
  destruct (Directory.post_api_players now2 _ _ _) as [[rep2 l2] n2] eqn:E2.
  inversion H1; subst; clear H1. inversion H2; subst; clear H2.
  apply post_api_players_seq in E1, E2.
  destruct E1 as [_ E1], E2 as [_ E2].
  destruct (E1 _ _ _ eq_refl) as [-> ->]. destruct (E2 _ _ _ eq_refl) as [-> _].
  apply players_id_seq_serve_all in Hrun. simpl in Hrun. lia.
Qed.

End Keys.

(** ** The check of an identifier, and the directory it reads *)

Lemma check_player_id_reads (pid : string) (l : list Player.row) :
  PlayerQueries.get_api_check_player_id pid (Reads l)
  = Sent (player_id_taken pid l).
Proof.
  unfold PlayerQueries.get_api_check_player_id, PlayerQueries.count_player_id,
    player_id_taken, sql_count. simpl. f_equal.
  induction l as [|p l IH]; simpl; auto.
  destruct (String.eqb (Player.player_id p) pid); simpl; auto.
Qed.

Lemma coerce_profile_player_id (b c : PlayerBody.t) (pid : string) :
  coerce_profile b = Ok c -> PlayerBody.player_id b = Some pid ->
  (String.length pid <= 20)%nat -> PlayerBody.player_id c = Some pid.
Proof.
  unfold coerce_profile, fit_profile. intros H Hp Hlen. rewrite Hp in H.
  assert (Hv : varchar_opt 20 (Some pid) = Ok (Some pid)).
  { simpl. unfold varchar. rewrite (proj2 (Nat.leb_le _ _) Hlen). reflexivity. }
  rewrite Hv in H. unfold rbind in H.
  repeat match type of H with
         | match ?x with Ok _ => _ | Err _ => _ end = _ =>
             destruct x; [|discriminate]
         end.
  inversion H. reflexivity.
Qed.

(** X12.  A successful POST /api/players turns the answer of GET
    /api/check-player-id for the identifier it was sent (one of at most
    twenty characters) from [exists: false] to [exists: true]. *)
Theorem check_player_id_after_create (now : Z) (b : PlayerBody.t)
  (l l' : list Player.row) (seq seq' : Z) (rep : reply) (pid : string) :
  Directory.post_api_players now b l seq = (rep, l', seq') ->
  Ledger.succeeded rep ->
  PlayerBody.player_id b = Some pid ->
  (String.length pid <= 20)%nat ->
  PlayerQueries.get_api_check_player_id pid (Reads l) = Sent false /\
  PlayerQueries.get_api_check_player_id pid (Reads l') = Sent true.
Proof.
  intros H Hok Hp Hlen. rewrite !check_player_id_reads.
  unfold Directory.post_api_players in H.
  destruct (negb (truthy_string (PlayerBody.player_id b))
            || negb (truthy_string (PlayerBody.full_name b)));
    [inversion H; subst; discriminate Hok|].
  unfold insert_into_players, nextval in H.
  destruct (coerce_profile b) as [c|e] eqn:Ec.
  - pose proof (@coerce_profile_player_id b c pid Ec Hp Hlen) as Hc.
    destruct (new_player now seq c l) as [row|e] eqn:En.
    + apply new_player_ok in En. destruct En as (_ & _ & Hrow & Hfree & _).
      assert (Hpid : Player.player_id row = pid) by congruence.
      rewrite Hpid in Hfree. inversion H; subst l' seq' rep.
      split; [rewrite Hfree; reflexivity|]. f_equal.
      unfold player_id_taken. rewrite existsb_app. simpl.
      rewrite Hpid, String.eqb_refl. apply orb_true_iff. right. reflexivity.
    + destruct (String.eqb (code e) "23505"); inversion H; subst; discriminate Hok.
  - destruct (String.eqb (code e) "23505"); inversion H; subst; discriminate Hok.
Qed.

Lemma NoDup_map_same {A B : Type} (f : A -> B) (l : list A) (x y : A) :
  NoDup (map f l) -> In x l -> In y l -> f x = f y -> x = y.
Proof.
  induction l as [|a l IH]; simpl; intros Hn Hx Hy E; [contradiction|].
  inversion Hn as [|? ? Ha Hl]; subst.
  destruct Hx as [-> | Hx], Hy as [-> | Hy]; auto.
  - exfalso. apply Ha. rewrite E. apply in_map. exact Hy.
  - exfalso. apply Ha. rewrite <- E. apply in_map. exact Hx.
Qed.

(** X13.  In every store reached from the empty one, deleting a stored
    player under its key succeeds and turns the answer of GET
    /api/check-player-id for its identifier from [exists: true] to
    [exists: false]: no other player holds the identifier.  (The key is
    taken to be within INTEGER, the end of the sequence of keys not
    being modelled.) *)
Theorem check_player_id_after_delete (date_in : string -> option Z)
  (rs : list (Z * Later.request)) (reps : list reply) (d d' : Later.db)
  (q : Player.row) (rep : reply) :
  Later.serve_all date_in rs (Later.initializeDatabase None) = (reps, d) ->
  In q (Later.players (Later.tables d)) ->
  in_int4 (Player.id q) = true ->
  Later.delete_api_players_id (Player.id q) d = (rep, d') ->
  PlayerQueries.get_api_check_player_id (Player.player_id q)
    (Reads (Later.players (Later.tables d))) = Sent true /\
  PlayerQueries.get_api_check_player_id (Player.player_id q)
    (Reads (Later.players (Later.tables d'))) = Sent false /\
  rep = Json 200 (message_ "Player deleted successfully").
Proof.
  intros Hrun Hq Hk H. apply sound_serve_all in Hrun; [|apply sound_initially].
  rewrite !check_player_id_reads.
  assert (Hex : player_exists (Player.id q) (Later.players (Later.tables d)) = true).
  { apply player_exists_In. exists q. auto. }
  unfold Later.delete_api_players_id in H.
  rewrite (@delete_from_players_in (Player.id q) _ _ Hk) in H.
  rewrite Hex in H. simpl in H.
  assert (Hpos : (sql_count (filter (fun p => Player.id p =? Player.id q)
                              (Later.players (Later.tables d))) =? 0) = false).
  { apply Z.eqb_neq. unfold sql_count.
    assert (Hin : In q (filter (fun p => Player.id p =? Player.id q)
                               (Later.players (Later.tables d))))
      by (apply filter_In; split; auto; apply Z.eqb_refl).
    destruct (filter _ _); [contradiction | simpl; lia]. }
  rewrite Hpos in H. inversion H; subst; clear H. simpl. split; [|split; auto].
  - f_equal. apply existsb_exists. exists q. split; auto. apply String.eqb_refl.
  - f_equal. apply not_true_is_false. intros Ht. apply existsb_exists in Ht.
    destruct Ht as (p & Hp & E). apply filter_In in Hp. destruct Hp as [Hp Hne].
    apply String.eqb_eq in E.
    assert (p = q)
      by (eapply NoDup_map_same; eauto; apply Hrun).
    subst p. rewrite Z.eqb_refl in Hne. discriminate.
Qed.

(** ** What an update of a profile leaves alone *)

(** X14.  PUT /api/players/:id changes no key, no statistics counter, no
    count of form submissions and no creation time, of any player; it
    changes no row at all unless it answers 200, and then none but the
    rows under the key of the path. *)
Theorem update_keeps_statistics (now key : Z) (b : PlayerBody.t)
  (l l' : list Player.row) (rep : reply) :
  Directory.put_api_players_id now key b l = (rep, l') ->
  map Player.id l' = map Player.id l /\
  map Player.counters_of l' = map Player.counters_of l /\
  map Player.form_submissions_count l' = map Player.form_submissions_count l /\
  map Player.created_at l' = map Player.created_at l /\
  (~ Ledger.succeeded rep -> l' = l) /\
  filter (fun p => negb (Player.id p =? key)) l'
  = filter (fun p => negb (Player.id p =? key)) l.
Proof.
  unfold Directory.put_api_players_id, update_players.
  destruct (coerce_update b key) as [[c k]|e] eqn:Ec;
    [|intros H; inversion H; subst; repeat split; auto].
  apply coerce_update_inv in Ec. destruct Ec as (-> & _ & _).
  destruct (negb (player_exists key l)) eqn:Ex;
    [intros H; inversion H; subst; repeat split; auto|].
  destruct (updated_profile c key l) as [[pid fn]|e];
    [|intros H; inversion H; subst; repeat split; auto].
  assert (Hpos : (Z.of_nat (List.length (filter (fun p => Player.id p =? key) l))
                  =? 0) = false).
  { apply negb_false_iff, existsb_exists in Ex. destruct Ex as (q & Hq & E).
    apply Z.eqb_neq.
    assert (Hin : In q (filter (fun p => Player.id p =? key) l))
      by (apply filter_In; auto).
    destruct (filter _ l); [contradiction | simpl; lia]. }
  rewrite Hpos. intros H; inversion H; subst; clear H.
  rewrite !map_map. repeat split.
  - apply map_ext. intros p. destruct (Player.id p =? key); reflexivity.
  - apply map_ext. intros p. destruct (Player.id p =? key); reflexivity.
  - apply map_ext. intros p. destruct (Player.id p =? key); reflexivity.
  - apply map_ext. intros p. destruct (Player.id p =? key); reflexivity.
  - intros Hno. exfalso. apply Hno. reflexivity.
  - clear Ex Hpos. induction l as [|p l IH]; simpl; auto.
    destruct (Player.id p =? key) eqn:E; simpl; rewrite ?E; simpl; rewrite IH;
      reflexivity.
Qed.

(** ** The earlier revision: increments *)

Section EarlierRecording.

Variable date_in : string -> option Z.

Lemma earlier_recording_cases (now : Z) (b : Earlier.SessionBody.t)
  (fs : list (option pg_error)) (d d' : Earlier.db) (rep : reply) :
  Earlier.post_api_sessions date_in now b fs d = (rep, d') ->
  (exists t1 s1 n t2 s2,
      Earlier.insert_into_player_sessions date_in now
        (Earlier.SessionBody.player_id b) (Earlier.SessionBody.session_date b)
        (Earlier.SessionBody.points_scored b) (Earlier.SessionBody.saves b)
        (Earlier.SessionBody.mvp_award b)
        (Earlier.tables d) (Earlier.serials d) = (Ok tt, t1, s1) /\
      Earlier.update_player_stats now
        (Earlier.SessionBody.points_scored b) (Earlier.SessionBody.saves b)
        (if truthy_bool (Earlier.SessionBody.mvp_award b) then 1 else 0)
        (Earlier.SessionBody.player_id b) t1 s1 = (Ok n, t2, s2) /\
      rep = Json 200 (message_ "Session statistics added successfully") /\
      d' = {| Earlier.tables := t2; Earlier.serials := s2 |})
  \/ (Earlier.tables d' = Earlier.tables d /\ ~ Ledger.succeeded rep).
Proof.
  unfold Earlier.post_api_sessions, Earlier.sessions_handler.
  destruct (negb (truthy_number (Earlier.SessionBody.player_id b))
            || negb (truthy_string (Earlier.SessionBody.session_date b))).
  - intros H; inversion H; subst. right. split; [reflexivity | discriminate].
  - match goal with
    | |- (let (_, _) := ?x in _) = _ -> _ => destruct x as [rep0 c] eqn:E
    end.
    intros H; inversion H; subst; clear H.
    apply transaction_outcome in E.
    destruct E as [(a & t1 & s1 & n & t2 & s2 & E1 & E2 & -> & Hc & Hs & _)
                  | (-> & _ & _ & [-> | [e [-> _]]])].
    + left. destruct a. exists t1, s1, n, t2, s2. rewrite Hc, Hs. auto.
    + right. split; [reflexivity | discriminate].
    + right. split; [reflexivity | discriminate].
Qed.

Lemma earlier_insert_ok (now : Z) (pid : option Z) (date : option string)
  (pts sv : option Z) (mvp : option bool) (t t1 : Earlier.data)
  (s s1 : Earlier.seqs) :
  Earlier.insert_into_player_sessions date_in now pid date pts sv mvp t s
  = (Ok tt, t1, s1) ->
  exists p row,
    pid = Some p /\
    Earlier.players t1 = Earlier.players t /\
    Earlier.player_sessions t1 = Earlier.player_sessions t ++ [row] /\
    Earlier.PlayerSession.player_id row = p /\
    Earlier.PlayerSession.points_scored row = pts /\
    Earlier.PlayerSession.saves row = sv /\
    Earlier.PlayerSession.mvp_award row = mvp.
Proof.
  unfold Earlier.insert_into_player_sessions, nextval, rbind.
  destruct (int4in_opt pid) as [p|] eqn:Ep; [|discriminate].
  destruct (Later.date_opt date_in date) as [day|]; [|discriminate].
  destruct (int4in_opt pts) as [pt|] eqn:Ept; [|discriminate].
  destruct (int4in_opt sv) as [sv'|] eqn:Esv; [|discriminate].
  apply int4in_opt_inv in Ep, Ept, Esv. subst p pt sv'.
  destruct pid as [p|]; simpl; [|discriminate].
  destruct day as [day|]; simpl; [|discriminate].
  destruct (existsb _ _); [discriminate|].
  destruct (negb (player_exists p (Earlier.players t))); [discriminate|].
  intros H; inversion H; subst. eexists _, _. simpl. repeat split; reflexivity.
Qed.

Lemma increment_where_rows (now : Z) (pt sv : option Z) (mv p : Z)
  (l l' : list Player.row) :
  Earlier.increment_where now pt sv mv p l = Ok l' ->
  Forall2 (fun q q' =>
             Player.id q' = Player.id q /\
             if Player.id q =? p
             then Earlier.incremented now pt sv mv q = Ok q'
             else q' = q) l l'.
Proof.
  revert l'. induction l as [|q l IH]; simpl; intros l' H.
  - inversion H. constructor.
  - unfold rbind in H.
    destruct (Player.id q =? p) eqn:E.
    + destruct (Earlier.incremented now pt sv mv q) as [q'|] eqn:Eq; [|discriminate].
      destruct (Earlier.increment_where now pt sv mv p l) as [r|]; [|discriminate].
      inversion H; subst. constructor; [|apply IH; reflexivity].
      rewrite E. split; auto.
      unfold Earlier.incremented, rbind in Eq.
      repeat match type of Eq with
             | match ?x with Ok _ => _ | Err _ => _ end = _ =>
                 destruct x; [|discriminate]
             end.
      inversion Eq. reflexivity.
    + destruct (Earlier.increment_where now pt sv mv p l) as [r|]; [|discriminate].
      inversion H; subst. constructor; [|apply IH; reflexivity].
      rewrite E. auto.
Qed.

Lemma int4pl_Some (x y : Z) (o : option Z) :
  int4pl (Some x) (Some y) = Ok o -> o = Some (x + y).
Proof.
  unfold int4pl, rbind. destruct (int4 (x + y)) as [z|] eqn:E; [|discriminate].
  apply int4_inv in E. destruct E as [-> _]. intros H; inversion H; reflexivity.
Qed.

Lemma earlier_update_ok (now : Z) (pts sv : option Z) (mv p n : Z)
  (t t2 : Earlier.data) (s s2 : Earlier.seqs) :
  Earlier.update_player_stats now pts sv mv (Some p) t s = (Ok n, t2, s2) ->
  Earlier.player_sessions t2 = Earlier.player_sessions t /\
  Forall2 (fun q q' =>
             Player.id q' = Player.id q /\
             if Player.id q =? p
             then Earlier.incremented now pts sv mv q = Ok q'
             else q' = q) (Earlier.players t) (Earlier.players t2).
Proof.
  unfold Earlier.update_player_stats, rbind.
  destruct (int4in_opt pts) as [pt|] eqn:Ept; [|discriminate].
  destruct (int4in_opt sv) as [sv'|] eqn:Esv; [|discriminate].
  destruct (int4in mv) as [m|] eqn:Em; [|discriminate].
  apply int4in_opt_inv in Ept, Esv. apply int4in_inv in Em. destruct Em as [-> _].
  subst pt sv'. simpl.
  destruct (int4in p) as [p'|] eqn:Ep; simpl; [|discriminate].
  apply int4in_inv in Ep. destruct Ep as [-> _].
  destruct (Earlier.increment_where now pts sv mv p (Earlier.players t)) as [l|] eqn:E;
    [|discriminate].
  intros H; inversion H; subst. simpl. split; auto.
  apply increment_where_rows. exact E.
Qed.

Lemma Forall2_In_r {A B : Type} (R : A -> B -> Prop) (l : list A) (l' : list B)
  (y : B) :
  Forall2 R l l' -> In y l' -> exists x, In x l /\ R x y.
Proof.
  induction 1 as [|a b l l' Hab _ IH]; simpl; [intros []|].
  intros [<- | Hy]; [exists a; auto|].
  destruct (IH Hy) as (x & Hx & Hr). exists x. auto.
Qed.

(** X15.  In the earlier revision, a call of POST /api/sessions whose
    body gives both the points and the saves keeps the counters of every
    player equal to the aggregates over its facts, when they were equal
    before: the increments drift only through an absent member. *)
Theorem earlier_increment_keeps_agreement (now : Z) (b : Earlier.SessionBody.t)
  (fs : list (option pg_error)) (d d' : Earlier.db) (rep : reply) (pt sv : Z) :
  Earlier.post_api_sessions date_in now b fs d = (rep, d') ->
  Earlier.SessionBody.points_scored b = Some pt ->
  Earlier.SessionBody.saves b = Some sv ->
  (forall p, EarlierLedger.counters_agree p (Earlier.tables d)) ->
  forall p, EarlierLedger.counters_agree p (Earlier.tables d').
Proof.
  intros H Hpt Hsv Hagree. apply earlier_recording_cases in H.
  destruct H as [(t1 & s1 & n & t2 & s2 & E1 & E2 & _ & ->) | [Ht _]];
    [|intros p; unfold EarlierLedger.counters_agree; rewrite Ht; apply Hagree].
  apply earlier_insert_ok in E1.
  destruct E1 as (p0 & row & Hp0 & Hpl1 & Hf1 & Hrp & Hrpt & Hrsv & Hrm).
  rewrite Hp0 in E2. apply earlier_update_ok in E2. destruct E2 as [Hf2 Hpl2].
  rewrite Hpl1 in Hpl2. simpl. intros p q' Hq' Hid.
  rewrite Hf2, Hf1.
  destruct (@Forall2_In_r _ _ _ _ _ q' Hpl2 Hq') as (q & Hq & Hsame & Hq0).
  specialize (Hagree (Player.id q) q Hq eq_refl).
  subst p. rewrite Hsame.
  unfold EarlierLedger.aggregates, Earlier.sessions_of in *.
  rewrite filter_app. simpl. rewrite Hrp.
  destruct (Player.id q =? p0) eqn:E.
  - apply Z.eqb_eq in E. rewrite E in *.
    rewrite Z.eqb_refl. rewrite !map_app, !filter_app, !length_app, !sum_Z_app.
    simpl. rewrite Hrpt, Hrsv, Hrm, Hpt, Hsv.
    unfold Earlier.incremented, rbind in Hq0.
    unfold Player.counters_of in Hagree. inversion Hagree as [[Hp Hs Hm Ha]].
    rewrite Hp, Hs, Hm, Ha, Hpt, Hsv in Hq0.
    repeat match type of Hq0 with
           | match ?x with Ok _ => _ | Err _ => _ end = _ =>
               let F := fresh "F" in
               destruct x eqn:F; [apply int4pl_Some in F; subst|discriminate]
           end.
    inversion Hq0; subst q'. unfold Player.counters_of. simpl.
    unfold stat, coalesce.
    destruct (Earlier.SessionBody.mvp_award b) as [[|]|]; simpl;
      repeat f_equal; lia.
  - subst q'. assert ((p0 =? Player.id q) = false) as ->.
    { apply Z.eqb_neq in E. apply Z.eqb_neq. congruence. }
    rewrite app_nil_r. exact Hagree.
Qed.

(** X16.  In the earlier revision the dashboard's [total_sessions]
    counts recordings, not dates: every successful POST /api/sessions
    raises it by exactly one, whatever the date, and a call that fails
    leaves it; neither changes [total_players]. *)
Theorem earlier_total_sessions_counts_recordings (now : Z)
  (b : Earlier.SessionBody.t) (fs : list (option pg_error))
  (d d' : Earlier.db) (rep : reply) :
  Earlier.post_api_sessions date_in now b fs d = (rep, d') ->
  (Ledger.succeeded rep ->
   Earlier.total_sessions d' = Earlier.total_sessions d + 1 /\
   Earlier.total_players d' = Earlier.total_players d)
  /\ (~ Ledger.succeeded rep ->
      Earlier.total_sessions d' = Earlier.total_sessions d /\
      Earlier.total_players d' = Earlier.total_players d).
Proof.
  intros H. apply earlier_recording_cases in H.
  unfold Earlier.total_sessions, Earlier.total_players, sql_count.
  destruct H as [(t1 & s1 & n & t2 & s2 & E1 & E2 & -> & ->) | [Ht Hno]].
  - split; [intros _ | intros Hno; exfalso; apply Hno; reflexivity].
    apply earlier_insert_ok in E1.
    destruct E1 as (p0 & row & Hp0 & Hpl1 & Hf1 & _).
    rewrite Hp0 in E2. apply earlier_update_ok in E2. destruct E2 as [Hf2 Hpl2].
    simpl. rewrite Hf2, Hf1, length_app. simpl.
    rewrite <- (Forall2_length Hpl2), Hpl1. split; lia.
  - split; [intros Hok; contradiction | intros _]. rewrite Ht. auto.
Qed.

End EarlierRecording.

(** X17.  In the earlier revision, GET /api/players/:id/sessions under
    a key within INTEGER answers with the facts of that player and no
    other, each once, the latest date first; under a key outside
    INTEGER it answers 500 with the store's text. *)
Theorem earlier_history_newest_first (key : Z) (d : Earlier.db) :
  (in_int4 key = true ->
   exists rows,
     Earlier.get_api_players_id_sessions key (Reads d) = Sent rows /\
     Permutation rows
       (Earlier.sessions_of key (Earlier.player_sessions (Earlier.tables d))) /\
     Schema.ordered (fun a b => Earlier.PlayerSession.session_date b
                                <=? Earlier.PlayerSession.session_date a) rows)
  /\
  (in_int4 key = false ->
   Earlier.get_api_players_id_sessions key (Reads d)
   = Refused 500 (message (out_of_range_for_integer (decimal key)))).
Proof.
  unfold Earlier.get_api_players_id_sessions, Earlier.select_player_sessions.
  simpl. split; intros Hk.
  - rewrite (@int4in_ok _ Hk). simpl.
    eexists. split; [reflexivity|]. split; [apply order_by_perm|].
    apply order_by_ordered.
    + intros a b.
      destruct (Z.le_ge_cases (Earlier.PlayerSession.session_date a)
                              (Earlier.PlayerSession.session_date b));
        [right | left]; apply Z.leb_le; lia.
    + intros a b c H1 H2. apply Z.leb_le in H1, H2. apply Z.leb_le. lia.
  - rewrite (@int4in_out _ Hk). reflexivity.
Qed.

(** ** What a recording needs, and what no request does to a session *)

(** X18.  In every store reached from the empty one, POST
    /api/player-sessions answers 200 only when the body names a player
    key and a session key, neither of them 0, of a stored player and a
    stored session. *)
Theorem recording_needs_known_references (date_in : string -> option Z)
  (rs : list (Z * Later.request)) (reps : list reply) (d d' : Later.db)
  (now : Z) (b : Later.StatsBody.t) (fs : list (option pg_error)) (rep : reply) :
  Later.serve_all date_in rs (Later.initializeDatabase None) = (reps, d) ->
  Later.post_api_player_sessions now b fs d = (rep, d') ->
  Ledger.succeeded rep ->
  exists p se,
    Later.StatsBody.player_id b = Some p /\ p <> 0 /\
    Later.StatsBody.session_id b = Some se /\ se <> 0 /\
    player_exists p (Later.players (Later.tables d)) = true /\
    Later.session_exists se (Later.sessions (Later.tables d)) = true.
Proof.
  intros Hrun H Hok. apply sound_serve_all in Hrun; [|apply sound_initially].
  assert (Hv : negb (truthy_number (Later.StatsBody.player_id b))
               || negb (truthy_number (Later.StatsBody.session_id b)) = false).
  { unfold Later.post_api_player_sessions, Later.player_sessions_handler in H.
    destruct (negb _ || negb _); [|reflexivity].
    inversion H; subst. discriminate Hok. }
  apply orb_false_iff in Hv. destruct Hv as [Hv1 Hv2].
  apply negb_false_iff in Hv1, Hv2.
  apply recording_cases in H.
  destruct H as [(p & t1 & s1 & n & t2 & Hp & E1 & _) | (_ & [-> | [-> | [e ->]]])];
    try discriminate Hok.
  apply upsert_sound in E1.
  destruct E1 as (p1 & se & Hp1 & Hse & _ & _ & _ & Hf).
  inversion Hp1; subst p1. exists p, se.
  rewrite Hp, Hse in *. simpl in Hv1, Hv2.
  apply negb_true_iff, Z.eqb_neq in Hv1, Hv2.
  repeat (split; [assumption || reflexivity|]).
  destruct Hf as [[Hex _] | (_ & _ & Hpl & Hss & _)]; [|auto].
  apply existsb_exists in Hex. destruct Hex as (r & Hr & Hpair).
  apply andb_true_iff in Hpair. destruct Hpair as [Ep Es].
  apply Z.eqb_eq in Ep, Es.
  pose proof (Schema.player_sessions_player_id_fkey Hrun _ Hr) as F1.
  pose proof (Schema.player_sessions_session_id_fkey Hrun _ Hr) as F2.
  rewrite Ep in F1. rewrite Es in F2. auto.
Qed.

Section Sessions.

Variable date_in : string -> option Z.

Lemma sessions_kept_serve (now : Z) (r : Later.request) (d d' : Later.db)
  (rep : reply) :
  Later.serve date_in now r d = (rep, d') ->
  exists new, Later.sessions (Later.tables d')
              = Later.sessions (Later.tables d) ++ new.
Proof.
  destruct r as [b|key b|key|date|b fs|]; simpl; intros H.
  - unfold Later.post_api_players in H.
    destruct (Directory.post_api_players _ _ _ _) as [[rep0 l] n].
    inversion H; subst. exists []. simpl. rewrite app_nil_r. reflexivity.
  - unfold Later.put_api_players_id in H.
    destruct (Directory.put_api_players_id _ _ _ _) as [rep0 l].
    inversion H; subst. exists []. simpl. rewrite app_nil_r. reflexivity.
  - unfold Later.delete_api_players_id in H.
    destruct (Later.delete_from_players _ _ _) as [[[n|e] t] s] eqn:E.
    + apply delete_from_players_cases in E. destruct E as [-> E].
      assert (Later.tables d' = t) by (destruct (n =? 0); inversion H; reflexivity).
      subst t. exists []. rewrite app_nil_r. destruct E as [-> | ->]; reflexivity.
    + inversion H; subst. exists []. simpl. rewrite app_nil_r. reflexivity.
  - apply post_api_sessions_cases in H.
    destruct H as (_ & _ & [[-> _] | (s & -> & _)]).
    + exists []. rewrite app_nil_r. reflexivity.
    + exists [s]. reflexivity.
  - apply recording_cases in H.
    destruct H as [(p & t1 & s1 & n & t2 & _ & E1 & E2 & _ & ->) | [-> _]].
    + apply upsert_ok in E1. destruct E1 as (p1 & se & _ & _ & _ & Hs1 & _).
      apply update_stats_ok in E2. destruct E2 as (_ & Hs2 & _).
      exists []. simpl. rewrite app_nil_r. congruence.
    + exists []. rewrite app_nil_r. reflexivity.
  - inversion H; subst. exists []. simpl. rewrite app_nil_r. reflexivity.
Qed.

(** X19.  No request removes or rewrites a session: after any run of
    requests the sessions table is the one before the run, followed by
    the sessions the run created. *)
Theorem sessions_are_never_removed (rs : list (Z * Later.request))
  (d d' : Later.db) (reps : list reply) :
  Later.serve_all date_in rs d = (reps, d') ->
  exists new, Later.sessions (Later.tables d')
              = Later.sessions (Later.tables d) ++ new.
Proof.
  revert d reps. induction rs as [|[now r] rs IH]; simpl; intros d reps H.
  - inversion H; subst. exists []. rewrite app_nil_r. reflexivity.
  - destruct (Later.serve date_in now r d) as [rep d1] eqn:E1.
    destruct (Later.serve_all date_in rs d1) as [reps' d2] eqn:E2.
    inversion H; subst. apply sessions_kept_serve in E1. apply IH in E2.
    destruct E1 as [n1 E1], E2 as [n2 E2]. exists (n1 ++ n2).
    rewrite E2, E1, app_assoc. reflexivity.
Qed.

End Sessions.

(** X20.  Every store reached from the empty one by a run of requests,
    and the store the next start of the service makes of it, satisfies
    the constraints of the DDL: no two players under one key or one
    identifier, no two sessions under one key or one date, no two facts
    under one key or for one pair of a player and a session, and every
    fact referencing a stored player and a stored session. *)
Theorem constraints_hold_along_runs (date_in : string -> option Z)
  (rs : list (Z * Later.request)) (reps : list reply) (d : Later.db) :
  Later.serve_all date_in rs (Later.initializeDatabase None) = (reps, d) ->
  Schema.sound (Later.tables d)
  /\ Schema.sound (Later.tables (Later.initializeDatabase (Some d))).
Proof.
  intros H. apply sound_serve_all in H; [|apply sound_initially].
  split; [exact H|].
  destruct H as [S1 S2 S3 S4 S5 S6 S7 S8].
  split; simpl; auto; try constructor; intros r [].
Qed.

(** ** The theorems at the season *)

Lemma players_list_sorted_and_counted_witness :
  exists rows,
    PlayerQueries.get_api_players_list String.leb
      (Reads (Later.players (Later.tables Season.final)))
    = Sent {| PlayersList.players := rows;
              PlayersList.count :=
                sql_count (Later.players (Later.tables Season.final)) |} /\
    Permutation rows
      (map PlayerQueries.list_columns (Later.players (Later.tables Season.final))) /\
    Schema.ordered (fun a b => String.leb (PlayersList.full_name a)
                                          (PlayersList.full_name b)) rows.
Proof.
  exact (@players_list_sorted_and_counted String.leb
           (Later.players (Later.tables Season.final)) string_leb_is_order).
Defined.

Lemma roster_in_name_order_witness :
  Schema.ordered (fun a b => String.leb (Player.full_name (PlayerStats.player a))
                                        (Player.full_name (PlayerStats.player b)))
                 Season.roster.
Proof.
  apply (@roster_in_name_order String.leb (fun _ _ => 16%nat)
           (Later.players (Later.tables Season.final)) Season.roster
           string_leb_is_order).
  vm_compute. reflexivity.
Defined.

Lemma history_lists_each_fact_witness :
  exists rows,
    Later.get_api_players_id_sessions 1 (Reads Season.final) = Sent rows /\
    Permutation (map Later.History.fact rows)
                (Later.sessions_of 1
                   (Later.player_sessions (Later.tables Season.final))) /\
    (forall h, In h rows ->
       exists s, In s (Later.sessions (Later.tables Season.final)) /\
         Later.Session.id s
         = Later.PlayerSession.session_id (Later.History.fact h) /\
         Later.Session.session_date s = Later.History.session_date h) /\
    Schema.ordered (fun a b => Later.History.session_date b
                               <=? Later.History.session_date a) rows /\
    (player_exists 1 (Later.players (Later.tables Season.final)) = false ->
     rows = []).
Proof.
  apply (proj1 (@history_lists_each_fact Season.dates Season.run Season.replies
                  Season.final 1 ltac:(vm_compute; reflexivity))).
  reflexivity.
Defined.

Lemma season_has_no_repair :
  Forall (fun c : Z * Later.request => ~ Ledger.is_repair (snd c)) Season.run.
Proof.
  repeat (constructor; [simpl; tauto|]). constructor.
Defined.

Lemma history_matches_counters_witness :
  exists rows,
    Later.get_api_players_id_sessions (Player.id Season.cleo) (Reads Season.final)
    = Sent rows /\
    Player.sessions_attended_count Season.cleo = Some (sql_count rows) /\
    Player.mvp_awards_count Season.cleo
    = Some (sql_count
              (filter (fun h => is_true (Later.PlayerSession.mvp_award
                                           (Later.History.fact h))) rows)) /\
    Player.total_points_scored Season.cleo
    = Some (sum_Z (map (fun h => stat (Later.PlayerSession.points_scored
                                         (Later.History.fact h))) rows)) /\
    Player.total_saves Season.cleo
    = Some (sum_Z (map (fun h => stat (Later.PlayerSession.saves
                                         (Later.History.fact h))) rows)).
Proof.
  apply (@history_matches_counters Season.dates Season.run Season.replies
           Season.final Season.cleo).
  - vm_compute. reflexivity.
  - exact season_has_no_repair.
  - left. reflexivity.
  - reflexivity.
Defined.

Lemma lineup_lists_each_player_once_witness :
  exists rows,
    Later.get_api_sessions_id_players String.leb 1 (Reads Season.final)
    = Sent rows /\
    NoDup (map Later.Lineup.id rows) /\
    (forall row, In row rows <->
       exists p r,
         In p (Later.players (Later.tables Season.final)) /\
         In r (Later.player_sessions (Later.tables Season.final)) /\
         Later.PlayerSession.player_id r = Player.id p /\
         Later.PlayerSession.session_id r = 1 /\
         row = Later.lineup_columns p r) /\
    Schema.ordered (fun a b => String.leb (Later.Lineup.full_name a)
                                          (Later.Lineup.full_name b)) rows.
Proof.
  apply (proj1 (@lineup_lists_each_player_once String.leb Season.dates
                  Season.run Season.replies Season.final 1 string_leb_is_order
                  ltac:(vm_compute; reflexivity))).
  reflexivity.
Defined.

Lemma check_player_id_after_create_witness :
  PlayerQueries.get_api_check_player_id "P1"
    (Reads (Later.players (Later.tables (snd Season.without_cleo)))) = Sent false /\
  PlayerQueries.get_api_check_player_id "P1"
    (Reads (snd (fst Season.created_again))) = Sent true.
Proof.
  apply (@check_player_id_after_create 11 Season.cleo_again
           (Later.players (Later.tables (snd Season.without_cleo)))
           (snd (fst Season.created_again)) 4 (snd Season.created_again)
           (fst (fst Season.created_again)) "P1").
  - vm_compute. reflexivity.
  - vm_compute. reflexivity.
  - reflexivity.
  - simpl. lia.
Defined.

Lemma check_player_id_after_delete_witness :
  PlayerQueries.get_api_check_player_id (Player.player_id Season.cleo)
    (Reads (Later.players (Later.tables Season.final))) = Sent true /\
  PlayerQueries.get_api_check_player_id (Player.player_id Season.cleo)
    (Reads (Later.players (Later.tables (snd Season.without_cleo)))) = Sent false /\
  fst Season.without_cleo = Json 200 (message_ "Player deleted successfully").
Proof.
  apply (@check_player_id_after_delete Season.dates Season.run Season.replies
           Season.final (snd Season.without_cleo) Season.cleo
           (fst Season.without_cleo)).
  - vm_compute. reflexivity.
  - left. reflexivity.
  - reflexivity.
  - vm_compute. reflexivity.
Defined.

Lemma update_keeps_statistics_witness :
  map Player.id (snd Season.renamed)
  = map Player.id (Later.players (Later.tables Season.final)) /\
  map Player.counters_of (snd Season.renamed)
  = map Player.counters_of (Later.players (Later.tables Season.final)) /\
  map Player.form_submissions_count (snd Season.renamed)
  = map Player.form_submissions_count (Later.players (Later.tables Season.final)) /\
  map Player.created_at (snd Season.renamed)
  = map Player.created_at (Later.players (Later.tables Season.final)) /\
  (~ Ledger.succeeded (fst Season.renamed) ->
   snd Season.renamed = Later.players (Later.tables Season.final)) /\
  filter (fun p => negb (Player.id p =? 1)) (snd Season.renamed)
  = filter (fun p => negb (Player.id p =? 1))
           (Later.players (Later.tables Season.final)).
Proof.
  apply (@update_keeps_statistics 12 1
           (Season.player "P1" "Cleopatra" (Some "Advanced"))
           (Later.players (Later.tables Season.final))
           (snd Season.renamed) (fst Season.renamed)).
  vm_compute. reflexivity.
Defined.

Lemma player_keys_never_reused_witness : 1 < 2.
Proof.
  apply (@player_keys_never_reused Season.dates 2 11
           Season.cleo_again Season.cleo_again
           [(10, Later.DELETE_players 1)] (fst Season.cleo_gone)
           (Later.initializeDatabase None) (snd Season.first_cleo)
           (snd Season.cleo_gone) (snd Season.second_cleo)
           "Player added successfully" "Player added successfully" "P1" "P1" 1 2).
  - vm_compute. reflexivity.
  - vm_compute. reflexivity.
  - vm_compute. reflexivity.
Defined.

Lemma recording_needs_known_references_witness :
  exists p se,
    Later.StatsBody.player_id (Season.record 2 2 3 0 false) = Some p /\ p <> 0 /\
    Later.StatsBody.session_id (Season.record 2 2 3 0 false) = Some se /\ se <> 0 /\
    player_exists p (Later.players (Later.tables Season.final)) = true /\
    Later.session_exists se (Later.sessions (Later.tables Season.final)) = true.
Proof.
  apply (@recording_needs_known_references Season.dates Season.run Season.replies
           Season.final (snd Season.one_more) 13 (Season.record 2 2 3 0 false) []
           (fst Season.one_more)).
  - vm_compute. reflexivity.
  - vm_compute. reflexivity.
  - vm_compute. reflexivity.
Defined.

Lemma sessions_are_never_removed_witness :
  exists new,
    Later.sessions (Later.tables Season.final)
    = Later.sessions (Later.tables (Later.initializeDatabase None)) ++ new.
Proof.
  apply (@sessions_are_never_removed Season.dates Season.run
           (Later.initializeDatabase None) Season.final Season.replies).
  vm_compute. reflexivity.
Defined.

Lemma constraints_hold_along_runs_witness :
  Schema.sound (Later.tables Season.final)
  /\ Schema.sound (Later.tables (Later.initializeDatabase (Some Season.final))).
Proof.
  apply (@constraints_hold_along_runs Season.dates Season.run Season.replies
           Season.final).
  vm_compute. reflexivity.
Defined.

Lemma earlier_with_ann_agrees (p : Z) :
  EarlierLedger.counters_agree p (Earlier.tables Scenario.earlier_with_ann).
Proof.
  intros q [<- | []] _. vm_compute. reflexivity.
Defined.

Lemma earlier_increment_keeps_agreement_witness :
  (forall p, EarlierLedger.counters_agree p
               (Earlier.tables Scenario.earlier_with_ann)) /\
  (forall p, EarlierLedger.counters_agree p
               (Earlier.tables (snd Season.earlier_recorded))).
Proof.
  split; [exact earlier_with_ann_agrees|].
  apply (@earlier_increment_keeps_agreement Season.dates 2
           (Scenario.earlier_stats 10) [] Scenario.earlier_with_ann
           (snd Season.earlier_recorded) (fst Season.earlier_recorded) 10 2).
  - vm_compute. reflexivity.
  - reflexivity.
  - reflexivity.
  - exact earlier_with_ann_agrees.
Defined.

Lemma earlier_total_sessions_counts_recordings_witness :
  (Ledger.succeeded (fst Season.earlier_recorded) ->
   Earlier.total_sessions (snd Season.earlier_recorded)
   = Earlier.total_sessions Scenario.earlier_with_ann + 1 /\
   Earlier.total_players (snd Season.earlier_recorded)
   = Earlier.total_players Scenario.earlier_with_ann)
  /\ (~ Ledger.succeeded (fst Season.earlier_recorded) ->
      Earlier.total_sessions (snd Season.earlier_recorded)
      = Earlier.total_sessions Scenario.earlier_with_ann /\
      Earlier.total_players (snd Season.earlier_recorded)
      = Earlier.total_players Scenario.earlier_with_ann).
Proof.
  apply (@earlier_total_sessions_counts_recordings Season.dates 2
           (Scenario.earlier_stats 10) [] Scenario.earlier_with_ann
           (snd Season.earlier_recorded) (fst Season.earlier_recorded)).
  vm_compute. reflexivity.
Defined.

(** ** The dashboard page *)

Lemma map_or_throw_None {A B : Type} (f : A -> option B) (l : list A) :
  map_or_throw f l = None <-> exists a, In a l /\ f a = None.
Proof.
  induction l as [|a l IH]; simpl.
  - split; [discriminate | intros (a & [] & _)].
  - destruct (f a) as [b|] eqn:E.
    + destruct (map_or_throw f l) as [bs|]; simpl.
      * split; [discriminate|]. intros (x & [<- | Hx] & Hf); [congruence|].
        exfalso. assert (Some bs = None) by (apply IH; eauto). discriminate.
      * split; [|reflexivity]. intros _.
        destruct (proj1 IH eq_refl) as (x & Hx & Hf). eauto.
    + split; [|reflexivity]. intros _. exists a. auto.
Qed.

Lemma map_or_throw_Some {A B : Type} (f : A -> option B) (l : list A)
  (bs : list B) :
  map_or_throw f l = Some bs -> Forall2 (fun a b => f a = Some b) l bs.
Proof.
  revert bs. induction l as [|a l IH]; simpl; intros bs H.
  - inversion H. constructor.
  - destruct (f a) as [b|] eqn:E; [|discriminate].
    destruct (map_or_throw f l) as [bs0|]; [|discriminate].
    inversion H; subst. constructor; auto.
Qed.

Lemma set_innerHTML_other (id html : string) (doc : document) (i : string) :
  i <> id -> set_innerHTML id html doc i = doc i.
Proof.
  intros H. unfold set_innerHTML. apply String.eqb_neq in H. rewrite H. reflexivity.
Qed.

Lemma set_innerHTML_same (id html : string) (doc : document) :
  set_innerHTML id html doc id = option_map (fun _ => html) (doc id).
Proof.
  unfold set_innerHTML. rewrite String.eqb_refl. destruct (doc id); reflexivity.
Qed.



(** X22.  The grid of players needs a skill level of each of the first
    six players of the roster: when one of them has none, which POST
    /api/players allows, loadDashboard throws after it has written the
    statistics cards, and leaves the element [players-list] as it was;
    when each has one it returns, and the element holds their cards, in
    the order of the roster, and no card of a seventh player. *)
Theorem grid_needs_skill_levels (time_text date_text : Z -> string)
  (stats : Later.Stats.t) (rows : list PlayerStats.row) (doc : document)
  (was : string) :
  doc "players-list" = Some was -> rows <> [] ->
  let r := Page.loadDashboard time_text date_text
             (Response 200 (Some stats)) (Response 200 (Some rows)) doc in
  requests r = ["/api/dashboard"; "/api/players"] /\
  page r "dashboard-stats"
  = option_map (fun _ => Page.stat_cards stats) (doc "dashboard-stats") /\
  ((exists row, In row (firstn 6 rows) /\
                Player.skill_level (PlayerStats.player row) = None) ->
   returned r = false /\ page r "players-list" = Some was) /\
  ((forall row, In row (firstn 6 rows) ->
                Player.skill_level (PlayerStats.player row) <> None) ->
   returned r = true /\
   exists cards,
     Forall2 (fun row card => Page.player_card row = Some card)
             (firstn 6 rows) cards /\
     page r "players-list" = Some (join cards)).
Proof.
  intros Hdoc Hrows. unfold Page.loadDashboard. cbv zeta.
  change (fetchData (Response 200 (Some stats))) with (Some stats).
  change (fetchData (Response 200 (Some rows))) with (Some rows). cbv iota beta.
  set (doc1 := set_innerHTML "recent-sessions" _ _).
  assert (H1 : doc1 "players-list" = Some was).
  { unfold doc1. rewrite !set_innerHTML_other by discriminate. exact Hdoc. }
  assert (H2 : doc1 "dashboard-stats"
               = option_map (fun _ => Page.stat_cards stats) (doc "dashboard-stats")).
  { unfold doc1. rewrite !set_innerHTML_other by discriminate.
    apply set_innerHTML_same. }
  rewrite H1. destruct rows as [|row0 rows]; [contradiction|].
  destruct (map_or_throw Page.player_card (firstn 6 (row0 :: rows))) as [cards|] eqn:E;
    simpl; (split; [reflexivity|]); split.
  - rewrite set_innerHTML_other by discriminate. exact H2.
  - split.
    + intros (row & Hin & Hnone). exfalso.
      assert (map_or_throw Page.player_card (firstn 6 (row0 :: rows)) = None).
      { apply map_or_throw_None. exists row. split; auto.
        unfold Page.player_card. rewrite Hnone. reflexivity. }
      congruence.
    + intros _. split; [reflexivity|]. exists cards. split.
      * apply map_or_throw_Some. exact E.
      * rewrite set_innerHTML_same, H1. reflexivity.
  - exact H2.
  - split.
    + intros _. auto.
    + intros Hall. exfalso. apply map_or_throw_None in E.
      destruct E as (row & Hin & Hcard). apply (Hall row Hin).
      unfold Page.player_card in Hcard.
      destruct (Player.skill_level (PlayerStats.player row)); [discriminate|reflexivity].
Qed.

(** X23.  The same holds of the first revision of the page
    ([public/app.js]): a player without a skill level among the first
    six makes its loadDashboard throw and leaves [players-list] as it
    was. *)
Theorem earlier_grid_needs_skill_levels (stats : EarlierPage.stats)
  (rows : list PlayerStats.row) (doc : document) (was : string) :
  doc "players-list" = Some was -> rows <> [] ->
  let r := EarlierPage.loadDashboard
             (Response 200 (Some stats)) (Response 200 (Some rows)) doc in
  requests r = ["/api/dashboard"; "/api/players"] /\
  page r "dashboard-stats"
  = option_map (fun _ => EarlierPage.stat_cards stats) (doc "dashboard-stats") /\
  ((exists row, In row (firstn 6 rows) /\
                Player.skill_level (PlayerStats.player row) = None) ->
   returned r = false /\ page r "players-list" = Some was) /\
  ((forall row, In row (firstn 6 rows) ->
                Player.skill_level (PlayerStats.player row) <> None) ->
   returned r = true /\
   exists cards,
     Forall2 (fun row card => EarlierPage.player_card row = Some card)
             (firstn 6 rows) cards /\
     page r "players-list" = Some (join cards)).
Proof.
  intros Hdoc Hrows. unfold EarlierPage.loadDashboard. cbv zeta.
  change (fetchData (Response 200 (Some stats))) with (Some stats).
  change (fetchData (Response 200 (Some rows))) with (Some rows). cbv iota beta.
  set (doc1 := set_innerHTML "top-mvps" _ _).
  assert (H1 : doc1 "players-list" = Some was).
  { unfold doc1. rewrite !set_innerHTML_other by discriminate. exact Hdoc. }
  assert (H2 : doc1 "dashboard-stats"
               = option_map (fun _ => EarlierPage.stat_cards stats)
                            (doc "dashboard-stats")).
  { unfold doc1. rewrite !set_innerHTML_other by discriminate.
    apply set_innerHTML_same. }
  rewrite H1. destruct rows as [|row0 rows]; [contradiction|].
  destruct (map_or_throw EarlierPage.player_card (firstn 6 (row0 :: rows)))
    as [cards|] eqn:E; simpl; (split; [reflexivity|]); split.
  - rewrite set_innerHTML_other by discriminate. exact H2.
  - split.
    + intros (row & Hin & Hnone). exfalso.
      assert (map_or_throw EarlierPage.player_card (firstn 6 (row0 :: rows)) = None).
      { apply map_or_throw_None. exists row. split; auto.
        unfold EarlierPage.player_card. rewrite Hnone. reflexivity. }
      congruence.
    + intros _. split; [reflexivity|]. exists cards. split.
      * apply map_or_throw_Some. exact E.
      * rewrite set_innerHTML_same, H1. reflexivity.
  - exact H2.
  - split.
    + intros _. auto.
    + intros Hall. exfalso. apply map_or_throw_None in E.
      destruct E as (row & Hin & Hcard). apply (Hall row Hin).
      unfold EarlierPage.player_card in Hcard.
      destruct (Player.skill_level (PlayerStats.player row)); [discriminate|reflexivity].
Qed.

Lemma earlier_cards_written (stats : EarlierPage.stats)
  (players : fetched (list PlayerStats.row)) (doc : document) :
  page (EarlierPage.loadDashboard (Response 200 (Some stats)) players doc)
       "dashboard-stats"
  = option_map (fun _ => EarlierPage.stat_cards stats) (doc "dashboard-stats").
Proof.
  unfold EarlierPage.loadDashboard. cbv zeta.
  change (fetchData (Response 200 (Some stats))) with (Some stats). cbv iota beta.
  set (doc1 := set_innerHTML "top-mvps" _ _).
  assert (H2 : doc1 "dashboard-stats"
               = option_map (fun _ => EarlierPage.stat_cards stats)
                            (doc "dashboard-stats")).
  { unfold doc1. rewrite !set_innerHTML_other by discriminate.
    apply set_innerHTML_same. }
  destruct (fetchData players) as [[|row rows]|]; destruct (doc1 "players-list");
    cbn [page]; try exact H2.
  destruct (map_or_throw EarlierPage.player_card (firstn 6 (row :: rows)));
    cbn [page]; exact H2.
Qed.

(** X24.  The first revision of the page reads the number of sessions
    and the average attendance from a member [attendance_stats], and
    the dashboard object of neither revision of the service has a
    member of that name: whatever the service has stored and whatever
    the roster request settles to, the page writes the cards with the
    number of players, 0 for Total Sessions and 0 for Avg Attendance. *)
Theorem earlier_page_shows_no_session_totals (s : Later.Stats.t)
  (e : Earlier.Stats.t) (players : fetched (list PlayerStats.row))
  (doc : document) :
  get_member "attendance_stats" (later_dashboard s) = None /\
  get_member "attendance_stats" (earlier_dashboard e) = None /\
  EarlierPage.read (later_dashboard s) = EarlierPage.of_later s /\
  EarlierPage.read (earlier_dashboard e) = EarlierPage.of_earlier e /\
  page (EarlierPage.loadDashboard
          (Response 200 (Some (EarlierPage.read (later_dashboard s))))
          players doc) "dashboard-stats"
  = option_map
      (fun _ => EarlierPage.cards
                  (number_or_zero (Some (Later.Stats.total_players s))) "0" "0")
      (doc "dashboard-stats") /\
  page (EarlierPage.loadDashboard
          (Response 200 (Some (EarlierPage.read (earlier_dashboard e))))
          players doc) "dashboard-stats"
  = option_map
      (fun _ => EarlierPage.cards
                  (number_or_zero (Some (Earlier.Stats.total_players e))) "0" "0")
      (doc "dashboard-stats").
Proof.
  repeat (split; [reflexivity|]).
  split; apply earlier_cards_written.
Qed.

(** At the end of the season the later service counts two sessions; the
    first page, served that dashboard, shows none. *)
Example earlier_page_scenario :
  Later.Stats.total_sessions Landing.dashboard = 2 /\
  page (EarlierPage.loadDashboard
          (Response 200
             (Some (EarlierPage.read (later_dashboard Landing.dashboard))))
          (Response 200 (Some [])) Landing.empty_page) "dashboard-stats"
  = Some (EarlierPage.cards "3" "0" "0").
Proof. vm_compute. split; reflexivity. Qed.


Lemma grid_needs_skill_levels_witness :
  returned (Page.loadDashboard decimal decimal
              (Response 200 (Some Landing.dashboard))
              (Response 200 (Some Season.roster)) Landing.empty_page) = false /\
  page (Page.loadDashboard decimal decimal
          (Response 200 (Some Landing.dashboard))
          (Response 200 (Some Season.roster)) Landing.empty_page) "players-list"
  = Some "".
Proof.
  apply (@grid_needs_skill_levels decimal decimal Landing.dashboard Season.roster
           Landing.empty_page "").
  - reflexivity.
  - discriminate.
  - eexists. split; [right; left; reflexivity | reflexivity].
Defined.

Lemma earlier_grid_needs_skill_levels_witness :
  returned (EarlierPage.loadDashboard
              (Response 200 (Some (EarlierPage.of_later Landing.dashboard)))
              (Response 200 (Some Season.roster)) Landing.empty_page) = false /\
  page (EarlierPage.loadDashboard
          (Response 200 (Some (EarlierPage.of_later Landing.dashboard)))
          (Response 200 (Some Season.roster)) Landing.empty_page) "players-list"
  = Some "".
Proof.
  apply (@earlier_grid_needs_skill_levels (EarlierPage.of_later Landing.dashboard)
           Season.roster Landing.empty_page "").
  - reflexivity.
  - discriminate.
  - eexists. split; [right; left; reflexivity | reflexivity].
Defined.

(** ** Round trips: what is written is what is read *)

(** X25.  What POST /api/players stores is what GET /api/players/:id
    gives back: under the key a successful call answers with, where
    there was no player before it, there is the row of the fields of the
    body, as their columns hold them, with every counter 0 and the time
    of the call as its creation time.  (The key is taken to be within
    INTEGER, the end of the sequence of keys not being modelled.) *)
Theorem create_then_get (now : Z) (b : PlayerBody.t) (l l' : list Player.row)
  (seq seq' : Z) (msg pid : string) (key : Z) :
  Directory.post_api_players now b l seq
  = (Json 200 (player_added msg pid key), l', seq') ->
  in_int4 key = true ->
  exists c row,
    coerce_profile b = Ok c /\
    Directory.get_api_players_id key l' = Json 200 (player_ row) /\
    Directory.get_api_players_id key l = Json 404 (error_ "Player not found") /\
    Player.id row = key /\
    PlayerBody.player_id c = Some (Player.player_id row) /\
    PlayerBody.full_name c = Some (Player.full_name row) /\
    Player.phone_number row = PlayerBody.phone_number c /\
    Player.instagram_username row = PlayerBody.instagram_username c /\
    Player.age row = PlayerBody.age c /\
    Player.skill_level row = PlayerBody.skill_level c /\
    Player.counters_of row = zero_counters /\
    Player.created_at row = now.
Proof.
  unfold Directory.post_api_players.
  destruct (negb (truthy_string (PlayerBody.player_id b))
            || negb (truthy_string (PlayerBody.full_name b))); [discriminate|].
  unfold insert_into_players, nextval.
  destruct (coerce_profile b) as [c|e];
    [|destruct (String.eqb (code e) "23505"); discriminate].
  destruct (new_player now seq c l) as [row|e] eqn:En;
    [|destruct (String.eqb (code e) "23505"); discriminate].
  intros H Hk; inversion H; subst; clear H.
  unfold new_player, rbind, not_null in En.
  destruct (PlayerBody.player_id c) as [pid0|] eqn:Ep; [|discriminate].
  destruct (PlayerBody.full_name c) as [fn0|] eqn:Ef; [|discriminate].
  destruct (check_skill_level (PlayerBody.skill_level c)); [|discriminate].
  destruct (player_exists key l) eqn:Ex; [discriminate|].
  destruct (player_id_taken pid0 l); [discriminate|].
  inversion En; subst row; clear En.
  assert (Hnone : filter (fun p => Player.id p =? key) l = []).
  { apply filter_none. intros q Hq.
    destruct (Player.id q =? key) eqn:E; [|reflexivity].
    assert (player_exists key l = true)
      by (apply player_exists_In; exists q; split; auto; lia).
    congruence. }
  exists c. eexists. split; [reflexivity|]. split; [|split].
  - unfold Directory.get_api_players_id.
    rewrite (@select_player_in key _ Hk).
    rewrite filter_app, Hnone. simpl. rewrite Z.eqb_refl. reflexivity.
  - unfold Directory.get_api_players_id.
    rewrite (@select_player_in key _ Hk), Hnone. reflexivity.
  - simpl. rewrite Ep, Ef. repeat split; reflexivity.
Qed.

(** X26.  What PUT /api/players/:id writes is what GET /api/players/:id
    gives back: after a successful call the row under the key has the
    six fields of the body, as their columns hold them, the counters
    and the creation time it had before, and the time of the call as
    its time of update. *)
Theorem update_then_get (now key : Z) (b : PlayerBody.t)
  (l l' : list Player.row) (rep : reply) :
  Directory.put_api_players_id now key b l = (rep, l') ->
  Ledger.succeeded rep ->
  exists c before after,
    coerce_profile b = Ok c /\
    Directory.get_api_players_id key l = Json 200 (player_ before) /\
    Directory.get_api_players_id key l' = Json 200 (player_ after) /\
    Player.id after = key /\
    PlayerBody.player_id c = Some (Player.player_id after) /\
    PlayerBody.full_name c = Some (Player.full_name after) /\
    Player.phone_number after = PlayerBody.phone_number c /\
    Player.instagram_username after = PlayerBody.instagram_username c /\
    Player.age after = PlayerBody.age c /\
    Player.skill_level after = PlayerBody.skill_level c /\
    Player.counters_of after = Player.counters_of before /\
    Player.created_at after = Player.created_at before /\
    Player.updated_at after = now.
Proof.
  intros H Hok.
  unfold Directory.put_api_players_id, update_players in H.
  destruct (coerce_update b key) as [[c k]|e] eqn:Ec;
    [|inversion H; subst; discriminate Hok].
  apply coerce_update_inv in Ec. destruct Ec as (-> & Hk & Ec).
  destruct (negb (player_exists key l)) eqn:Ex;
    [inversion H; subst; discriminate Hok|].
  destruct (updated_profile c key l) as [[pid fn]|e] eqn:Eu;
    [|inversion H; subst; discriminate Hok].
  apply negb_false_iff in Ex.
  assert (Hpos : (Z.of_nat (List.length (filter (fun p => Player.id p =? key) l))
                  =? 0) = false)
    by (apply filter_exists_length; exact Ex).
  rewrite Hpos in H. inversion H; subst rep l'; clear H.
  unfold updated_profile, rbind, not_null in Eu.
  destruct (PlayerBody.player_id c) as [pid0|] eqn:Ep; [|discriminate].
  destruct (PlayerBody.full_name c) as [fn0|] eqn:Ef; [|discriminate].
  destruct (check_skill_level (PlayerBody.skill_level c)); [|discriminate].
  destruct (player_id_taken pid0 _); [discriminate|].
  inversion Eu; subst pid0 fn0; clear Eu.
  unfold Directory.get_api_players_id.
  rewrite !(@select_player_in key _ Hk).
  destruct (filter (fun p => Player.id p =? key) l) as [|q rest] eqn:Ef0;
    [discriminate Hpos|].
  assert (Hmap : filter (fun p => Player.id p =? key)
                   (map (fun p => if Player.id p =? key
                                  then set_profile now pid fn c p else p) l)
                 = map (set_profile now pid fn c) (q :: rest)).
  { rewrite <- Ef0. clear. induction l as [|p l IH]; simpl; auto.
    destruct (Player.id p =? key) eqn:E; simpl; rewrite E; simpl; rewrite IH;
      reflexivity. }
  rewrite Hmap. simpl. exists c, q, (set_profile now pid fn c q).
  assert (Hq : In q (filter (fun p => Player.id p =? key) l))
    by (rewrite Ef0; left; reflexivity).
  apply filter_In in Hq. destruct Hq as [_ Hq]. apply Z.eqb_eq in Hq.
  simpl. rewrite Ep, Ef. repeat split; auto.
Qed.

(** X27.  A session POST /api/sessions has created is listed: GET
    /api/sessions then holds the row of the key it answered with, the
    date the store read in the text of the body, and the time of the
    call; the dashboard counts one session more; and neither the key nor
    the date was in the table before. *)
Theorem create_session_then_list (date_in : string -> option Z) (now : Z)
  (date : option string) (d d' : Later.db) (msg : string) (key : Z) :
  Later.post_api_sessions date_in now date d
  = (Json 200 (session_added msg key), d') ->
  exists day rows,
    date_in (template date) = Some day /\
    Later.get_api_sessions (Reads d') = Sent rows /\
    In {| Later.Session.id := key; Later.Session.session_date := day;
          Later.Session.created_at := now |} rows /\
    Later.total_sessions d' = Later.total_sessions d + 1 /\
    Later.session_exists key (Later.sessions (Later.tables d)) = false /\
    existsb (fun s => Later.Session.session_date s =? day)
            (Later.sessions (Later.tables d)) = false.
Proof.
  intros H.
  destruct (@post_api_sessions_cases date_in now date d d' _ H)
    as (_ & _ & [[_ Hno] | (s & Hs & Hid & Hk & Hd & Hday & Hnow & Hrep)]).
  - exfalso. apply Hno. reflexivity.
  - inversion Hrep; subst key. clear Hrep.
    exists (Later.Session.session_date s). eexists.
    split; [exact Hday|]. split; [reflexivity|]. split; [|split; [|split]].
    + simpl. eapply Permutation_in; [symmetry; apply order_by_perm|].
      rewrite Hs. apply in_or_app. right. left.
      destruct s; simpl in *. subst. reflexivity.
    + unfold Later.total_sessions, sql_count. rewrite Hs, length_app. simpl. lia.
    + exact Hk.
    + exact Hd.
Qed.

(** X28.  What POST /api/player-sessions records is what the two
    listings show: after a successful call, in a store reached from the
    empty one, the history of the player has a row for the session, the
    lineup of the session has a row for the player, and every such row
    carries the points, the saves and the MVP flag of the body, 0 and
    false standing for an absent member. *)
Theorem recording_then_history (collate_le : string -> string -> bool)
  (date_in : string -> option Z) (rs : list (Z * Later.request))
  (reps : list reply) (d d' : Later.db) (now : Z) (b : Later.StatsBody.t)
  (fs : list (option pg_error)) (rep : reply) (p se : Z) :
  Later.serve_all date_in rs (Later.initializeDatabase None) = (reps, d) ->
  Later.post_api_player_sessions now b fs d = (rep, d') ->
  Ledger.succeeded rep ->
  Later.StatsBody.player_id b = Some p ->
  Later.StatsBody.session_id b = Some se ->
  exists history lineup,
    Later.get_api_players_id_sessions p (Reads d') = Sent history /\
    Later.get_api_sessions_id_players collate_le se (Reads d') = Sent lineup /\
    (exists h, In h history /\
               Later.PlayerSession.session_id (Later.History.fact h) = se) /\
    (forall h, In h history ->
       Later.PlayerSession.session_id (Later.History.fact h) = se ->
       Later.PlayerSession.points_scored (Later.History.fact h)
       = Some (Later.or_zero (Later.StatsBody.points_scored b)) /\
       Later.PlayerSession.saves (Later.History.fact h)
       = Some (Later.or_zero (Later.StatsBody.saves b)) /\
       Later.PlayerSession.mvp_award (Later.History.fact h)
       = Some (Later.or_false (Later.StatsBody.mvp_award b))) /\
    (exists row, In row lineup /\ Later.Lineup.id row = p) /\
    (forall row, In row lineup -> Later.Lineup.id row = p ->
       Later.Lineup.points_scored row
       = Some (Later.or_zero (Later.StatsBody.points_scored b)) /\
       Later.Lineup.saves row
       = Some (Later.or_zero (Later.StatsBody.saves b)) /\
       Later.Lineup.mvp_award row
       = Some (Later.or_false (Later.StatsBody.mvp_award b))).
Proof.
  intros Hrun H Hok Hp Hse.
  pose proof (sound_serve_all _ _ _ Hrun sound_initially) as S.
  pose proof (sound_recording _ _ _ _ H S) as S'.
  apply recording_cases in H.
  destruct H as [(p0 & t1 & s1 & n & t2 & Hp0 & E1 & E2 & _ & ->)
                | (_ & [-> | [-> | [e ->]]])]; try discriminate Hok.
  assert (p0 = p) by congruence. subst p0.
  assert (Hkeys : in_int4 p = true /\ in_int4 se = true).
  { destruct (upsert_keys _ _ _ _ _ _ _ _ E1) as (p1 & se1 & A & B & C & D).
    inversion A; subst p1. assert (se1 = se) by congruence. subst se1. auto. }
  destruct Hkeys as [Hkp Hkse].
  apply upsert_sound in E1.
  destruct E1 as (p1 & se1 & Hp1 & Hse1 & _ & _ & _ & Hf1).
  inversion Hp1; subst p1. assert (se1 = se) by congruence. subst se1.
  apply update_stats_ok in E2. destruct E2 as (_ & _ & Hf2 & _).
  simpl in S'.
  set (pts := Later.or_zero (Later.StatsBody.points_scored b)) in *.
  set (sv := Later.or_zero (Later.StatsBody.saves b)) in *.
  set (mvp := Later.or_false (Later.StatsBody.mvp_award b)) in *.
  assert (Hfact : exists r, In r (Later.player_sessions t2) /\
            Schema.pair_of r = (p, se) /\
            Later.PlayerSession.points_scored r = Some pts /\
            Later.PlayerSession.saves r = Some sv /\
            Later.PlayerSession.mvp_award r = Some mvp).
  { rewrite Hf2. destruct Hf1 as [[Hex ->] | (_ & _ & _ & _ & ->)].
    - apply existsb_exists in Hex. destruct Hex as (r & Hr & Hpair).
      exists (Later.do_update pts sv mvp r). split.
      + apply in_map_iff. exists r. rewrite Hpair. auto.
      + apply andb_true_iff in Hpair. destruct Hpair as [A B].
        apply Z.eqb_eq in A, B. unfold Schema.pair_of. simpl.
        rewrite A, B. auto.
    - eexists. split; [apply in_or_app; right; left; reflexivity|].
      unfold Schema.pair_of. simpl. auto. }
  destruct Hfact as (r & Hr & Hpair & Hpts & Hsv & Hmvp).
  assert (Huniq : forall r', In r' (Later.player_sessions t2) ->
            Later.PlayerSession.player_id r' = p ->
            Later.PlayerSession.session_id r' = se -> r' = r).
  { intros r' Hr' A B.
    apply (@NoDup_map_same _ _ Schema.pair_of (Later.player_sessions t2)); auto.
    - apply S'.
    - rewrite Hpair. unfold Schema.pair_of. congruence. }
  assert (Hrp : Later.PlayerSession.player_id r = p)
    by (unfold Schema.pair_of in Hpair; congruence).
  assert (Hrs : Later.PlayerSession.session_id r = se)
    by (unfold Schema.pair_of in Hpair; congruence).
  destruct (@history_rows p t2 S' Hkp) as (history & Eh & H1 & _ & _).
  exists history. eexists.
  split; [unfold Later.get_api_players_id_sessions; simpl; rewrite Eh;
          reflexivity|].
  split; [unfold Later.get_api_sessions_id_players; simpl;
          rewrite (@select_session_players_in collate_le se t2 Hkse);
          reflexivity|].
  split; [|split; [|split]].
  - assert (Hin : In r (map Later.History.fact history)).
    { eapply Permutation_in; [symmetry; exact H1|].
      apply filter_In. split; auto. apply Z.eqb_eq. exact Hrp. }
    apply in_map_iff in Hin. destruct Hin as (h & Hh & Hin).
    exists h. split; auto. rewrite Hh. exact Hrs.
  - intros h Hh Hhse.
    assert (Hin : In (Later.History.fact h)
                     (Later.sessions_of p (Later.player_sessions t2))).
    { eapply Permutation_in; [exact H1|]. apply in_map. exact Hh. }
    apply filter_In in Hin. destruct Hin as [Hin Hhp]. apply Z.eqb_eq in Hhp.
    rewrite (Huniq _ Hin Hhp Hhse). auto.
  - pose proof (Schema.player_sessions_player_id_fkey S' _ Hr) as Hex.
    rewrite Hrp in Hex. apply player_exists_In in Hex.
    destruct Hex as (q & Hq & Hid).
    exists (Later.lineup_columns q r). split; [|exact Hid].
    eapply Permutation_in; [symmetry; apply order_by_perm|].
    apply lineup_members. exists q, r. repeat split; auto. congruence.
  - intros row Hrow Hid.
    apply (Permutation_in _ (order_by_perm _ _)) in Hrow.
    apply lineup_members in Hrow.
    destruct Hrow as (q & r' & Hq & Hr' & A & B & ->). simpl in Hid.
    assert (r' = r) by (apply Huniq; auto; congruence). subst r'. simpl. auto.
Qed.

Lemma create_then_get_witness :
  exists c row,
    coerce_profile Season.cleo_again = Ok c /\
    Directory.get_api_players_id 4 (snd (fst Season.created_again))
    = Json 200 (player_ row) /\
    Directory.get_api_players_id 4
      (Later.players (Later.tables (snd Season.without_cleo)))
    = Json 404 (error_ "Player not found") /\
    Player.id row = 4 /\
    PlayerBody.player_id c = Some (Player.player_id row) /\
    PlayerBody.full_name c = Some (Player.full_name row) /\
    Player.phone_number row = PlayerBody.phone_number c /\
    Player.instagram_username row = PlayerBody.instagram_username c /\
    Player.age row = PlayerBody.age c /\
    Player.skill_level row = PlayerBody.skill_level c /\
    Player.counters_of row = zero_counters /\
    Player.created_at row = 11.
Proof.
  apply (@create_then_get 11 Season.cleo_again
           (Later.players (Later.tables (snd Season.without_cleo)))
           (snd (fst Season.created_again)) 4 (snd Season.created_again)
           "Player added successfully" "P1" 4).
  - vm_compute. reflexivity.
  - reflexivity.
Defined.

Lemma update_then_get_witness :
  exists c before after,
    coerce_profile (Season.player "P1" "Cleopatra" (Some "Advanced")) = Ok c /\
    Directory.get_api_players_id 1 (Later.players (Later.tables Season.final))
    = Json 200 (player_ before) /\
    Directory.get_api_players_id 1 (snd Season.renamed)
    = Json 200 (player_ after) /\
    Player.id after = 1 /\
    PlayerBody.player_id c = Some (Player.player_id after) /\
    PlayerBody.full_name c = Some (Player.full_name after) /\
    Player.phone_number after = PlayerBody.phone_number c /\
    Player.instagram_username after = PlayerBody.instagram_username c /\
    Player.age after = PlayerBody.age c /\
    Player.skill_level after = PlayerBody.skill_level c /\
    Player.counters_of after = Player.counters_of before /\
    Player.created_at after = Player.created_at before /\
    Player.updated_at after = 12.
Proof.
  apply (@update_then_get 12 1 (Season.player "P1" "Cleopatra" (Some "Advanced"))
           (Later.players (Later.tables Season.final))
           (snd Season.renamed) (fst Season.renamed)).
  - vm_compute. reflexivity.
  - vm_compute. reflexivity.
Defined.

Lemma create_session_then_list_witness :
  exists day rows,
    Season.dates (template (Some "2024-03-01")) = Some day /\
    Later.get_api_sessions (Reads (snd Season.first_session)) = Sent rows /\
    In {| Later.Session.id := 1; Later.Session.session_date := day;
          Later.Session.created_at := 1 |} rows /\
    Later.total_sessions (snd Season.first_session)
    = Later.total_sessions (Later.initializeDatabase None) + 1 /\
    Later.session_exists 1
      (Later.sessions (Later.tables (Later.initializeDatabase None))) = false /\
    existsb (fun s => Later.Session.session_date s =? day)
            (Later.sessions (Later.tables (Later.initializeDatabase None))) = false.
Proof.
  apply (@create_session_then_list Season.dates 1 (Some "2024-03-01")
           (Later.initializeDatabase None) (snd Season.first_session)
           "Session added successfully" 1).
  vm_compute. reflexivity.
Defined.

Lemma recording_then_history_witness :
  exists history lineup,
    Later.get_api_players_id_sessions 2 (Reads (snd Season.one_more))
    = Sent history /\
    Later.get_api_sessions_id_players String.leb 2 (Reads (snd Season.one_more))
    = Sent lineup /\
    (exists h, In h history /\
               Later.PlayerSession.session_id (Later.History.fact h) = 2) /\
    (forall h, In h history ->
       Later.PlayerSession.session_id (Later.History.fact h) = 2 ->
       Later.PlayerSession.points_scored (Later.History.fact h)
       = Some (Later.or_zero
                 (Later.StatsBody.points_scored (Season.record 2 2 3 0 false))) /\
       Later.PlayerSession.saves (Later.History.fact h)
       = Some (Later.or_zero
                 (Later.StatsBody.saves (Season.record 2 2 3 0 false))) /\
       Later.PlayerSession.mvp_award (Later.History.fact h)
       = Some (Later.or_false
                 (Later.StatsBody.mvp_award (Season.record 2 2 3 0 false)))) /\
    (exists row, In row lineup /\ Later.Lineup.id row = 2) /\
    (forall row, In row lineup -> Later.Lineup.id row = 2 ->
       Later.Lineup.points_scored row
       = Some (Later.or_zero
                 (Later.StatsBody.points_scored (Season.record 2 2 3 0 false))) /\
       Later.Lineup.saves row
       = Some (Later.or_zero
                 (Later.StatsBody.saves (Season.record 2 2 3 0 false))) /\
       Later.Lineup.mvp_award row
       = Some (Later.or_false
                 (Later.StatsBody.mvp_award (Season.record 2 2 3 0 false)))).
Proof.
  apply (@recording_then_history String.leb Season.dates Season.run
           Season.replies Season.final (snd Season.one_more) 13
           (Season.record 2 2 3 0 false) [] (fst Season.one_more) 2 2).
  - vm_compute. reflexivity.
  - vm_compute. reflexivity.
  - vm_compute. reflexivity.
  - reflexivity.
  - reflexivity.
Defined.

(** ** A start of the service *)

Lemma history_of_no_fact (key : Z) (t : Later.data) :
  Ledger.facts_at key t = [] ->
  filter (fun h => Later.PlayerSession.player_id (Later.History.fact h) =? key)
         (Later.join_sessions (Later.player_sessions t) (Later.sessions t)) = [].
Proof.
  intros Hf. apply filter_none. intros h Hh.
  unfold Later.join_sessions in Hh. apply in_flat_map in Hh.
  destruct Hh as (r & Hr & Hh). apply in_map_iff in Hh.
  destruct Hh as (s & <- & _). simpl.
  destruct (Later.PlayerSession.player_id r =? key) eqn:E; [|reflexivity].
  exfalso.
  assert (Hin : In r (Ledger.facts_at key t)).
  { unfold Ledger.facts_at, Later.sessions_of. apply filter_In. auto. }
  rewrite Hf in Hin. exact Hin.
Qed.

Section Restart.

Variable date_in : string -> option Z.

Lemma stranded_step (now : Z) (r : Later.request) (d d' : Later.db)
  (rep : reply) (p : Z) :
  Later.serve date_in now r d = (rep, d') ->
  Ledger.not_about p r ->
  player_exists p (Later.players (Later.tables d)) = true ->
  Ledger.facts_at p (Later.tables d) = [] ->
  Ledger.counters_at p (Later.tables d') = Ledger.counters_at p (Later.tables d) /\
  Ledger.facts_at p (Later.tables d') = [].
Proof.
  intros H Hn Hex Hf.
  destruct (match r with Later.POST_repair_database => true | _ => false end) eqn:Er.
  - destruct r; try discriminate Er. simpl in H. inversion H; subst. simpl.
    split; reflexivity.
  - assert (Hl : Ledger.leaves_alone p r)
      by (destruct r; simpl in *; auto; discriminate Er).
    destruct (serve_leaves _ _ _ _ _ H Hl Hex) as [Hc' Hf'].
    rewrite Hc', Hf'. auto.
Qed.

Lemma stranded_run (rs : list (Z * Later.request)) (d d' : Later.db)
  (reps : list reply) (p : Z) :
  Later.serve_all date_in rs d = (reps, d') ->
  Forall (fun c => Ledger.not_about p (snd c)) rs ->
  Exists (fun c => c <> zero_counters) (Ledger.counters_at p (Later.tables d)) ->
  Ledger.facts_at p (Later.tables d) = [] ->
  Ledger.counters_at p (Later.tables d') = Ledger.counters_at p (Later.tables d) /\
  Ledger.facts_at p (Later.tables d') = [].
Proof.
  revert d reps. induction rs as [|[now r] rs IH]; simpl; intros d reps H Hall Hc Hf.
  - inversion H; subst. auto.
  - inversion Hall as [|? ? Hr Hall']; subst. simpl in Hr.
    destruct (Later.serve date_in now r d) as [rep d1] eqn:E1.
    destruct (Later.serve_all date_in rs d1) as [reps' d2] eqn:E2.
    inversion H; subst.
    destruct (@stranded_step now r d d1 rep p E1 Hr (counters_at_exists _ _ Hc) Hf)
      as [Hc1 Hf1].
    destruct (IH d1 reps' E2 Hall') as [Hc2 Hf2];
      [rewrite Hc1; exact Hc | exact Hf1|].
    split; [congruence | exact Hf2].
Qed.

(** X29.  A start of the later revision drops the statistics rows and
    keeps the players with their counters.  A stored player with a
    counter other than 0 is stranded by it: through every run of later
    requests that holds neither a recording for that player nor its
    deletion, its counters stay as they were, it has no fact, so that
    the counters are not the aggregates over its facts, and its history
    (asked for under its key, when within INTEGER) is the empty list. *)
Theorem restart_strands_counters (d d' : Later.db) (q : Player.row)
  (rs : list (Z * Later.request)) (reps : list reply) :
  In q (Later.players (Later.tables d)) ->
  Player.counters_of q <> zero_counters ->
  Later.serve_all date_in rs (Later.initializeDatabase (Some d)) = (reps, d') ->
  Forall (fun c => Ledger.not_about (Player.id q) (snd c)) rs ->
  Ledger.counters_at (Player.id q) (Later.tables d')
  = Ledger.counters_at (Player.id q) (Later.tables d) /\
  Ledger.facts_at (Player.id q) (Later.tables d') = [] /\
  Ledger.counters_drift (Player.id q) (Later.tables d') /\
  (in_int4 (Player.id q) = true ->
   Later.get_api_players_id_sessions (Player.id q) (Reads d') = Sent []).
Proof.
  intros Hq Hne H Hall.
  assert (Hc : Exists (fun c => c <> zero_counters)
                 (Ledger.counters_at (Player.id q)
                    (Later.tables (Later.initializeDatabase (Some d))))).
  { unfold Ledger.counters_at. simpl. apply Exists_exists.
    exists (Player.counters_of q). split; auto.
    apply in_map. apply filter_In. split; auto. apply Z.eqb_refl. }
  destruct (@stranded_run rs _ d' reps (Player.id q) H Hall Hc eq_refl)
    as [Hc' Hf'].
  split; [exact Hc'|]. split; [exact Hf'|]. split.
  - apply stranded_drifts; [exact Hf'|]. rewrite Hc'. exact Hc.
  - intros Hk. unfold Later.get_api_players_id_sessions. simpl.
    rewrite (@select_player_sessions_in (Player.id q) _ Hk).
    rewrite (history_of_no_fact _ _ Hf'). reflexivity.
Qed.

End Restart.

Lemma restart_strands_counters_witness :
  Ledger.counters_at 1 (Later.tables (snd Season.restarted))
  = Ledger.counters_at 1 (Later.tables Season.final) /\
  Ledger.facts_at 1 (Later.tables (snd Season.restarted)) = [] /\
  Ledger.counters_drift 1 (Later.tables (snd Season.restarted)) /\
  (in_int4 1 = true ->
   Later.get_api_players_id_sessions 1 (Reads (snd Season.restarted)) = Sent []).
Proof.
  apply (@restart_strands_counters Season.dates Season.final
           (snd Season.restarted) Season.cleo Season.after_restart
           (fst Season.restarted)).
  - left. reflexivity.
  - discriminate.
  - vm_compute. reflexivity.
  - repeat constructor; simpl; discriminate.
Defined.
